(** * Inventory forecasting pipeline (systemML.py): a shallow embedding

    The script is modelled stage by stage, in the order of the source:
    loading, feature engineering, data preparation, evaluation and
    selection of the two regressors, and the forecast generator.

    Modelling conventions.
    - A pandas [DataFrame] is a list of rows, each carrying its index label
      ([Frame]); a [Series] is a list.  Index labels matter: the per-product
      frames of the feature engineering loop keep the labels of the sorted
      table.
    - Floating point columns are exact rationals ([Q]); a result that numpy
      would report as [nan] or [inf] is [None].
    - A [Timestamp] is the number of days since 1970-01-01 (the input has one
      observation per calendar day).
    - A raised Python exception is [Raise] applied to the name of its class.
    - The fitted regressors of scikit-learn are opaque: fitting returns some
      prediction function. *)

From Stdlib Require Import String Ascii.
From Stdlib Require Import ZArith QArith Qabs Qround Qminmax.
From Stdlib Require Import List Bool Lia Lqa.
From Stdlib Require Import Sorted Permutation.
Import ListNotations.

Open Scope Z_scope.

(** ** Results and exceptions *)

Inductive result (A : Type) : Type :=
| Ok (a : A)
| Raise (exn : string).
Arguments Ok {A} a.
Arguments Raise {A} exn.

Definition bind {A B} (r : result A) (k : A -> result B) : result B :=
  match r with
  | Ok a => k a
  | Raise e => Raise e
  end.

Notation "x <- r ;; k" := (bind r (fun x => k))
  (at level 61, r at next level, right associativity).

(** ** Calendar: [Timestamp.dayofweek], [.day], [.month], [strftime] *)

Module Calendar.

(** Proleptic Gregorian date of a day count (days since 1970-01-01). *)
Definition civil_from_days (z : Z) : Z * Z * Z :=
  let z := z + 719468 in
  let era := z / 146097 in
  let doe := z - era * 146097 in
  let yoe := (doe - doe / 1460 + doe / 36524 - doe / 146096) / 365 in
  let y := yoe + era * 400 in
  let doy := doe - (365 * yoe + yoe / 4 - yoe / 100) in
  let mp := (5 * doy + 2) / 153 in
  let d := doy - (153 * mp + 2) / 5 + 1 in
  let m := if mp <? 10 then mp + 3 else mp - 9 in
  (if m <=? 2 then y + 1 else y, m, d).

Definition year (z : Z) : Z := fst (fst (civil_from_days z)).
Definition month (z : Z) : Z := snd (fst (civil_from_days z)).
Definition day (z : Z) : Z := snd (civil_from_days z).

(** Monday is 0 and Sunday is 6; 1970-01-01 was a Thursday. *)
Definition dayofweek (z : Z) : Z := (z + 3) mod 7.

Definition digit (n : Z) : ascii :=
  ascii_of_nat (48 + Z.to_nat (n mod 10)).

Definition pad2 (n : Z) : string :=
  String (digit (n / 10)) (String (digit n) EmptyString).

Definition pad4 (n : Z) : string :=
  String (digit (n / 1000)) (String (digit (n / 100)) (pad2 n)).

(** [strftime('%Y-%m-%d')] of a date in the years 1000 to 9999, where the
    year takes its four digits.  A year below 1000 is printed with the
    digits that the C library gives it, and a date after 9999-12-31 is not
    printed at all: a statement about the text of a date is made inside
    these years. *)
Definition strftime (z : Z) : string :=
  (pad4 (year z) ++ "-" ++ pad2 (month z) ++ "-" ++ pad2 (day z))%string.

(** [last_date + timedelta(days=d)] *)
Definition add_days (z d : Z) : Z := z + d.

End Calendar.

(** ** Data model *)

(** One line of the CSV file. *)
Record Observation : Type := mkObservation {
  ID_PRODUTO : Z;
  DATA_EVENTO : Z;
  QUANTIDADE_ESTOQUE : Z;
  PRECO : Q;
  FLAG_PROMOCAO : Z
}.

(** A row of [df] once the calendar columns are added (lines 59-62). *)
Record DfRow : Type := mkDfRow {
  obs : Observation;
  DAY_OF_WEEK : Z;
  DAY : Z;
  MONTH : Z;
  WEEKEND : Z
}.

(** A row of [prod_df] at the end of the loop body, hence of [df_features]. *)
Record FeatureRow : Type := mkFeatureRow {
  row : DfRow;
  PREV_DAY_SALES : Q;
  PREVIOUS_PRICE : Q;
  PRICE_VARIATION : Q;
  MA_3D : Q;
  MA_7D : Q;
  TREND_3D : Q;
  LOW_STOCK : Z;
  NEEDS_REPLENISH : Z;
  DAYS_SINCE_RESTOCK : Z
}.

(** A row of [X], and the synthetic [features_future] of the forecast:
    the fourteen [feature_columns]. *)
Module FV.
Record t : Type := mk {
  ID_PRODUTO : Z;
  PRECO : Q;
  FLAG_PROMOCAO : Z;
  DAY_OF_WEEK : Z;
  DAY : Z;
  MONTH : Z;
  WEEKEND : Z;
  PREV_DAY_SALES : Q;
  PREVIOUS_PRICE : Q;
  PRICE_VARIATION : Q;
  MA_3D : Q;
  MA_7D : Q;
  TREND_3D : Q;
  DAYS_SINCE_RESTOCK : Z
}.
End FV.

(** A data frame: rows with their index labels, in row order. *)
Definition Frame (A : Type) : Type := list (Z * A).

Definition index {A} (f : Frame A) : list Z := map fst f.
Definition values {A} (f : Frame A) : list A := map snd f.

(** [reset_index(drop=True)] and [ignore_index=True]: labels 0, 1, 2, ... *)
Definition range_index (n : nat) : list Z := map Z.of_nat (seq 0 n).

Definition reset_index {A} (rows : list A) : Frame A :=
  combine (range_index (length rows)) rows.

(** [astype(int)] of a boolean column *)
Definition astype_int (b : bool) : Z := if b then 1 else 0.

(** ** Series operations of pandas and numpy *)

Definition zip_with {A B C} (f : A -> B -> C) (a : list A) (b : list B)
  : list C :=
  map (fun xy => f (fst xy) (snd xy)) (combine a b).

(** Rows are assembled from columns position by position. *)
Definition zap {A B} (fs : list (A -> B)) (xs : list A) : list B :=
  zip_with (fun f x => f x) fs xs.

Notation "fs <*> xs" := (zap fs xs) (at level 45, left associativity).

(** [s.shift(1)]: the first cell is missing. *)
Definition shift1 {A} (s : list A) : list (option A) :=
  firstn (length s) (None :: map Some s).

(** [s.fillna(v)] for a scalar [v] *)
Definition fillna {A} (v : A) (s : list (option A)) : list A :=
  map (fun o => match o with Some x => x | None => v end) s.

(** [s.fillna(other)] for a series [other] *)
Definition fillna_with {A} (s : list (option A)) (other : list A) : list A :=
  zip_with (fun o y => match o with Some x => x | None => y end) s other.

Definition Qsum (l : list Q) : Q := fold_right Qplus 0%Q l.

Definition Qmean (l : list Q) : Q :=
  (Qsum l / inject_Z (Z.of_nat (length l)))%Q.

(** The cells of the window of width [w] that ends at position [j]. *)
Definition window {A} (w : nat) (s : list A) (j : nat) : list A :=
  skipn (S j - w) (firstn (S j) s).

(** [s.rolling(window=w, min_periods=1).mean()] *)
Definition rolling_mean (w : nat) (s : list Q) : list Q :=
  map (fun j => Qmean (window w s j)) (seq 0 (length s)).

(** [Index.max()] *)
Definition index_max (l : list Z) : Z := fold_right Z.max (hd 0 l) l.

(** [np.clip(x, lo, hi)] *)
Definition np_clip (x lo hi : Q) : Q := Qmin (Qmax x lo) hi.

(** ** Loading and sorting (lines 37-62) *)

Definition key_leb (a b : Observation) : bool :=
  (ID_PRODUTO a <? ID_PRODUTO b)
  || ((ID_PRODUTO a =? ID_PRODUTO b) && (DATA_EVENTO a <=? DATA_EVENTO b)).

Fixpoint insert (x : Observation) (l : list Observation) : list Observation :=
  match l with
  | [] => [x]
  | y :: l' => if key_leb x y then x :: l else y :: insert x l'
  end.

(** [df.sort_values(['ID_PRODUTO', 'DATA_EVENTO'])]: a stable sort. *)
Definition sort_values (l : list Observation) : list Observation :=
  fold_right insert [] l.

Definition isin (x : Z) (l : list Z) : bool := existsb (Z.eqb x) l.

Definition add_calendar (o : Observation) : DfRow :=
  let dow := Calendar.dayofweek (DATA_EVENTO o) in
  mkDfRow o dow (Calendar.day (DATA_EVENTO o)) (Calendar.month (DATA_EVENTO o))
    (astype_int (isin dow [5; 6])).

(** [df] as it stands when the feature loop starts. *)
Definition load (csv : list Observation) : Frame DfRow :=
  map (fun ir => (fst ir, add_calendar (snd ir)))
      (reset_index (sort_values csv)).

(** ** Feature engineering (lines 65-102) *)

Definition sku (r : DfRow) : Z := ID_PRODUTO (obs r).
Definition stock (r : DfRow) : Z := QUANTIDADE_ESTOQUE (obs r).
Definition price (r : DfRow) : Q := PRECO (obs r).

(** [Series.unique()]: the distinct values in order of first appearance. *)
Fixpoint unique (l : list Z) : list Z :=
  match l with
  | [] => []
  | a :: l' => a :: filter (fun b => negb (b =? a)) (unique l')
  end.

(** [df[df['ID_PRODUTO'] == product_id]]: the rows keep their labels. *)
Definition select_product {A} (id_of : A -> Z) (product_id : Z) (df : Frame A)
  : Frame A :=
  filter (fun ir => id_of (snd ir) =? product_id) df.

Section ProductColumns.

Variable prod_df : Frame DfRow.

Definition col_stock : list Q := map (fun r => inject_Z (stock r)) (values prod_df).
Definition col_price : list Q := map price (values prod_df).

Definition col_PREV_DAY_SALES : list Q :=
  fillna 0%Q
    (zip_with (fun prev cur => option_map (fun p => (p - cur)%Q) prev)
              (shift1 col_stock) col_stock).

Definition col_PREVIOUS_PRICE : list Q :=
  fillna_with (shift1 col_price) col_price.

Definition col_PRICE_VARIATION : list Q :=
  zip_with Qminus col_price col_PREVIOUS_PRICE.

Definition col_MA_3D : list Q := rolling_mean 3 col_stock.
Definition col_MA_7D : list Q := rolling_mean 7 col_stock.

Definition col_TREND_3D : list Q := zip_with Qminus col_stock col_MA_3D.

Definition col_LOW_STOCK : list Z :=
  map (fun r => astype_int (stock r <? 20)) (values prod_df).

Definition col_NEEDS_REPLENISH : list Z :=
  map (fun r => astype_int (stock r <? 30)) (values prod_df).

(** Labels of the rows whose stock is at least 95. *)
Definition restocks : list Z :=
  index (filter (fun ir => 95 <=? stock (snd ir)) prod_df).

(** The body of the loop over [prod_df.index]. *)
Definition days_since_restock (idx : Z) : Z :=
  let upto := filter (fun r => r <=? idx) restocks in
  if (0 <? length upto)%nat
  then idx - index_max upto
  else idx.

Definition col_DAYS_SINCE_RESTOCK : list Z :=
  map days_since_restock (index prod_df).

(** [prod_df] at the end of the loop body. *)
Definition prod_features : Frame FeatureRow :=
  map (fun ir a b c d e f g h i =>
         (fst ir, mkFeatureRow (snd ir) a b c d e f g h i)) prod_df
    <*> col_PREV_DAY_SALES <*> col_PREVIOUS_PRICE <*> col_PRICE_VARIATION
    <*> col_MA_3D <*> col_MA_7D <*> col_TREND_3D
    <*> col_LOW_STOCK <*> col_NEEDS_REPLENISH <*> col_DAYS_SINCE_RESTOCK.

End ProductColumns.

(** The loop of line 67.  Its state is the list [features_list] and the
    loop variable [product_id], a module-level name that stays bound to the
    last product once the loop is over. *)
Definition loop_state : Type := list (Frame FeatureRow) * option Z.

Definition loop_body (df : Frame DfRow) (st : loop_state) (product_id : Z)
  : loop_state :=
  (fst st ++ [prod_features (select_product sku product_id df)],
   Some product_id).

Definition feature_loop (df : Frame DfRow) : loop_state :=
  fold_left (loop_body df) (unique (map sku (values df))) ([], None).

(** [pd.concat(frames, ignore_index=True)] *)
Definition pd_concat {A} (frames : list (Frame A)) : result (Frame A) :=
  match frames with
  | [] => Raise "ValueError"
  | _ => Ok (reset_index (concat (map values frames)))
  end.

Definition sku_of (r : FeatureRow) : Z := sku (row r).
Definition date_of (r : FeatureRow) : Z := DATA_EVENTO (obs (row r)).

(** ** Data preparation (lines 134-152) *)

Definition feature_vector (r : FeatureRow) : FV.t :=
  FV.mk (sku_of r) (price (row r)) (FLAG_PROMOCAO (obs (row r)))
        (DAY_OF_WEEK (row r)) (DAY (row r)) (MONTH (row r)) (WEEKEND (row r))
        (PREV_DAY_SALES r) (PREVIOUS_PRICE r) (PRICE_VARIATION r)
        (MA_3D r) (MA_7D r) (TREND_3D r) (DAYS_SINCE_RESTOCK r).

Definition target (r : FeatureRow) : Z := stock (row r).

(** [df_features[all_columns].dropna()].  No cell of [df_features] can be
    missing: the raw columns are typed and every shifted cell was filled. *)
Definition dropna (f : Frame FeatureRow) : Frame FeatureRow := f.

(** [train_test_split(X, y, test_size=0.2, shuffle=False)]:
    [n_test = ceil(test_size * n_samples)], [n_train = n_samples - n_test],
    the split is refused when [n_train] is 0; without shuffling the training
    rows are [arange(n_train)] and the test rows the [n_test] that follow.
    The product [0.2 * n_samples] is taken exactly; the float product has
    the same ceiling for every table that fits in memory. *)
Definition train_test_split {A B} (X : list A) (y : list B)
  : result (list A * list A * list B * list B) :=
  let n_samples := Z.of_nat (length X) in
  let n_test := Qceiling ((2 # 10) * inject_Z n_samples) in
  let n_train := n_samples - n_test in
  if n_train =? 0 then Raise "ValueError"
  else
    let k := Z.to_nat n_train in
    let m := Z.to_nat n_test in
    Ok (firstn k X, firstn m (skipn k X), firstn k y, firstn m (skipn k y)).

(** ** Evaluation metrics (lines 189-200) *)

Definition sq (x : Q) : Q := (x * x)%Q.

Definition as_float (l : list Z) : list Q := map inject_Z l.

Definition mean_squared_error (y_true : list Z) (y_pred : list Q) : Q :=
  Qmean (zip_with (fun a b => sq (a - b)) (as_float y_true) y_pred).

Definition mean_absolute_error (y_true : list Z) (y_pred : list Q) : Q :=
  Qmean (zip_with (fun a b => Qabs (a - b)) (as_float y_true) y_pred).

(** [r2_score]: undefined ([nan]) with fewer than two samples; with a
    constant [y_true] it is 1 for a perfect prediction and 0 otherwise. *)
Definition r2_score (y_true : list Z) (y_pred : list Q) : option Q :=
  if (length y_true <? 2)%nat then None
  else
    let yt := as_float y_true in
    let numerator := Qsum (zip_with (fun a b => sq (a - b)) yt y_pred) in
    let denominator := Qsum (map (fun a => sq (a - Qmean yt)) yt) in
    if negb (Qeq_bool denominator 0) then Some (1 - numerator / denominator)%Q
    else if negb (Qeq_bool numerator 0) then Some 0%Q
    else Some 1%Q.

(** Floating point division: no finite result when the divisor is 0. *)
Definition np_divide (a b : Q) : option Q :=
  if Qeq_bool b 0 then None else Some (a / b)%Q.

Fixpoint all_finite (l : list (option Q)) : option (list Q) :=
  match l with
  | [] => Some []
  | None :: _ => None
  | Some x :: l' => option_map (cons x) (all_finite l')
  end.

(** [np.mean]: [nan] on an empty array, not finite if a cell is not. *)
Definition np_mean (l : list (option Q)) : option Q :=
  match all_finite l with
  | Some (x :: xs) => Some (Qmean (x :: xs))
  | _ => None
  end.

(** [np.mean(np.abs((y_test - y_pred) / (y_test + 1))) * 100] *)
Definition mape (y_test : list Z) (y_pred : list Q) : option Q :=
  option_map (fun m => (m * 100)%Q)
    (np_mean (zip_with (fun y p => option_map Qabs (np_divide (y - p) (y + 1)))
                       (as_float y_test) y_pred)).

Record Metrics : Type := mkMetrics {
  RMSE : Q;
  MAE : Q;
  MAPE : option Q;
  R2 : option Q
}.

(** [a > b] on floats: false as soon as one side is [nan]. *)
Definition float_gt (a b : option Q) : bool :=
  match a, b with
  | Some x, Some y => negb (Qle_bool x y)
  | _, _ => false
  end.

(** ** Forecast (lines 220-261) *)

Record ForecastPoint : Type := mkForecastPoint {
  Date : string;
  Predicted_Stock : Q;
  Lower_Limit : Q;
  Upper_Limit : Q;
  Confidence : string
}.

(** Round to the nearest integer, halves to the even one. *)
Definition rint (x : Q) : Z :=
  let f := Qfloor x in
  match (x - inject_Z f ?= 1 # 2)%Q with
  | Lt => f
  | Gt => f + 1
  | Eq => if Z.even f then f else f + 1
  end.

(** [round(x, 1)] *)
Definition round1 (x : Q) : Q := (inject_Z (rint (x * 10)) / 10)%Q.

(** [range(a, b)] *)
Definition py_range (a b : Z) : list Z :=
  map (fun i => a + Z.of_nat i) (seq 0 (Z.to_nat (b - a))).

(** [frame.iloc[-1]] *)
Definition iloc_last {A} (f : Frame A) : result A :=
  match rev f with
  | [] => Raise "IndexError"
  | ir :: _ => Ok (snd ir)
  end.

Fixpoint for_each {A B} (body : A -> result B) (l : list A) : result (list B) :=
  match l with
  | [] => Ok []
  | a :: l' => b <- body a ;; bs <- for_each body l' ;; Ok (b :: bs)
  end.

(** The dictionary [features_future] of one iteration; [product_id] is the
    module-level name left by the feature loop. *)
Definition features_future (product_id : Z) (last_row : FeatureRow)
    (future_date d : Z) : FV.t :=
  let dow := Calendar.dayofweek future_date in
  FV.mk product_id
        (price (row last_row))
        0
        dow
        (Calendar.day future_date)
        (Calendar.month future_date)
        (if isin dow [5; 6] then 1 else 0)
        (PREV_DAY_SALES last_row)
        (price (row last_row))
        0%Q
        (MA_3D last_row)
        (MA_7D last_row)
        (TREND_3D last_row)
        (DAYS_SINCE_RESTOCK last_row + d).

(** ** The script *)

(** A fitted regressor: its [predict], one row at a time. *)
Definition Model : Type := FV.t -> Q.

(** The module-level names that later stages read. *)
Record Globals : Type := mkGlobals {
  df_features : Frame FeatureRow;
  product_id : option Z;
  X_train : list FV.t;
  X_test : list FV.t;
  y_train : list Z;
  y_test : list Z;
  rf_model : Model;
  gb_model : Model;
  y_pred_rf : list Q;
  y_pred_gb : list Q;
  metrics_rf : Metrics;
  metrics_gb : Metrics;
  best_model : Model;
  model_name : string;
  best_metrics : Metrics
}.

(** Lines 202-209. *)
Definition select_best (rf gb : Model) (m_rf m_gb : Metrics)
  : Model * string * Metrics :=
  if float_gt (R2 m_rf) (R2 m_gb)
  then (rf, "Random Forest"%string, m_rf)
  else (gb, "Gradient Boosting"%string, m_gb).

Section Script.

(** [RandomForestRegressor(...).fit] and [GradientBoostingRegressor(...).fit]
    with the hyperparameters and seed of the script, and [np.sqrt]. *)
Variable fit_rf fit_gb : list FV.t -> list Z -> Model.
Variable np_sqrt : Q -> Q.

Definition evaluate (y_true : list Z) (y_pred : list Q) : Metrics :=
  mkMetrics (np_sqrt (mean_squared_error y_true y_pred))
            (mean_absolute_error y_true y_pred)
            (mape y_true y_pred)
            (r2_score y_true y_pred).

Definition script (csv : list Observation) : result Globals :=
  let df := load csv in
  let st := feature_loop df in
  df_features <- pd_concat (fst st) ;;
  let df_model := dropna df_features in
  let X := map feature_vector (values df_model) in
  let y := map target (values df_model) in
  parts <- train_test_split X y ;;
  let '(X_train, X_test, y_train, y_test) := parts in
  let rf_model := fit_rf X_train y_train in
  let gb_model := fit_gb X_train y_train in
  let y_pred_rf := map (fun x => np_clip (rf_model x) 0 100) X_test in
  let y_pred_gb := map (fun x => np_clip (gb_model x) 0 100) X_test in
  let m_rf := evaluate y_test y_pred_rf in
  let m_gb := evaluate y_test y_pred_gb in
  let '(best_model, model_name, best_metrics) :=
    select_best rf_model gb_model m_rf m_gb in
  Ok (mkGlobals df_features (snd st) X_train X_test y_train y_test
                rf_model gb_model y_pred_rf y_pred_gb m_rf m_gb
                best_model model_name best_metrics).

End Script.

(** The local names of one iteration of the forecast loop. *)
Record Step : Type := mkStep {
  future_date : Z;
  x_future : FV.t;
  pred_stock : Q;
  point : ForecastPoint
}.

Definition forecast_step (g : Globals) (last_row : FeatureRow) (d : Z)
  : result Step :=
  let future_date := Calendar.add_days (date_of last_row) d in
  match product_id g with
  | None => Raise "NameError"
  | Some product_id =>
      let x_future := features_future product_id last_row future_date d in
      let pred_stock := np_clip (best_model g x_future) 0 100 in
      let error_margin := (RMSE (best_metrics g) * (15 # 10))%Q in
      Ok (mkStep future_date x_future pred_stock
            (mkForecastPoint
               (Calendar.strftime future_date)
               (round1 pred_stock)
               (round1 (Qmax 0 (pred_stock - error_margin)))
               (round1 (Qmin 100 (pred_stock + error_margin)))
               "85%"))
  end.

Definition forecast_steps (g : Globals) (prod_id_to_forecast days : Z)
  : result (list Step) :=
  let product_data :=
    select_product sku_of prod_id_to_forecast (df_features g) in
  last_row <- iloc_last product_data ;;
  for_each (forecast_step g last_row) (py_range 1 (days + 1)).

(** [forecast_next_days(prod_id_to_forecast, days=7)]; the horizon is
    always passed here, [default_days] when the caller leaves it out. *)
Definition forecast_next_days (g : Globals) (prod_id_to_forecast days : Z)
  : result (list ForecastPoint) :=
  steps <- forecast_steps g prod_id_to_forecast days ;;
  Ok (map point steps).

Definition default_days : Z := 7.

(** Lines 263-264: the forecast that the script itself requests. *)
Definition product_example : Z := 1000.

Definition forecast_df (g : Globals) : result (list ForecastPoint) :=
  forecast_next_days g product_example default_days.

(** ** Exploratory analysis (lines 113-126 and 273) *)

(** A row of [critical_products]; its index label is the product. *)
Record CriticalProduct : Type := mkCriticalProduct {
  Min_Stock : Z;
  Avg_Stock : Q;
  Std_Stock : option Q;
  Critical_Days : Z;
  Avg_Price : Q;
  Promotions_Total : Z
}.

(** [Series.min()] and [Series.sum()] of an integer column *)
Definition series_min (l : list Z) : Z := fold_right Z.min (hd 0 l) l.
Definition series_sum (l : list Z) : Z := fold_right Z.add 0 l.

(** [round(x, 2)] *)
Definition round2 (x : Q) : Q := (inject_Z (rint (x * 100)) / 100)%Q.

Fixpoint insert_key (x : Z) (l : list Z) : list Z :=
  match l with
  | [] => [x]
  | y :: l' => if x <=? y then x :: l else y :: insert_key x l'
  end.

(** The group keys of [groupby]: the distinct values, ascending. *)
Definition group_keys (l : list Z) : list Z :=
  fold_right insert_key [] (unique l).

Section Diagnostics.

Variable np_sqrt : Q -> Q.

(** [Series.std()]: the sample deviation, missing for a single value. *)
Definition series_std (l : list Q) : option Q :=
  if (length l <? 2)%nat then None
  else
    Some (np_sqrt (Qsum (map (fun x => sq (x - Qmean l)) l)
                   / inject_Z (Z.of_nat (length l) - 1)))%Q.

(** The six aggregates of one group, the float ones rounded by
    [.round(2)]. *)
Definition aggregate (rows : list FeatureRow) : CriticalProduct :=
  let levels := map (fun r => stock (row r)) rows in
  mkCriticalProduct
    (series_min levels)
    (round2 (Qmean (as_float levels)))
    (option_map round2 (series_std (as_float levels)))
    (series_sum (map LOW_STOCK rows))
    (round2 (Qmean (map (fun r => price (row r)) rows)))
    (series_sum (map (fun r => FLAG_PROMOCAO (obs (row r))) rows)).

(** [df_features.groupby('ID_PRODUTO').agg(...).round(2)] *)
Definition groupby_agg (F : Frame FeatureRow) : Frame CriticalProduct :=
  map (fun k => (k, aggregate (values (select_product sku_of k F))))
      (group_keys (map sku_of (values F))).

Fixpoint insert_by_min (x : Z * CriticalProduct) (l : Frame CriticalProduct)
  : Frame CriticalProduct :=
  match l with
  | [] => [x]
  | y :: l' =>
      if Min_Stock (snd x) <=? Min_Stock (snd y) then x :: l
      else y :: insert_by_min x l'
  end.

(** [sort_values('Min_Stock')].  numpy's default sort fixes no order among
    equal keys; this one keeps the order of the groups. *)
Definition sort_by_min_stock (l : Frame CriticalProduct)
  : Frame CriticalProduct :=
  fold_right insert_by_min [] l.

Definition critical_products (F : Frame FeatureRow) : Frame CriticalProduct :=
  sort_by_min_stock (groupby_agg F).

(** Line 273: the number of products that reached a stock below 10. *)
Definition critical_count (F : Frame FeatureRow) : nat :=
  length (filter (fun kc => Min_Stock (snd kc) <? 10) (critical_products F)).

End Diagnostics.


(** ** Vocabulary of the statements *)

(** The stock capacity range. *)
Definition in_range (x : Q) : Prop := (0 <= x /\ x <= 100)%Q.

(** The smoothed percentage error as the specification words it:
    [mean(|actual - predicted| / (actual + 1)) * 100]. *)
Definition mape_spec (actual : list Z) (predicted : list Q) : Q :=
  (Qmean (zip_with (fun a p => Qabs (a - p) / (a + 1))
                   (as_float actual) predicted) * 100)%Q.

(** The restock distance as the specification words it: one forward scan
    that keeps the index of the last restock, here over the index labels
    that the rows carry. *)
Fixpoint restock_scan (last_restock : option Z) (rows : Frame DfRow) : list Z :=
  match rows with
  | [] => []
  | (idx, r) :: rest =>
      let last_restock := if 95 <=? stock r then Some idx else last_restock in
      match last_restock with
      | Some l => idx - l
      | None => idx
      end :: restock_scan last_restock rest
  end.

(** The order of the exploratory table. *)
Definition min_stock_le (a b : Z * CriticalProduct) : Prop :=
  Min_Stock (snd a) <= Min_Stock (snd b).

(** [df_features] alone, as the loop and the concatenation produce it. *)
Definition feature_engineering (csv : list Observation)
  : result (Frame FeatureRow) :=
  pd_concat (fst (feature_loop (load csv))).

(** The index labels of a frame grow strictly from row to row. *)
Definition labels_increasing {A} (f : Frame A) : Prop :=
  StronglySorted Z.lt (index f).

(** The order of [sort_values]: by product, then by date. *)
Definition key_le (a b : Observation) : Prop := key_leb a b = true.

(** The rows of a table whose key is [k]. *)
Definition group {A} (key : A -> Z) (k : Z) (l : list A) : list A :=
  filter (fun x => key x =? k) l.

(** The observations of the products sorted before [s]. *)
Definition before_product (s : Z) (o : Observation) : bool :=
  ID_PRODUTO o <? s.

(** The observations of [s] dated at or before [d]. *)
Definition upto_date (s d : Z) (o : Observation) : bool :=
  (ID_PRODUTO o =? s) && (DATA_EVENTO o <=? d).

(** *** Calendar dates as the forecast prints them *)

(** The Gregorian calendar, on dates written as (year, month, day). *)
Definition is_leap (y : Z) : bool :=
  (y mod 4 =? 0) && (negb (y mod 100 =? 0) || (y mod 400 =? 0)).

Definition days_in_month (y m : Z) : Z :=
  if m =? 2 then (if is_leap y then 29 else 28)
  else if (m =? 4) || (m =? 6) || (m =? 9) || (m =? 11) then 30
  else 31.

Definition valid_date (t : Z * Z * Z) : bool :=
  let '(y, m, d) := t in
  (1 <=? m) && (m <=? 12) && (1 <=? d) && (d <=? days_in_month y m).

(** The day that follows a date in the calendar. *)
Definition next_day (t : Z * Z * Z) : Z * Z * Z :=
  let '(y, m, d) := t in
  if d <? days_in_month y m then (y, m, d + 1)
  else if m <? 12 then (y, m + 1, 1)
  else (y + 1, 1, 1).

(** The [n] days that follow a date, in order. *)
Fixpoint days_after (t : Z * Z * Z) (n : nat) : list (Z * Z * Z) :=
  match n with
  | O => []
  | S n' => next_day t :: days_after (next_day t) n'
  end.

(** Dates in the order of the calendar. *)
Definition date_lt (t1 t2 : Z * Z * Z) : Prop :=
  let '(y1, m1, d1) := t1 in
  let '(y2, m2, d2) := t2 in
  y1 < y2 \/ (y1 = y2 /\ (m1 < m2 \/ (m1 = m2 /\ d1 < d2))).

(** Reading a date back from its text: ten characters, [YYYY-MM-DD], that
    name a date of the calendar. *)
Definition digit_value (c : ascii) : option Z :=
  let n := Z.of_nat (nat_of_ascii c) in
  if (48 <=? n) && (n <=? 57) then Some (n - 48) else None.

Fixpoint number (acc : Z) (cs : list ascii) : option Z :=
  match cs with
  | [] => Some acc
  | c :: cs' =>
      match digit_value c with
      | Some v => number (10 * acc + v) cs'
      | None => None
      end
  end.

Definition strptime (s : string) : option (Z * Z * Z) :=
  match list_ascii_of_string s with
  | [y3; y2; y1; y0; h1; m1; m0; h2; d1; d0] =>
      if Ascii.eqb h1 "-" && Ascii.eqb h2 "-" then
        match number 0 [y3; y2; y1; y0], number 0 [m1; m0],
              number 0 [d1; d0] with
        | Some y, Some m, Some d =>
            if valid_date (y, m, d) then Some (y, m, d) else None
        | _, _, _ => None
        end
      else None
  | _ => None
  end.

(** Texts in the order of strings, character by character. *)
Definition string_lt (s1 s2 : string) : Prop := String.compare s1 s2 = Lt.

(** The day counts of 1000-01-01 and 9999-12-31.  Between them the year
    takes four digits, which is where [Calendar.strftime] is the text
    that the code prints. *)
Definition first_day : Z := -354285.
Definition last_day : Z := 2932896.

(** The date arithmetic of [Calendar.civil_from_days] in its parts.  An era
    is 400 years long and its years begin on the first of March: the year of
    a day of the era, the first day of a year, and the date of a day of a
    year. *)
Definition year_of_era (doe : Z) : Z :=
  (doe - doe / 1460 + doe / 36524 - doe / 146096) / 365.

Definition year_start (yoe : Z) : Z := 365 * yoe + yoe / 4 - yoe / 100.

Definition civil_of_year_day (yoe doy : Z) : Z * Z * Z :=
  let mp := (5 * doy + 2) / 153 in
  let d := doy - (153 * mp + 2) / 5 + 1 in
  let m := if mp <? 10 then mp + 3 else mp - 9 in
  (if m <=? 2 then yoe + 1 else yoe, m, d).

Definition civil_in_era (doe : Z) : Z * Z * Z :=
  civil_of_year_day (year_of_era doe) (doe - year_start (year_of_era doe)).

(** The length of the year that begins in March of year [yoe]: it holds
    the February of the next calendar year. *)
Definition year_length (yoe : Z) : Z := if is_leap (yoe + 1) then 366 else 365.

Definition shift_year (k : Z) (t : Z * Z * Z) : Z * Z * Z :=
  let '(y, m, d) := t in (y + k, m, d).

(** A check run over the [n] days from [k] on. *)
Definition check_step (f : Z -> bool) (st : Z * bool) : Z * bool :=
  (fst st + 1, snd st && f (fst st)).

Definition all_from (n : positive) (k : Z) (f : Z -> bool) : bool :=
  snd (Pos.iter (check_step f) (k, true) n).

Definition date_eqb (t1 t2 : Z * Z * Z) : bool :=
  let '(y1, m1, d1) := t1 in
  let '(y2, m2, d2) := t2 in
  (y1 =? y2) && (m1 =? m2) && (d1 =? d2).

(** One day of March to January: its date is valid, outside February, and
    the next day of the year has the next date. *)
Definition year_day_ok (doy : Z) : bool :=
  let t := civil_of_year_day 0 doy in
  negb (snd (fst t) =? 2)
  && valid_date t
  && date_eqb (civil_of_year_day 0 (doy + 1)) (next_day t).

(** *** Inputs that agree on a product up to a date *)

(** Rows labelled [a], [a + 1], ... in their order. *)
Fixpoint labelled {A} (a : Z) (rows : list A) : Frame A :=
  match rows with
  | [] => []
  | r :: rows' => (a, r) :: labelled (a + 1) rows'
  end.

(** The series of product [s] up to the date [d], in the order of the
    table. *)
Definition series_upto (s d : Z) (csv : list Observation) : list Observation :=
  sort_values (filter (upto_date s d) csv).

(** The number of rows that the sorted table holds before product [s]. *)
Definition rows_before (s : Z) (csv : list Observation) : nat :=
  length (filter (before_product s) csv).

(** A restock among some observations. *)
Definition restocked (l : list Observation) : bool :=
  existsb (fun o => 95 <=? QUANTIDADE_ESTOQUE o) l.

(** A feature row with another restock distance. *)
Definition with_restock_distance (v : Z) (r : FeatureRow) : FeatureRow :=
  mkFeatureRow (row r) (PREV_DAY_SALES r) (PREVIOUS_PRICE r)
               (PRICE_VARIATION r) (MA_3D r) (MA_7D r) (TREND_3D r)
               (LOW_STOCK r) (NEEDS_REPLENISH r) v.

(** ** Sample inputs *)

Definition obs_of (id date level : Z) (p : Q) : Observation :=
  mkObservation id date level p 0.

(** Two products, four days each from 2024-02-27, the same stock levels
    [50, 45, 96, 90] day by day, the lines of the file in no order. *)
Definition two_skus : list Observation :=
  [ obs_of 1001 19783 90 20; obs_of 1000 19781 45 10;
    obs_of 1001 19780 50 20; obs_of 1000 19783 90 12;
    obs_of 1000 19780 50 10; obs_of 1001 19782 96 20;
    obs_of 1000 19782 96 10; obs_of 1001 19781 45 20 ].

(** The product 1000 alone. *)
Definition one_sku : list Observation :=
  [ obs_of 1000 19780 50 10; obs_of 1000 19781 45 10;
    obs_of 1000 19782 96 10; obs_of 1000 19783 90 12 ].

(** A fitting procedure whose model always answers [c]. *)
Definition fit_const (c : Q) : list FV.t -> list Z -> Model :=
  fun _ _ _ => c.

(** A stand-in for [np.sqrt] in the sample runs; no statement depends on
    the values it returns. *)
Definition sqrt_sample (x : Q) : Q := x.

(** [two_skus] with one line of product 1000 given to a new product 1002:
    the four observations of product 1001 are the same. *)
Definition two_skus_relabelled : list Observation :=
  [ obs_of 1001 19783 90 20; obs_of 1002 19781 45 10;
    obs_of 1001 19780 50 20; obs_of 1000 19783 90 12;
    obs_of 1000 19780 50 10; obs_of 1001 19782 96 20;
    obs_of 1000 19782 96 10; obs_of 1001 19781 45 20 ].

(** * Properties *)

(** ** Lists, columns and the result monad *)

Lemma zip_with_length {A B C} (f : A -> B -> C) (a : list A) (b : list B) :
  length (zip_with f a b) = Nat.min (length a) (length b).
Proof.
  unfold zip_with. now rewrite length_map, length_combine.
Qed.

Lemma for_each_inv {A B} (body : A -> result B) (l : list A) (bs : list B) :
  for_each body l = Ok bs ->
  Forall2 (fun a b => body a = Ok b) l bs.
Proof.
  revert bs. induction l as [|a l IH]; simpl; intros bs H.
  - inversion H. constructor.
  - destruct (body a) as [b|] eqn:Hb; simpl in H; [|discriminate].
    destruct (for_each body l) as [bs'|]; simpl in H; [|discriminate].
    inversion H; subst. constructor; auto.
Qed.

Lemma py_range_length (a b : Z) : length (py_range a b) = Z.to_nat (b - a).
Proof. unfold py_range. now rewrite length_map, length_seq. Qed.

Lemma py_range_nth (a b : Z) (i : nat) :
  (i < Z.to_nat (b - a))%nat ->
  nth_error (py_range a b) i = Some (a + Z.of_nat i).
Proof.
  intros Hi. unfold py_range.
  rewrite nth_error_map, nth_error_nth' with (d := 0%nat)
    by now rewrite length_seq.
  rewrite seq_nth by assumption. reflexivity.
Qed.

Lemma py_range_In (a b d : Z) : In d (py_range a b) <-> a <= d < b.
Proof.
  unfold py_range. rewrite in_map_iff. split.
  - intros [i [Hd Hi]]. apply in_seq in Hi. lia.
  - intros Hd. exists (Z.to_nat (d - a)). split; [lia|].
    apply in_seq. lia.
Qed.

(** ** Clipping and rounding *)

Lemma np_clip_bounds (x lo hi : Q) :
  (lo <= hi)%Q -> (lo <= np_clip x lo hi /\ np_clip x lo hi <= hi)%Q.
Proof.
  intros Hle. unfold np_clip. split.
  - apply Q.min_glb; [apply Q.le_max_r | assumption].
  - apply Q.le_min_r.
Qed.

Lemma np_clip_in_range (x : Q) : in_range (np_clip x 0 100).
Proof. apply np_clip_bounds. discriminate. Qed.

Lemma rint_bounds (y : Q) (n : Z) :
  (0 <= y)%Q -> (y <= inject_Z n)%Q -> 0 <= rint y <= n.
Proof.
  intros H0 Hn. unfold rint.
  pose proof (Qfloor_le y) as Hfl.
  assert (Hf0 : 0 <= Qfloor y).
  { change 0 with (Qfloor 0). now apply Qfloor_resp_le. }
  assert (Hfn : Qfloor y <= n).
  { rewrite <- (Qfloor_Z n). now apply Qfloor_resp_le. }
  assert (Hup : (1 # 2 <= y - inject_Z (Qfloor y))%Q -> Qfloor y + 1 <= n).
  { intros Hhalf.
    assert (Hlt : (inject_Z (Qfloor y) < inject_Z n)%Q) by lra.
    rewrite <- Zlt_Qlt in Hlt. lia. }
  destruct (y - inject_Z (Qfloor y) ?= 1 # 2)%Q eqn:Hc.
  - apply Qeq_alt in Hc.
    destruct (Z.even (Qfloor y)); [lia|].
    split; [lia|]. apply Hup. rewrite Hc. apply Qle_refl.
  - lia.
  - apply Qgt_alt in Hc. split; [lia|]. apply Hup.
    now apply Qlt_le_weak.
Qed.

Lemma round1_in_range (x : Q) : in_range x -> in_range (round1 x).
Proof.
  intros [H0 H100]. unfold round1.
  destruct (rint_bounds (x * 10) 1000) as [Hlo Hhi].
  - lra.
  - change (inject_Z 1000) with 1000%Q. lra.
  - rewrite Zle_Qle in Hlo, Hhi.
    change (inject_Z 0) with 0%Q in Hlo.
    change (inject_Z 1000) with 1000%Q in Hhi.
    unfold in_range, Qdiv. change (/ 10)%Q with (1 # 10)%Q.
    split; lra.
Qed.

(** ** What a successful run of the script binds *)

Section ScriptFacts.

Variable fit_rf fit_gb : list FV.t -> list Z -> Model.
Variable np_sqrt : Q -> Q.

Lemma script_inv (csv : list Observation) (g : Globals) :
  script fit_rf fit_gb np_sqrt csv = Ok g ->
  let st := feature_loop (load csv) in
  let dm := values (dropna (df_features g)) in
  pd_concat (fst st) = Ok (df_features g)
  /\ product_id g = snd st
  /\ train_test_split (map feature_vector dm) (map target dm)
     = Ok (X_train g, X_test g, y_train g, y_test g)
  /\ rf_model g = fit_rf (X_train g) (y_train g)
  /\ gb_model g = fit_gb (X_train g) (y_train g)
  /\ y_pred_rf g = map (fun x => np_clip (rf_model g x) 0 100) (X_test g)
  /\ y_pred_gb g = map (fun x => np_clip (gb_model g x) 0 100) (X_test g)
  /\ metrics_rf g = evaluate np_sqrt (y_test g) (y_pred_rf g)
  /\ metrics_gb g = evaluate np_sqrt (y_test g) (y_pred_gb g)
  /\ (best_model g, model_name g, best_metrics g)
     = select_best (rf_model g) (gb_model g) (metrics_rf g) (metrics_gb g).
Proof.
  unfold script. cbv zeta.
  destruct (pd_concat (fst (feature_loop (load csv)))) as [dff|] eqn:Hc;
    simpl; [|discriminate].
  destruct (train_test_split _ _) as [[[[xtr xte] ytr] yte]|] eqn:Hs;
    simpl; [|discriminate].
  destruct (select_best _ _ _ _) as [[bm nm] bmet] eqn:Hb.
  intros H. inversion H; subst; clear H. simpl.
  repeat split; auto.
Qed.

End ScriptFacts.

(** ** The ordered split *)

Lemma ceil_fifth (n : Z) : Qceiling ((2 # 10) * inject_Z n) = (n + 4) / 5.
Proof.
  unfold Qceiling, Qfloor, Qopp, Qmult, inject_Z.
  cbn [Qnum Qden]. rewrite Pos.mul_1_r.
  pose proof (Z.div_mod (- (2 * n)) 10 ltac:(lia)).
  pose proof (Z.mod_pos_bound (- (2 * n)) 10 ltac:(lia)).
  pose proof (Z.div_mod (n + 4) 5 ltac:(lia)).
  pose proof (Z.mod_pos_bound (n + 4) 5 ltac:(lia)).
  lia.
Qed.

Lemma train_test_split_inv {A B} (X : list A) (y : list B)
    (xtr xte : list A) (ytr yte : list B) :
  train_test_split X y = Ok (xtr, xte, ytr, yte) ->
  let n := Z.of_nat (length X) in
  let k := Z.to_nat (n - (n + 4) / 5) in
  (0 < k)%nat /\ (k < length X)%nat
  /\ xtr = firstn k X /\ xte = skipn k X
  /\ ytr = firstn k y /\ yte = firstn (length X - k) (skipn k y).
Proof.
  unfold train_test_split. rewrite ceil_fifth. cbv zeta.
  set (n := Z.of_nat (length X)).
  assert (Hn : 0 <= n) by lia.
  pose proof (Z.div_mod (n + 4) 5 ltac:(lia)) as Hd.
  pose proof (Z.mod_pos_bound (n + 4) 5 ltac:(lia)) as Hm.
  destruct (n - (n + 4) / 5 =? 0) eqn:Hz; [discriminate|].
  apply Z.eqb_neq in Hz.
  intros H. inversion H; subst; clear H.
  assert (Hk : Z.to_nat ((n + 4) / 5) = (length X - Z.to_nat (n - (n + 4) / 5))%nat)
    by lia.
  repeat split; try lia.
  - rewrite Hk. apply firstn_all2. rewrite length_skipn. lia.
  - now rewrite Hk.
Qed.

(** ** The smoothed percentage error *)

Lemma Qsum_compat (l1 l2 : list Q) :
  Forall2 Qeq l1 l2 -> (Qsum l1 == Qsum l2)%Q.
Proof.
  induction 1 as [|x y l1 l2 Hxy _ IH]; simpl.
  - reflexivity.
  - now rewrite Hxy, IH.
Qed.

Lemma Qmean_compat (l1 l2 : list Q) :
  Forall2 Qeq l1 l2 -> (Qmean l1 == Qmean l2)%Q.
Proof.
  intros H. unfold Qmean.
  rewrite (Qsum_compat _ _ H), (Forall2_length H). reflexivity.
Qed.

Lemma mape_term (a : Z) (p : Q) :
  0 <= a ->
  exists t,
    option_map Qabs (np_divide (inject_Z a - p) (inject_Z a + 1)) = Some t
    /\ (t == Qabs (inject_Z a - p) / (inject_Z a + 1))%Q.
Proof.
  intros Ha.
  assert (Hpos : (0 < inject_Z a + 1)%Q).
  { rewrite Zle_Qle in Ha. change (inject_Z 0) with 0%Q in Ha. lra. }
  unfold np_divide.
  destruct (Qeq_bool (inject_Z a + 1) 0) eqn:Hz.
  - apply Qeq_bool_eq in Hz. rewrite Hz in Hpos. discriminate.
  - eexists. split; [reflexivity|].
    unfold Qdiv. rewrite Qabs_Qmult.
    rewrite (Qabs_pos (/ (inject_Z a + 1))); [reflexivity|].
    apply Qlt_le_weak, Qinv_lt_0_compat, Hpos.
Qed.

Lemma mape_terms_finite (actual : list Z) (predicted : list Q) :
  Forall (fun a => 0 <= a) actual ->
  exists ts,
    all_finite (zip_with (fun y p => option_map Qabs (np_divide (y - p) (y + 1)))
                         (as_float actual) predicted) = Some ts
    /\ Forall2 Qeq ts (zip_with (fun a p => Qabs (a - p) / (a + 1))%Q
                                (as_float actual) predicted).
Proof.
  intros Hpos. revert predicted.
  induction Hpos as [|a actual Ha _ IH]; intros predicted.
  - exists []. split; [reflexivity | constructor].
  - destruct predicted as [|p predicted].
    + exists []. split; [reflexivity | constructor].
    + destruct (IH predicted) as [ts [Hts Heq]].
      destruct (mape_term a p Ha) as [t [Ht Hteq]].
      exists (t :: ts). unfold zip_with in *. simpl.
      rewrite Ht, Hts. split; [reflexivity | now constructor].
Qed.

Lemma mape_formula (actual : list Z) (predicted : list Q) :
  actual <> [] -> length actual = length predicted ->
  Forall (fun a => 0 <= a) actual ->
  exists v, mape actual predicted = Some v
            /\ (v == mape_spec actual predicted)%Q.
Proof.
  intros Hne Hlen Hpos.
  destruct (mape_terms_finite actual predicted Hpos) as [ts [Hts Heq]].
  unfold mape, np_mean. rewrite Hts.
  destruct ts as [|t ts].
  - apply Forall2_length in Heq.
    rewrite zip_with_length in Heq. unfold as_float in Heq.
    rewrite length_map, <- Hlen, Nat.min_id in Heq.
    destruct actual; [contradiction | discriminate].
  - eexists. split; [reflexivity|].
    unfold mape_spec. now rewrite (Qmean_compat _ _ Heq).
Qed.

Section HoldoutFacts.

Variable fit_rf fit_gb : list FV.t -> list Z -> Model.
Variable np_sqrt : Q -> Q.

Lemma holdout_shape (csv : list Observation) (g : Globals) :
  script fit_rf fit_gb np_sqrt csv = Ok g ->
  y_test g <> []
  /\ length (y_pred_rf g) = length (y_test g)
  /\ length (y_pred_gb g) = length (y_test g).
Proof.
  intros Hrun.
  destruct (script_inv _ _ _ _ _ Hrun)
    as (_ & _ & Hsplit & _ & _ & Hrf & Hgb & _).
  apply train_test_split_inv in Hsplit.
  rewrite length_map in Hsplit. cbv zeta in Hsplit.
  set (dm := values (dropna (df_features g))) in *.
  set (k := Z.to_nat _) in Hsplit.
  destruct Hsplit as (Hk0 & Hkn & _ & Hxte & _ & Hyte).
  assert (Hlen : length (y_test g) = (length dm - k)%nat).
  { rewrite Hyte, length_firstn, length_skipn, length_map. lia. }
  rewrite Hrf, Hgb, !length_map, Hxte, length_skipn, length_map, Hlen.
  repeat split; auto.
  intros Hnil. rewrite Hnil in Hlen. simpl in Hlen. lia.
Qed.

End HoldoutFacts.

(** ** The forecast loop *)

Lemma forecast_step_inv (g : Globals) (last_row : FeatureRow) (d : Z) (s : Step) :
  forecast_step g last_row d = Ok s ->
  exists pid,
    product_id g = Some pid
    /\ future_date s = Calendar.add_days (date_of last_row) d
    /\ x_future s = features_future pid last_row (future_date s) d
    /\ pred_stock s = np_clip (best_model g (x_future s)) 0 100
    /\ Date (point s) = Calendar.strftime (future_date s)
    /\ Predicted_Stock (point s) = round1 (pred_stock s).
Proof.
  unfold forecast_step. destruct (product_id g) as [pid|]; [|discriminate].
  intros H. inversion H; subst; clear H. simpl.
  exists pid. repeat split; reflexivity.
Qed.

Lemma forecast_steps_inv (g : Globals) (p days : Z) (steps : list Step) :
  forecast_steps g p days = Ok steps ->
  exists last_row,
    iloc_last (select_product sku_of p (df_features g)) = Ok last_row
    /\ Forall2 (fun d s => forecast_step g last_row d = Ok s)
               (py_range 1 (days + 1)) steps.
Proof.
  unfold forecast_steps.
  destruct (iloc_last _) as [last_row|]; simpl; [|discriminate].
  intros H. exists last_row. split; [reflexivity|].
  now apply for_each_inv.
Qed.

(** ** Selection *)

Lemma float_gt_true (a b : option Q) :
  float_gt a b = true <-> exists x y, a = Some x /\ b = Some y /\ (y < x)%Q.
Proof.
  unfold float_gt. split.
  - destruct a as [x|], b as [y|]; try discriminate.
    intros H. exists x, y. repeat split.
    apply Qnot_le_lt. intros Hle. apply Qle_bool_iff in Hle.
    rewrite Hle in H. discriminate.
  - intros (x & y & -> & -> & Hlt).
    destruct (Qle_bool x y) eqn:Hle; [|reflexivity].
    apply Qle_bool_iff in Hle. exfalso. eapply Qlt_not_le; eauto.
Qed.

Lemma select_best_else (rf gb : Model) (m_rf m_gb : Metrics) :
  float_gt (R2 m_rf) (R2 m_gb) = false ->
  select_best rf gb m_rf m_gb = (gb, "Gradient Boosting"%string, m_gb).
Proof. unfold select_best. now intros ->. Qed.

Lemma select_best_then (rf gb : Model) (m_rf m_gb : Metrics) :
  float_gt (R2 m_rf) (R2 m_gb) = true ->
  select_best rf gb m_rf m_gb = (rf, "Random Forest"%string, m_rf).
Proof. unfold select_best. now intros ->. Qed.

Lemma float_gt_nan (a b : option Q) :
  a = None \/ b = None -> float_gt a b = false.
Proof. intros [->| ->]; [reflexivity | now destruct a]. Qed.

(** ** Columns: lengths and rows *)

Lemma nth_error_zip_with {A B C} (f : A -> B -> C) (a : list A) (b : list B)
    (j : nat) :
  nth_error (zip_with f a b) j =
  match nth_error a j, nth_error b j with
  | Some x, Some y => Some (f x y)
  | _, _ => None
  end.
Proof.
  unfold zip_with. revert b j.
  induction a as [|x a IH]; intros [|y b] [|j]; simpl; auto.
  now destruct (nth_error a j).
Qed.

Lemma firstn_zip_with {A B C} (f : A -> B -> C) (a : list A) (b : list B)
    (n : nat) :
  firstn n (zip_with f a b) = zip_with f (firstn n a) (firstn n b).
Proof.
  unfold zip_with. revert a b.
  induction n as [|n IH]; intros [|x a] [|y b]; simpl; auto.
  now rewrite IH.
Qed.

Lemma shift1_length {A} (s : list A) : length (shift1 s) = length s.
Proof.
  unfold shift1. rewrite length_firstn. simpl. rewrite length_map. lia.
Qed.

Lemma firstn_shift1 {A} (s : list A) (n : nat) :
  firstn n (shift1 s) = shift1 (firstn n s).
Proof.
  unfold shift1. rewrite firstn_firstn, length_firstn.
  destruct (Nat.min n (length s)) as [|m] eqn:Hm; [reflexivity|].
  simpl. f_equal. rewrite <- !firstn_map, firstn_firstn.
  f_equal. lia.
Qed.

Lemma rolling_mean_length (w : nat) (s : list Q) :
  length (rolling_mean w s) = length s.
Proof. unfold rolling_mean. now rewrite length_map, length_seq. Qed.

Lemma window_firstn {A} (w : nat) (s : list A) (n j : nat) :
  (j < n)%nat -> window w (firstn n s) j = window w s j.
Proof.
  intros Hj. unfold window. rewrite firstn_firstn.
  now replace (Nat.min (S j) n) with (S j) by lia.
Qed.

Lemma firstn_seq_min (n a m : nat) :
  firstn n (seq a m) = seq a (Nat.min n m).
Proof.
  revert a m. induction n as [|n IH]; intros a [|m]; simpl; auto.
  now rewrite IH.
Qed.

Lemma firstn_rolling_mean (w : nat) (s : list Q) (n : nat) :
  firstn n (rolling_mean w s) = rolling_mean w (firstn n s).
Proof.
  unfold rolling_mean. rewrite firstn_map, firstn_seq_min, length_firstn.
  apply map_ext_in. intros j Hj. apply in_seq in Hj.
  rewrite window_firstn by lia. reflexivity.
Qed.

Lemma fillna_length {A} (v : A) (s : list (option A)) :
  length (fillna v s) = length s.
Proof. apply length_map. Qed.

Lemma firstn_fillna {A} (v : A) (s : list (option A)) (n : nat) :
  firstn n (fillna v s) = fillna v (firstn n s).
Proof. apply firstn_map. Qed.

(** ** Truncating a product's series truncates its features *)

Lemma StronglySorted_app_lt (a b : list Z) :
  StronglySorted Z.lt (a ++ b) ->
  forall x y, In x a -> In y b -> x < y.
Proof.
  induction a as [|h a IH]; simpl; intros Hs x y Hx Hy; [contradiction|].
  inversion Hs as [|? ? Hs' Hall]; subst.
  destruct Hx as [<-|Hx].
  - rewrite Forall_forall in Hall. apply Hall, in_or_app. now right.
  - now apply IH.
Qed.

Lemma filter_none {A} (p : A -> bool) (l : list A) :
  (forall x, In x l -> p x = false) -> filter p l = [].
Proof.
  induction l as [|x l IH]; simpl; intros H; [reflexivity|].
  rewrite (H x) by now left. apply IH. intros; apply H; now right.
Qed.

Lemma filter_all {A} (p : A -> bool) (l : list A) :
  (forall x, In x l -> p x = true) -> filter p l = l.
Proof.
  induction l as [|x l IH]; simpl; intros H; [reflexivity|].
  rewrite (H x) by now left. f_equal. apply IH. intros; apply H; now right.
Qed.

Section Truncation.

Variable f : Frame DfRow.
Variable n : nat.

Lemma values_firstn : values (firstn n f) = firstn n (values f).
Proof. unfold values. now rewrite firstn_map. Qed.

Lemma index_firstn : index (firstn n f) = firstn n (index f).
Proof. unfold index. now rewrite firstn_map. Qed.

Lemma col_stock_firstn : col_stock (firstn n f) = firstn n (col_stock f).
Proof. unfold col_stock. now rewrite values_firstn, firstn_map. Qed.

Lemma col_price_firstn : col_price (firstn n f) = firstn n (col_price f).
Proof. unfold col_price. now rewrite values_firstn, firstn_map. Qed.

Lemma col_PREV_DAY_SALES_firstn :
  col_PREV_DAY_SALES (firstn n f) = firstn n (col_PREV_DAY_SALES f).
Proof.
  unfold col_PREV_DAY_SALES.
  now rewrite firstn_fillna, firstn_zip_with, firstn_shift1, col_stock_firstn.
Qed.

Lemma col_PREVIOUS_PRICE_firstn :
  col_PREVIOUS_PRICE (firstn n f) = firstn n (col_PREVIOUS_PRICE f).
Proof.
  unfold col_PREVIOUS_PRICE, fillna_with.
  now rewrite firstn_zip_with, firstn_shift1, col_price_firstn.
Qed.

Lemma col_PRICE_VARIATION_firstn :
  col_PRICE_VARIATION (firstn n f) = firstn n (col_PRICE_VARIATION f).
Proof.
  unfold col_PRICE_VARIATION.
  now rewrite firstn_zip_with, col_price_firstn, col_PREVIOUS_PRICE_firstn.
Qed.

Lemma col_MA_3D_firstn : col_MA_3D (firstn n f) = firstn n (col_MA_3D f).
Proof.
  unfold col_MA_3D. now rewrite firstn_rolling_mean, col_stock_firstn.
Qed.

Lemma col_MA_7D_firstn : col_MA_7D (firstn n f) = firstn n (col_MA_7D f).
Proof.
  unfold col_MA_7D. now rewrite firstn_rolling_mean, col_stock_firstn.
Qed.

Lemma col_TREND_3D_firstn :
  col_TREND_3D (firstn n f) = firstn n (col_TREND_3D f).
Proof.
  unfold col_TREND_3D.
  now rewrite firstn_zip_with, col_stock_firstn, col_MA_3D_firstn.
Qed.

Lemma col_LOW_STOCK_firstn :
  col_LOW_STOCK (firstn n f) = firstn n (col_LOW_STOCK f).
Proof. unfold col_LOW_STOCK. now rewrite values_firstn, firstn_map. Qed.

Lemma col_NEEDS_REPLENISH_firstn :
  col_NEEDS_REPLENISH (firstn n f) = firstn n (col_NEEDS_REPLENISH f).
Proof. unfold col_NEEDS_REPLENISH. now rewrite values_firstn, firstn_map. Qed.

Lemma restocks_upto_firstn (idx : Z) :
  labels_increasing f ->
  In idx (index (firstn n f)) ->
  filter (fun r => r <=? idx) (restocks (firstn n f))
  = filter (fun r => r <=? idx) (restocks f).
Proof.
  intros Hs Hin.
  rewrite <- (firstn_skipn n f) at 2.
  unfold restocks, index. rewrite filter_app, map_app, filter_app.
  rewrite (filter_none _ (map fst (filter _ (skipn n f)))).
  - now rewrite app_nil_r.
  - intros y Hy. apply Z.leb_gt.
    unfold labels_increasing in Hs.
    rewrite <- (firstn_skipn n f) in Hs. unfold index in Hs.
    rewrite map_app in Hs.
    apply (StronglySorted_app_lt _ _ Hs); [exact Hin|].
    apply in_map_iff in Hy. destruct Hy as [ir [<- Hir]].
    apply filter_In in Hir. apply in_map, Hir.
Qed.

Lemma col_DAYS_SINCE_RESTOCK_firstn :
  labels_increasing f ->
  col_DAYS_SINCE_RESTOCK (firstn n f) = firstn n (col_DAYS_SINCE_RESTOCK f).
Proof.
  intros Hs. unfold col_DAYS_SINCE_RESTOCK.
  rewrite firstn_map, <- index_firstn.
  apply map_ext_in. intros idx Hin. unfold days_since_restock.
  now rewrite restocks_upto_firstn.
Qed.

(** The features of the first [n] days of a series are the first [n]
    rows of the features of the whole series. *)
Lemma prod_features_firstn :
  labels_increasing f ->
  prod_features (firstn n f) = firstn n (prod_features f).
Proof.
  intros Hs. unfold prod_features, zap.
  rewrite !firstn_zip_with, firstn_map.
  now rewrite col_PREV_DAY_SALES_firstn, col_PREVIOUS_PRICE_firstn,
    col_PRICE_VARIATION_firstn, col_MA_3D_firstn, col_MA_7D_firstn,
    col_TREND_3D_firstn, col_LOW_STOCK_firstn, col_NEEDS_REPLENISH_firstn,
    col_DAYS_SINCE_RESTOCK_firstn.
Qed.

End Truncation.

(** ** The shape of a product's features *)

Section ProductShape.

Variable f : Frame DfRow.

Lemma values_length : length (values f) = length f.
Proof. apply length_map. Qed.

Lemma col_stock_length : length (col_stock f) = length f.
Proof. unfold col_stock. now rewrite length_map, values_length. Qed.

Lemma col_price_length : length (col_price f) = length f.
Proof. unfold col_price. now rewrite length_map, values_length. Qed.

Lemma col_PREV_DAY_SALES_length : length (col_PREV_DAY_SALES f) = length f.
Proof.
  unfold col_PREV_DAY_SALES.
  rewrite fillna_length, zip_with_length, shift1_length, col_stock_length.
  apply Nat.min_id.
Qed.

Lemma col_PREVIOUS_PRICE_length : length (col_PREVIOUS_PRICE f) = length f.
Proof.
  unfold col_PREVIOUS_PRICE, fillna_with.
  rewrite zip_with_length, shift1_length, col_price_length.
  apply Nat.min_id.
Qed.

Lemma col_PRICE_VARIATION_length : length (col_PRICE_VARIATION f) = length f.
Proof.
  unfold col_PRICE_VARIATION.
  rewrite zip_with_length, col_price_length, col_PREVIOUS_PRICE_length.
  apply Nat.min_id.
Qed.

Lemma col_MA_3D_length : length (col_MA_3D f) = length f.
Proof. unfold col_MA_3D. now rewrite rolling_mean_length, col_stock_length. Qed.

Lemma col_MA_7D_length : length (col_MA_7D f) = length f.
Proof. unfold col_MA_7D. now rewrite rolling_mean_length, col_stock_length. Qed.

Lemma col_TREND_3D_length : length (col_TREND_3D f) = length f.
Proof.
  unfold col_TREND_3D.
  rewrite zip_with_length, col_stock_length, col_MA_3D_length.
  apply Nat.min_id.
Qed.

Lemma col_LOW_STOCK_length : length (col_LOW_STOCK f) = length f.
Proof. unfold col_LOW_STOCK. now rewrite length_map, values_length. Qed.

Lemma col_NEEDS_REPLENISH_length : length (col_NEEDS_REPLENISH f) = length f.
Proof. unfold col_NEEDS_REPLENISH. now rewrite length_map, values_length. Qed.

Lemma col_DAYS_SINCE_RESTOCK_length :
  length (col_DAYS_SINCE_RESTOCK f) = length f.
Proof. unfold col_DAYS_SINCE_RESTOCK, index. now rewrite !length_map. Qed.

(** Row [j] of the features: the row of [prod_df] with cell [j] of every
    derived column. *)
Lemma prod_features_nth (j : nat) :
  nth_error (prod_features f) j =
  option_map
    (fun ir =>
       (fst ir,
        mkFeatureRow (snd ir)
          (nth j (col_PREV_DAY_SALES f) 0%Q)
          (nth j (col_PREVIOUS_PRICE f) 0%Q)
          (nth j (col_PRICE_VARIATION f) 0%Q)
          (nth j (col_MA_3D f) 0%Q)
          (nth j (col_MA_7D f) 0%Q)
          (nth j (col_TREND_3D f) 0%Q)
          (nth j (col_LOW_STOCK f) 0)
          (nth j (col_NEEDS_REPLENISH f) 0)
          (nth j (col_DAYS_SINCE_RESTOCK f) 0)))
    (nth_error f j).
Proof.
  unfold prod_features, zap.
  rewrite !nth_error_zip_with, nth_error_map.
  destruct (nth_error f j) as [ir|] eqn:Hj; [|reflexivity].
  assert (Hlt : (j < length f)%nat) by (apply nth_error_Some; congruence).
  simpl.
  rewrite (nth_error_nth' (col_PREV_DAY_SALES f) 0%Q)
    by now rewrite col_PREV_DAY_SALES_length.
  rewrite (nth_error_nth' (col_PREVIOUS_PRICE f) 0%Q)
    by now rewrite col_PREVIOUS_PRICE_length.
  rewrite (nth_error_nth' (col_PRICE_VARIATION f) 0%Q)
    by now rewrite col_PRICE_VARIATION_length.
  rewrite (nth_error_nth' (col_MA_3D f) 0%Q) by now rewrite col_MA_3D_length.
  rewrite (nth_error_nth' (col_MA_7D f) 0%Q) by now rewrite col_MA_7D_length.
  rewrite (nth_error_nth' (col_TREND_3D f) 0%Q)
    by now rewrite col_TREND_3D_length.
  rewrite (nth_error_nth' (col_LOW_STOCK f) 0)
    by now rewrite col_LOW_STOCK_length.
  rewrite (nth_error_nth' (col_NEEDS_REPLENISH f) 0)
    by now rewrite col_NEEDS_REPLENISH_length.
  rewrite (nth_error_nth' (col_DAYS_SINCE_RESTOCK f) 0)
    by now rewrite col_DAYS_SINCE_RESTOCK_length.
  reflexivity.
Qed.

Lemma prod_features_index : index (prod_features f) = index f.
Proof.
  apply nth_error_ext. intros j. unfold index.
  rewrite !nth_error_map, prod_features_nth.
  now destruct (nth_error f j).
Qed.

Lemma prod_features_rows : map row (values (prod_features f)) = values f.
Proof.
  apply nth_error_ext. intros j. unfold values.
  rewrite !nth_error_map, prod_features_nth.
  now destruct (nth_error f j).
Qed.

Lemma prod_features_length : length (prod_features f) = length f.
Proof.
  rewrite <- (length_map fst (prod_features f)).
  fold (index (prod_features f)). rewrite prod_features_index.
  apply length_map.
Qed.

End ProductShape.

(** ** Loading *)

Lemma range_index_length (n : nat) : length (range_index n) = n.
Proof. unfold range_index. now rewrite length_map, length_seq. Qed.

Lemma values_reset_index {A} (l : list A) : values (reset_index l) = l.
Proof.
  unfold values, reset_index.
  generalize (range_index_length (length l)).
  generalize (range_index (length l)) as ix.
  induction l as [|x l IH]; intros [|i ix] Hlen; simpl in *; try discriminate.
  - reflexivity.
  - f_equal. apply IH. congruence.
Qed.

Lemma index_reset_index {A} (l : list A) :
  index (reset_index l) = range_index (length l).
Proof.
  unfold index, reset_index.
  generalize (range_index_length (length l)).
  generalize (range_index (length l)) as ix.
  induction l as [|x l IH]; intros [|i ix] Hlen; simpl in *; try discriminate.
  - reflexivity.
  - f_equal. apply IH. congruence.
Qed.

Lemma values_load (csv : list Observation) :
  values (load csv) = map add_calendar (sort_values csv).
Proof.
  unfold load, values. rewrite map_map. simpl.
  rewrite <- (map_map snd add_calendar).
  fold (values (reset_index (sort_values csv))).
  now rewrite values_reset_index.
Qed.


(** ** Sorting by product then date *)

Lemma key_le_spec (a b : Observation) :
  key_le a b <->
  ID_PRODUTO a < ID_PRODUTO b
  \/ (ID_PRODUTO a = ID_PRODUTO b /\ DATA_EVENTO a <= DATA_EVENTO b).
Proof.
  unfold key_le, key_leb.
  rewrite orb_true_iff, andb_true_iff, Z.ltb_lt, Z.eqb_eq, Z.leb_le.
  reflexivity.
Qed.

Lemma key_le_trans (a b c : Observation) :
  key_le a b -> key_le b c -> key_le a c.
Proof. rewrite !key_le_spec. lia. Qed.

Lemma key_le_total (a b : Observation) :
  key_leb a b = false -> key_le b a.
Proof.
  intros H. rewrite key_le_spec.
  destruct (key_leb a b) eqn:Hab; [discriminate|].
  unfold key_leb in Hab.
  rewrite orb_false_iff, andb_false_iff, Z.ltb_ge, Z.eqb_neq, Z.leb_gt in Hab.
  lia.
Qed.

Lemma insert_perm (x : Observation) (l : list Observation) :
  Permutation (x :: l) (insert x l).
Proof.
  induction l as [|y l IH]; simpl; [reflexivity|].
  destruct (key_leb x y); [reflexivity|].
  rewrite perm_swap. now constructor.
Qed.

Lemma sort_values_perm (l : list Observation) :
  Permutation l (sort_values l).
Proof.
  induction l as [|x l IH]; simpl; [reflexivity|].
  rewrite <- insert_perm. now constructor.
Qed.

Lemma sort_values_length (l : list Observation) :
  length (sort_values l) = length l.
Proof. symmetry. apply Permutation_length, sort_values_perm. Qed.

Lemma insert_sorted (x : Observation) (l : list Observation) :
  Sorted key_le l -> Sorted key_le (insert x l).
Proof.
  induction 1 as [|y l Hs IH Hhd]; simpl.
  - repeat constructor.
  - destruct (key_leb x y) eqn:Hxy.
    + repeat constructor; assumption.
    + constructor; [assumption|].
      destruct l as [|z l]; simpl in *.
      * constructor. now apply key_le_total.
      * destruct (key_leb x z); constructor.
        -- now apply key_le_total.
        -- now inversion Hhd.
Qed.

Lemma sort_values_sorted (l : list Observation) :
  StronglySorted key_le (sort_values l).
Proof.
  apply Sorted_StronglySorted.
  - intros a b c. apply key_le_trans.
  - induction l as [|x l IH]; simpl; [constructor|].
    now apply insert_sorted.
Qed.

Lemma index_load (csv : list Observation) :
  index (load csv) = range_index (length csv).
Proof.
  unfold load, index. rewrite map_map. simpl.
  change (map (fun x => fst x) (reset_index (sort_values csv)))
    with (index (reset_index (sort_values csv))).
  now rewrite index_reset_index, sort_values_length.
Qed.

Lemma range_index_increasing (n : nat) : StronglySorted Z.lt (range_index n).
Proof.
  unfold range_index. generalize 0%nat as a.
  induction n as [|n IH]; intros a; simpl; constructor.
  - apply IH.
  - apply Forall_forall. intros x Hx. apply in_map_iff in Hx.
    destruct Hx as [k [<- Hk]]. apply in_seq in Hk. lia.
Qed.

Lemma range_index_nth (n i : nat) :
  (i < n)%nat -> nth_error (range_index n) i = Some (Z.of_nat i).
Proof.
  intros Hi. unfold range_index.
  rewrite nth_error_map, (nth_error_nth' _ 0%nat) by now rewrite length_seq.
  now rewrite seq_nth.
Qed.

(** ** The feature loop *)

Lemma unique_In (k : Z) (l : list Z) : In k (unique l) -> In k l.
Proof.
  induction l as [|a l IH]; simpl; [auto|].
  intros [->|H]; [now left|]. right. apply IH.
  apply filter_In in H. tauto.
Qed.

Lemma In_unique (k : Z) (l : list Z) : In k l -> In k (unique l).
Proof.
  induction l as [|a l IH]; simpl; [auto|].
  intros [->|H]; [now left|].
  destruct (Z.eq_dec k a) as [->|Hne]; [now left|].
  right. apply filter_In. split; [now apply IH|].
  apply negb_true_iff, Z.eqb_neq, Hne.
Qed.

Lemma filter_idem {A} (p : A -> bool) (l : list A) :
  filter p (filter p l) = filter p l.
Proof.
  apply filter_all. intros x Hx. apply filter_In in Hx. tauto.
Qed.

Section Grouping.

Context {A : Type}.
Variable key : A -> Z.

(** In a table sorted by [key] the groups, taken in order of first
    appearance of their key, are the consecutive blocks of the table. *)
Lemma concat_groups (l : list A) :
  StronglySorted Z.le (map key l) ->
  concat (map (fun k => group key k l) (unique (map key l))) = l.
Proof.
  induction l as [|x l IH]; intros Hs; [reflexivity|].
  simpl in Hs. inversion Hs as [|? ? Hs' Hall]; subst.
  specialize (IH Hs').
  cbn [map unique concat]. unfold group at 1. cbn [filter].
  rewrite Z.eqb_refl. cbn [app]. f_equal.
  fold (group key (key x) l).
  rewrite (map_ext_in _ (fun k => group key k l)).
  2:{ intros k Hk. apply filter_In in Hk. destruct Hk as [_ Hk].
      unfold group. cbn [filter].
      apply negb_true_iff in Hk. rewrite Z.eqb_sym in Hk.
      now rewrite Hk. }
  destruct l as [|y l']; [reflexivity|].
  destruct (Z.eq_dec (key y) (key x)) as [Heq|Hne].
  - rewrite <- IH at 3. cbn [map unique concat].
    rewrite Heq. cbn [filter]. rewrite Z.eqb_refl. cbn [negb].
    now rewrite filter_idem.
  - assert (Hgt : forall z, In z (map key (y :: l')) -> z <> key x).
    { intros z Hz. simpl in Hs'. inversion Hs' as [|? ? _ Hall']; subst.
      rewrite Forall_forall in Hall, Hall'.
      assert (key x <= key y) by (apply Hall; now left).
      destruct Hz as [<-|Hz]; [assumption|].
      specialize (Hall' z Hz). lia. }
    rewrite filter_all.
    2:{ intros k Hk. apply unique_In in Hk.
        apply negb_true_iff, Z.eqb_neq. now apply Hgt. }
    unfold group at 1. rewrite filter_none.
    2:{ intros z Hz. apply Z.eqb_neq, Hgt. now apply in_map. }
    exact IH.
Qed.

End Grouping.

Lemma last_nonempty_default {A} (x : A) (l : list A) (d d' : A) :
  last (x :: l) d = last (x :: l) d'.
Proof.
  revert x. induction l as [|y l IH]; intros x; [reflexivity|].
  change (last (y :: l) d = last (y :: l) d'). apply IH.
Qed.

Lemma loop_body_fold (df : Frame DfRow) (ids : list Z) (st : loop_state) :
  fold_left (loop_body df) ids st =
  (fst st ++ map (fun k => prod_features (select_product sku k df)) ids,
   last (map Some ids) (snd st)).
Proof.
  revert st. induction ids as [|k ids IH]; intros st.
  - simpl. rewrite app_nil_r. now destruct st.
  - cbn [fold_left]. rewrite IH. unfold loop_body. cbn [fst snd].
    rewrite <- app_assoc. f_equal.
    cbn [map]. destruct (map Some ids) as [|o l]; [reflexivity|].
    change (last (Some k :: o :: l) (snd st)) with (last (o :: l) (snd st)).
    apply last_nonempty_default.
Qed.

Lemma feature_loop_frames (df : Frame DfRow) :
  fst (feature_loop df) =
  map (fun k => prod_features (select_product sku k df))
      (unique (map sku (values df))).
Proof. unfold feature_loop. now rewrite loop_body_fold. Qed.

Lemma feature_loop_product_id (df : Frame DfRow) :
  snd (feature_loop df) = last (map Some (unique (map sku (values df)))) None.
Proof. unfold feature_loop. now rewrite loop_body_fold. Qed.

(** ** Frames, position by position *)

Lemma Forall2_map_eq {A B C} (R : A -> B -> Prop) (f : A -> C) (g : B -> C)
    (l : list A) (l' : list B) :
  (forall a b, R a b -> f a = g b) -> Forall2 R l l' -> map f l = map g l'.
Proof.
  intros H. induction 1 as [|a b l l' Hab _ IH]; simpl.
  - reflexivity.
  - now rewrite (H a b Hab), IH.
Qed.

Lemma nth_error_frame {A} (f : Frame A) (j : nat) (a : Z) (v : A) :
  nth_error f j = Some (a, v) ->
  nth_error (index f) j = Some a /\ nth_error (values f) j = Some v.
Proof.
  intros H. unfold index, values. rewrite !nth_error_map, H. auto.
Qed.

(** ** The assembled feature table *)

Lemma pd_concat_inv {A} (frames : list (Frame A)) (F : Frame A) :
  pd_concat frames = Ok F ->
  frames <> [] /\ F = reset_index (concat (map values frames)).
Proof.
  unfold pd_concat. destruct frames; [discriminate|].
  intros H. inversion H. split; [discriminate | reflexivity].
Qed.

Lemma sku_column_sorted (csv : list Observation) :
  StronglySorted Z.le (map (fun ir => sku (snd ir)) (load csv)).
Proof.
  rewrite <- (map_map snd sku). fold (values (load csv)).
  rewrite values_load, map_map.
  pose proof (sort_values_sorted csv) as Hs.
  induction Hs as [|x l Hs IH Hall]; simpl; constructor; [assumption|].
  rewrite Forall_forall in *. intros z Hz.
  apply in_map_iff in Hz. destruct Hz as [y [<- Hy]].
  specialize (Hall y Hy). apply key_le_spec in Hall.
  unfold sku. simpl. lia.
Qed.

Lemma concat_frames (csv : list Observation) :
  let frames := fst (feature_loop (load csv)) in
  index (concat frames) = range_index (length csv)
  /\ map row (values (concat frames)) = values (load csv).
Proof.
  cbv zeta. rewrite feature_loop_frames.
  pose proof (concat_groups (fun ir => sku (snd ir)) (load csv)
                (sku_column_sorted csv)) as Hg.
  rewrite <- (map_map snd sku) in Hg. fold (values (load csv)) in Hg.
  set (ids := unique (map sku (values (load csv)))) in *.
  split.
  - rewrite <- index_load.
    etransitivity; [|exact (f_equal (@index DfRow) Hg)].
    unfold index. rewrite !concat_map, !map_map.
    f_equal. apply map_ext. intros k. apply prod_features_index.
  - etransitivity; [|exact (f_equal (@values DfRow) Hg)].
    unfold values. rewrite (map_map snd row), !concat_map, !map_map.
    f_equal. apply map_ext. intros k.
    rewrite <- (map_map snd row). apply prod_features_rows.
Qed.

Lemma feature_engineering_inv (csv : list Observation) (F : Frame FeatureRow) :
  feature_engineering csv = Ok F ->
  values F = values (concat (fst (feature_loop (load csv))))
  /\ index F = range_index (length csv)
  /\ map row (values F) = map add_calendar (sort_values csv).
Proof.
  unfold feature_engineering. intros H.
  apply pd_concat_inv in H. destruct H as [_ ->].
  rewrite values_reset_index, index_reset_index.
  destruct (concat_frames csv) as [Hix Hrows].
  set (frames := fst (feature_loop (load csv))) in *.
  assert (Hv : concat (map values frames) = values (concat frames)).
  { unfold values. now rewrite concat_map. }
  rewrite Hv. split; [reflexivity|]. split.
  - f_equal. unfold values. rewrite length_map.
    rewrite <- (length_map fst). change (map fst (concat frames)) with (index (concat frames)).
    now rewrite Hix, range_index_length.
  - now rewrite Hrows, values_load.
Qed.

(** ** Locating a product's last row *)

Lemma values_select_product {A} (id_of : A -> Z) (k : Z) (F : Frame A) :
  values (select_product id_of k F) = filter (fun r => id_of r =? k) (values F).
Proof.
  unfold values, select_product.
  induction F as [|[i r] F IH]; simpl; [reflexivity|].
  destruct (id_of r =? k); simpl; now rewrite IH.
Qed.

Lemma iloc_last_inv {A} (F : Frame A) (x : A) :
  iloc_last F = Ok x -> exists l, values F = l ++ [x].
Proof.
  unfold iloc_last. destruct (rev F) as [|[i y] l] eqn:Hrev; [discriminate|].
  intros H. inversion H; subst.
  exists (map snd (rev l)).
  rewrite <- (rev_involutive F), Hrev. unfold values. simpl.
  now rewrite map_app.
Qed.

Lemma iloc_last_absent {A} (F : Frame A) :
  F = [] -> iloc_last F = Raise "IndexError".
Proof. now intros ->. Qed.

Lemma iloc_last_present {A} (F : Frame A) :
  F <> [] -> exists x, iloc_last F = Ok x.
Proof.
  intros Hne. unfold iloc_last.
  destruct (rev F) as [|[i y] l] eqn:Hrev.
  - exfalso. apply Hne. rewrite <- (rev_involutive F), Hrev. reflexivity.
  - now exists y.
Qed.

Lemma Forall2_In_l {A B} (R : A -> B -> Prop) (l : list A) (l' : list B) :
  Forall2 R l l' -> Forall2 (fun a b => In a l /\ R a b) l l'.
Proof.
  induction 1 as [|a b l l' Hab _ IH]; constructor.
  - split; [now left | exact Hab].
  - eapply Forall2_impl; [|exact IH]. simpl. intros x y [Hx Hxy].
    split; [now right | exact Hxy].
Qed.

Lemma forecast_steps_range (g : Globals) (p days : Z) (steps : list Step) :
  forecast_steps g p days = Ok steps ->
  exists last_row,
    iloc_last (select_product sku_of p (df_features g)) = Ok last_row
    /\ Forall2 (fun d s => 1 <= d <= days /\ forecast_step g last_row d = Ok s)
               (py_range 1 (days + 1)) steps.
Proof.
  intros H. destruct (forecast_steps_inv _ _ _ _ H) as (last_row & Hl & Hall).
  exists last_row. split; [exact Hl|].
  eapply Forall2_impl; [|apply Forall2_In_l, Hall].
  simpl. intros d s [Hd Hs]. apply py_range_In in Hd. split; [lia | exact Hs].
Qed.

Lemma sku_column_load (csv : list Observation) :
  map sku (values (load csv)) = map ID_PRODUTO (sort_values csv).
Proof. rewrite values_load, map_map. reflexivity. Qed.

(** ** A forecast for a product of the table *)

Lemma for_each_total {A B} (body : A -> result B) (l : list A) :
  (forall a, In a l -> exists b, body a = Ok b) ->
  exists bs, for_each body l = Ok bs.
Proof.
  induction l as [|a l IH]; intros H; simpl.
  - now exists [].
  - destruct (H a) as [b Hb]; [now left|].
    destruct IH as [bs Hbs]; [intros; apply H; now right|].
    exists (b :: bs). now rewrite Hb, Hbs.
Qed.

Lemma last_some_nonempty {A} (l : list A) :
  l <> [] -> exists x, last (map Some l) None = Some x /\ In x l.
Proof.
  induction l as [|a l IH]; intros Hne; [contradiction|].
  destruct l as [|b l].
  - exists a. split; [reflexivity | now left].
  - destruct IH as [x [Hx Hin]]; [discriminate|].
    exists x. split; [exact Hx | now right].
Qed.

Lemma StronglySorted_map_inv {A B} (R : B -> B -> Prop) (f : A -> B)
    (l : list A) :
  StronglySorted R (map f l) ->
  StronglySorted (fun a b => R (f a) (f b)) l.
Proof.
  induction l as [|a l IH]; simpl; intros H; constructor;
    inversion H as [|? ? Hs Hall]; subst.
  - now apply IH.
  - rewrite Forall_forall in *. intros x Hx. apply Hall. now apply in_map.
Qed.

Lemma StronglySorted_filter {A} (R : A -> A -> Prop) (p : A -> bool)
    (l : list A) :
  StronglySorted R l -> StronglySorted R (filter p l).
Proof.
  induction 1 as [|a l Hs IH Hall]; simpl; [constructor|].
  destruct (p a); [|exact IH]. constructor; [exact IH|].
  rewrite Forall_forall in *. intros x Hx. apply Hall.
  apply filter_In in Hx. tauto.
Qed.

Lemma StronglySorted_last {A} (R : A -> A -> Prop) (l : list A) (x : A) :
  StronglySorted R (l ++ [x]) -> forall y, In y l -> R y x.
Proof.
  induction l as [|a l IH]; simpl; intros Hs y Hy; [contradiction|].
  inversion Hs as [|? ? Hs' Hall]; subst.
  destruct Hy as [<-|Hy].
  - rewrite Forall_forall in Hall. apply Hall, in_or_app. right. now left.
  - now apply IH.
Qed.

Lemma py_range_shift_increasing (base a b : Z) :
  StronglySorted Z.lt (map (fun d => base + d) (py_range a b)).
Proof.
  unfold py_range. rewrite map_map.
  generalize (Z.to_nat (b - a)) as n. generalize 0%nat as k.
  intros k n. revert k. induction n as [|n IH]; intros k; simpl; constructor.
  - apply IH.
  - apply Forall_forall. intros x Hx. apply in_map_iff in Hx.
    destruct Hx as [j [<- Hj]]. apply in_seq in Hj. lia.
Qed.

Lemma Forall2_In_r {A B} (R : A -> B -> Prop) (l : list A) (l' : list B)
    (b : B) :
  Forall2 R l l' -> In b l' -> exists a, In a l /\ R a b.
Proof.
  induction 1 as [|x y l l' Hxy _ IH]; simpl; [contradiction|].
  intros [<-|Hb].
  - exists x. split; [now left | exact Hxy].
  - destruct (IH Hb) as [a [Ha HR]]. exists a. split; [now right | exact HR].
Qed.

Section ForecastFacts.

Variable fit_rf fit_gb : list FV.t -> list Z -> Model.
Variable np_sqrt : Q -> Q.
Variable csv : list Observation.
Variable g : Globals.
Hypothesis Hrun : script fit_rf fit_gb np_sqrt csv = Ok g.

Lemma script_rows :
  map (fun r => obs (row r)) (values (df_features g)) = sort_values csv.
Proof.
  destruct (script_inv _ _ _ _ _ Hrun) as (Hfe & _).
  apply feature_engineering_inv in Hfe. destruct Hfe as (_ & _ & Hrows).
  rewrite <- (map_map row obs), Hrows, map_map. apply map_id.
Qed.

Lemma script_row_of (o : Observation) :
  In o csv ->
  exists r, In r (values (df_features g)) /\ obs (row r) = o.
Proof.
  intros Ho.
  apply (Permutation_in _ (sort_values_perm csv)) in Ho.
  rewrite <- script_rows in Ho. apply in_map_iff in Ho.
  destruct Ho as [r [Hr Hin]]. now exists r.
Qed.

Lemma script_row_from (r : FeatureRow) :
  In r (values (df_features g)) -> In (obs (row r)) csv.
Proof.
  intros Hr.
  apply (Permutation_in _ (Permutation_sym (sort_values_perm csv))).
  rewrite <- script_rows. now apply (in_map (fun r => obs (row r))).
Qed.

Lemma script_product_id (o : Observation) :
  In o csv -> exists pid, product_id g = Some pid.
Proof.
  intros Ho.
  destruct (script_inv _ _ _ _ _ Hrun) as (_ & Hpid & _).
  rewrite feature_loop_product_id, sku_column_load in Hpid.
  destruct (last_some_nonempty (unique (map ID_PRODUTO (sort_values csv))))
    as [x [Hx _]].
  - intros Hnil.
    apply (Permutation_in _ (sort_values_perm csv)) in Ho.
    apply (in_map ID_PRODUTO), In_unique in Ho.
    rewrite Hnil in Ho. contradiction.
  - exists x. congruence.
Qed.

(** The last row of a product is its latest observation. *)
Lemma script_last_row (p : Z) (last_row : FeatureRow) :
  iloc_last (select_product sku_of p (df_features g)) = Ok last_row ->
  In (obs (row last_row)) csv
  /\ sku_of last_row = p
  /\ forall o, In o csv -> ID_PRODUTO o = p ->
               DATA_EVENTO o <= date_of last_row.
Proof.
  intros Hlast. apply iloc_last_inv in Hlast. destruct Hlast as [l Hl].
  rewrite values_select_product in Hl.
  assert (Hin : In last_row (filter (fun r => sku_of r =? p)
                               (values (df_features g)))).
  { rewrite Hl. apply in_or_app. right. now left. }
  apply filter_In in Hin. destruct Hin as [Hin Hp]. apply Z.eqb_eq in Hp.
  split; [now apply script_row_from|]. split; [exact Hp|].
  intros o Ho Hop.
  destruct (script_row_of o Ho) as [r [Hr Hobs]].
  assert (Hr' : In r (l ++ [last_row])).
  { rewrite <- Hl. apply filter_In. split; [exact Hr|].
    apply Z.eqb_eq. unfold sku_of, sku. now rewrite Hobs. }
  apply in_app_or in Hr'. destruct Hr' as [Hr'|[<-|[]]].
  - pose proof (sort_values_sorted csv) as Hs.
    rewrite <- script_rows in Hs. apply StronglySorted_map_inv in Hs.
    apply (StronglySorted_filter _ (fun r => sku_of r =? p)) in Hs.
    rewrite Hl in Hs.
    pose proof (StronglySorted_last _ _ _ Hs r Hr') as Hle.
    apply key_le_spec in Hle. rewrite Hobs in Hle.
    unfold date_of. unfold sku_of, sku in Hp. lia.
  - unfold date_of. rewrite Hobs. lia.
Qed.

Lemma script_product_present (p : Z) (o : Observation) :
  In o csv -> ID_PRODUTO o = p ->
  exists last_row,
    iloc_last (select_product sku_of p (df_features g)) = Ok last_row.
Proof.
  intros Ho Hop. apply iloc_last_present.
  destruct (script_row_of o Ho) as [r [Hr Hobs]].
  intros Hnil.
  assert (Hin : In r (values (select_product sku_of p (df_features g)))).
  { rewrite values_select_product. apply filter_In. split; [exact Hr|].
    apply Z.eqb_eq. unfold sku_of, sku. now rewrite Hobs. }
  rewrite Hnil in Hin. contradiction.
Qed.

End ForecastFacts.

(** ** The labels of the loaded table *)

Lemma load_nth (csv : list Observation) (j : nat) (x : Z * DfRow) :
  nth_error (load csv) j = Some x ->
  exists o, nth_error (sort_values csv) j = Some o
            /\ x = (Z.of_nat j, add_calendar o).
Proof.
  intros Hx. destruct x as [a r].
  destruct (nth_error_frame _ _ _ _ Hx) as [Ha Hr].
  rewrite values_load, nth_error_map in Hr.
  destruct (nth_error (sort_values csv) j) as [o|] eqn:Ho; [|discriminate].
  inversion Hr; subst. exists o. split; [reflexivity|].
  rewrite index_load in Ha.
  assert (Hj : (j < length csv)%nat).
  { rewrite <- sort_values_length. apply nth_error_Some. congruence. }
  rewrite range_index_nth in Ha by exact Hj. now inversion Ha.
Qed.

Lemma load_labels_increasing (csv : list Observation) :
  labels_increasing (load csv).
Proof.
  unfold labels_increasing. rewrite index_load. apply range_index_increasing.
Qed.

Lemma select_product_labels_increasing {A} (id_of : A -> Z) (k : Z)
    (F : Frame A) :
  labels_increasing F -> labels_increasing (select_product id_of k F).
Proof.
  unfold labels_increasing, index, select_product.
  intros H. apply StronglySorted_map_inv in H.
  apply (StronglySorted_filter _ (fun ir => id_of (snd ir) =? k)) in H.
  induction H as [|a l Hs IH Hall]; simpl; constructor; [exact IH|].
  rewrite Forall_forall in *. intros x Hx. apply in_map_iff in Hx.
  destruct Hx as [y [<- Hy]]. now apply Hall.
Qed.

(** ** The sorted table, block by block *)

Lemma sort_values_ids_sorted (csv : list Observation) :
  StronglySorted Z.le (map ID_PRODUTO (sort_values csv)).
Proof.
  pose proof (sort_values_sorted csv) as Hs.
  induction Hs as [|x l Hs IH Hall]; simpl; constructor; [assumption|].
  rewrite Forall_forall in *. intros z Hz.
  apply in_map_iff in Hz. destruct Hz as [y [<- Hy]].
  specialize (Hall y Hy). apply key_le_spec in Hall. lia.
Qed.

Lemma insert_first (x : Observation) (m : list Observation) :
  (forall z, In z m -> key_le x z) -> insert x m = x :: m.
Proof.
  destruct m as [|z m]; intros H; [reflexivity|].
  simpl. now rewrite (H z) by now left.
Qed.

Lemma filter_insert (P : Observation -> bool) (x : Observation)
    (l : list Observation) :
  StronglySorted key_le l ->
  filter P (insert x l) = if P x then insert x (filter P l) else filter P l.
Proof.
  induction 1 as [|y l Hs IH Hall].
  - simpl. now destruct (P x).
  - cbn [insert]. destruct (key_leb x y) eqn:Hxy.
    + cbn [filter]. destruct (P x); [|reflexivity].
      rewrite insert_first; [reflexivity|].
      intros z Hz.
      assert (Hz' : In z (y :: l)).
      { destruct (P y); [|apply filter_In in Hz; right; tauto].
        destruct Hz as [<-|Hz]; [now left|].
        apply filter_In in Hz. right. tauto. }
      destruct Hz' as [<-|Hz']; [exact Hxy|].
      rewrite Forall_forall in Hall.
      apply (key_le_trans _ y); [exact Hxy | now apply Hall].
    + cbn [filter]. rewrite IH.
      destruct (P y), (P x); try reflexivity.
      cbn [insert]. now rewrite Hxy.
Qed.

(** Sorting is stable: it commutes with the selection of rows. *)
Lemma filter_sort_values (P : Observation -> bool) (l : list Observation) :
  filter P (sort_values l) = sort_values (filter P l).
Proof.
  induction l as [|x l IH]; [reflexivity|].
  cbn [sort_values fold_right filter].
  change (fold_right insert [] l) with (sort_values l).
  rewrite filter_insert by apply sort_values_sorted.
  rewrite IH. now destruct (P x).
Qed.

Lemma sorted_split (Q : Observation -> bool) (l : list Observation) :
  StronglySorted key_le l ->
  (forall x y, key_le x y -> Q y = true -> Q x = true) ->
  l = filter Q l ++ filter (fun x => negb (Q x)) l.
Proof.
  intros Hs Hdown. induction Hs as [|x l Hs IH Hall]; [reflexivity|].
  cbn [filter]. destruct (Q x) eqn:Hx; cbn [negb app].
  - now rewrite <- IH.
  - rewrite Forall_forall in Hall.
    rewrite (filter_none Q l).
    + rewrite filter_all; [reflexivity|].
      intros z Hz. destruct (Q z) eqn:Hqz; [|reflexivity].
      rewrite (Hdown x z (Hall z Hz) Hqz) in Hx. discriminate.
    + intros z Hz. destruct (Q z) eqn:Hqz; [|reflexivity].
      rewrite (Hdown x z (Hall z Hz) Hqz) in Hx. discriminate.
Qed.

Lemma filter_filter {A} (p q : A -> bool) (l : list A) :
  filter p (filter q l) = filter (fun x => p x && q x) l.
Proof.
  induction l as [|x l IH]; [reflexivity|].
  simpl. destruct (q x); simpl; rewrite ?andb_false_r, ?andb_true_r;
    [destruct (p x)|]; now rewrite IH.
Qed.

(** A sorted table is the block of the products before [s], then the
    observations of [s] up to [d], then the rest. *)
Lemma sorted_three_parts (s d : Z) (l : list Observation) :
  StronglySorted key_le l ->
  l = filter (before_product s) l
      ++ filter (upto_date s d) l
      ++ filter (fun o => negb (before_product s o || upto_date s d o)) l.
Proof.
  intros Hs.
  set (Qab := fun o => before_product s o || upto_date s d o).
  assert (Hab : forall x y, key_le x y -> Qab y = true -> Qab x = true).
  { intros x y Hxy. apply key_le_spec in Hxy.
    unfold Qab, before_product, upto_date.
    rewrite !orb_true_iff, !andb_true_iff, !Z.ltb_lt, !Z.eqb_eq, !Z.leb_le.
    lia. }
  assert (Ha : forall x y, key_le x y ->
                 before_product s y = true -> before_product s x = true).
  { intros x y Hxy. apply key_le_spec in Hxy.
    unfold before_product. rewrite !Z.ltb_lt. lia. }
  pose proof (sorted_split Qab l Hs Hab) as E.
  pose proof (sorted_split (before_product s) (filter Qab l)
                (StronglySorted_filter _ Qab l Hs) Ha) as E'.
  rewrite !filter_filter in E'.
  rewrite E at 1. rewrite E' at 1. rewrite <- app_assoc. f_equal; [|f_equal].
  - apply filter_ext. intros o. unfold Qab.
    destruct (before_product s o); reflexivity.
  - apply filter_ext. intros o. unfold Qab, before_product, upto_date.
    destruct (ID_PRODUTO o <? s) eqn:Hlt; [|reflexivity].
    apply Z.ltb_lt in Hlt.
    replace (ID_PRODUTO o =? s) with false
      by (symmetry; apply Z.eqb_neq; lia).
    reflexivity.
Qed.

(** ** The restock distance is a forward scan over the labels *)

Lemma StronglySorted_app_inv {A} (R : A -> A -> Prop) (a b : list A) :
  StronglySorted R (a ++ b) -> StronglySorted R a /\ StronglySorted R b.
Proof.
  induction a as [|x a IH]; simpl; intros H.
  - split; [constructor | exact H].
  - inversion H as [|? ? Hs Hall]; subst.
    destruct (IH Hs) as [Ha Hb]. split; [|exact Hb].
    constructor; [exact Ha|].
    rewrite Forall_forall in *. intros y Hy. apply Hall, in_or_app. now left.
Qed.

Lemma filter_labels_increasing {A} (p : Z * A -> bool) (F : Frame A) :
  labels_increasing F -> labels_increasing (filter p F).
Proof.
  unfold labels_increasing, index.
  intros H. apply StronglySorted_map_inv in H.
  apply (StronglySorted_filter _ p) in H.
  induction H as [|a l Hs IH Hall]; simpl; constructor; [exact IH|].
  rewrite Forall_forall in *. intros x Hx. apply in_map_iff in Hx.
  destruct Hx as [y [<- Hy]]. now apply Hall.
Qed.

Lemma index_max_snoc (l : list Z) (x : Z) :
  (forall y, In y l -> y < x) -> index_max (l ++ [x]) = x.
Proof.
  intros Hlt. unfold index_max.
  rewrite fold_right_app. simpl.
  assert (Hhd : hd 0 (l ++ [x]) <= x).
  { destruct l as [|y l]; simpl; [lia|].
    assert (y < x) by (apply Hlt; now left). lia. }
  rewrite Z.max_l by exact Hhd.
  induction l as [|y l IH]; simpl; [reflexivity|].
  rewrite IH.
  - assert (y < x) by (apply Hlt; now left). lia.
  - intros z Hz. apply Hlt. now right.
  - destruct l as [|z l]; simpl; [lia|].
    assert (z < x) by (apply Hlt; right; now left). lia.
Qed.

Lemma index_max_is_last (l : list Z) :
  StronglySorted Z.lt l -> l <> [] ->
  last (map Some l) None = Some (index_max l).
Proof.
  intros Hs Hne.
  destruct (exists_last Hne) as [l' [x ->]].
  rewrite map_app. simpl. rewrite last_last.
  rewrite index_max_snoc; [reflexivity|].
  intros y Hy. apply (StronglySorted_app_lt _ _ Hs); [exact Hy | now left].
Qed.

Lemma restocks_app (f1 f2 : Frame DfRow) :
  restocks (f1 ++ f2) = restocks f1 ++ restocks f2.
Proof. unfold restocks, index. now rewrite filter_app, map_app. Qed.

Lemma restocks_single (idx : Z) (r : DfRow) :
  restocks [(idx, r)] = if 95 <=? stock r then [idx] else [].
Proof. unfold restocks. simpl. now destruct (95 <=? stock r). Qed.

Lemma restocks_In (f : Frame DfRow) (x : Z) :
  In x (restocks f) -> In x (index f).
Proof.
  unfold restocks, index. intros H. apply in_map_iff in H.
  destruct H as [ir [<- Hir]]. apply filter_In in Hir. now apply in_map.
Qed.

Lemma restock_scan_from (pre rest : Frame DfRow) :
  labels_increasing (pre ++ rest) ->
  map (days_since_restock (pre ++ rest)) (index rest)
  = restock_scan (last (map Some (restocks pre)) None) rest.
Proof.
  revert pre. induction rest as [|[idx r] rest IH]; intros pre Hinc;
    [reflexivity|].
  assert (Hinc' : StronglySorted Z.lt (index pre ++ idx :: index rest)).
  { unfold labels_increasing, index in Hinc. now rewrite map_app in Hinc. }
  assert (Hpre : forall y, In y (restocks pre) -> y < idx).
  { intros y Hy. apply (StronglySorted_app_lt _ _ Hinc');
      [now apply restocks_In | now left]. }
  assert (Hrest : forall y, In y (restocks rest) -> idx < y).
  { intros y Hy. apply restocks_In in Hy.
    apply StronglySorted_app_inv in Hinc'. destruct Hinc' as [_ Hs].
    inversion Hs as [|? ? _ Hall]; subst.
    rewrite Forall_forall in Hall. now apply Hall. }
  assert (Hpre_inc : StronglySorted Z.lt (restocks pre)).
  { apply (filter_labels_increasing (fun ir => 95 <=? stock (snd ir)) pre).
    unfold labels_increasing.
    apply StronglySorted_app_inv in Hinc'. tauto. }
  cbn [index map fst restock_scan]. f_equal.
  - unfold days_since_restock.
    change ((idx, r) :: rest) with ([(idx, r)] ++ rest).
    rewrite !restocks_app, !filter_app.
    rewrite (filter_all _ (restocks pre))
      by (intros y Hy; apply Z.leb_le; specialize (Hpre y Hy); lia).
    rewrite (filter_none _ (restocks rest))
      by (intros y Hy; apply Z.leb_gt; now apply Hrest).
    rewrite app_nil_r, restocks_single.
    destruct (95 <=? stock r); cbn [filter].
    + rewrite Z.leb_refl, length_app. cbn [length].
      replace (0 <? length (restocks pre) + 1)%nat with true
        by (symmetry; apply Nat.ltb_lt; lia).
      now rewrite index_max_snoc.
    + rewrite app_nil_r.
      destruct (restocks pre) as [|y l] eqn:Hrp; [reflexivity|].
      rewrite index_max_is_last by (exact Hpre_inc || discriminate).
      reflexivity.
  - change (index rest) with (map fst rest).
    replace (pre ++ (idx, r) :: rest) with ((pre ++ [(idx, r)]) ++ rest)
      by now rewrite <- app_assoc.
    fold (index rest). rewrite IH by now rewrite <- app_assoc.
    f_equal. rewrite restocks_app, restocks_single.
    destruct (95 <=? stock r).
    + rewrite map_app. cbn [map]. now rewrite last_last.
    + now rewrite app_nil_r.
Qed.

(** The loop of lines 93-98 computes the forward scan of the
    specification, with the index labels of the sorted table as indices. *)
Lemma days_since_restock_forward_scan (prod_df : Frame DfRow) :
  labels_increasing prod_df ->
  col_DAYS_SINCE_RESTOCK prod_df = restock_scan None prod_df.
Proof.
  intros Hinc. apply (restock_scan_from [] prod_df Hinc).
Qed.

(** ** The calendar *)

Lemma check_steps (f : Z -> bool) (k : Z) (n : nat) :
  let st := Nat.iter n (check_step f) (k, true) in
  fst st = k + Z.of_nat n
  /\ (snd st = true -> forall j, k <= j < k + Z.of_nat n -> f j = true).
Proof.
  induction n as [|n [IHk IHf]]; cbv zeta.
  - cbn. split; [lia|]. intros _ j Hj. lia.
  - change (Nat.iter (S n) (check_step f) (k, true))
      with (check_step f (Nat.iter n (check_step f) (k, true))).
    set (st := Nat.iter n (check_step f) (k, true)) in *.
    unfold check_step. cbn [fst snd].
    split; [lia|]. intros Hok j Hj.
    apply andb_prop in Hok. destruct Hok as [Hprev Hlast].
    rewrite IHk in Hlast.
    destruct (Z.eq_dec j (k + Z.of_nat n)) as [->|Hne]; [exact Hlast|].
    apply IHf; [exact Hprev | lia].
Qed.

Lemma all_from_spec (n : positive) (k : Z) (f : Z -> bool) :
  all_from n k f = true ->
  forall j, k <= j < k + Z.pos n -> f j = true.
Proof.
  unfold all_from. rewrite Pos2Nat.inj_iter. intros H j Hj.
  destruct (check_steps f k (Pos.to_nat n)) as [_ Hall].
  apply Hall; [exact H|]. rewrite positive_nat_Z. exact Hj.
Qed.

(** The days from March to January, by running the check. *)
Lemma year_days_checked : all_from 337 0 year_day_ok = true.
Proof. vm_compute. reflexivity. Qed.

Lemma date_eqb_eq (t1 t2 : Z * Z * Z) : date_eqb t1 t2 = true -> t1 = t2.
Proof.
  destruct t1 as [[y1 m1] d1], t2 as [[y2 m2] d2]. cbn.
  rewrite !andb_true_iff, !Z.eqb_eq. intros [[-> ->] ->]. reflexivity.
Qed.

Lemma civil_of_year_day_shift (yoe doy : Z) :
  civil_of_year_day yoe doy = shift_year yoe (civil_of_year_day 0 doy).
Proof.
  unfold civil_of_year_day, shift_year. cbv zeta.
  match goal with |- context [if ?b then _ else _] => destruct b end;
    f_equal; f_equal; lia.
Qed.

Lemma next_day_shift_year (k y m d : Z) :
  m <> 2 ->
  next_day (shift_year k (y, m, d)) = shift_year k (next_day (y, m, d)).
Proof.
  intros Hm. unfold shift_year, next_day, days_in_month.
  destruct (m =? 2) eqn:E; [apply Z.eqb_eq in E; contradiction|].
  destruct (d <? _); [reflexivity|].
  destruct (m <? 12); f_equal; f_equal; lia.
Qed.

Lemma valid_date_shift_year (k y m d : Z) :
  m <> 2 -> valid_date (shift_year k (y, m, d)) = valid_date (y, m, d).
Proof.
  intros Hm. unfold shift_year, valid_date, days_in_month.
  destruct (m =? 2) eqn:E; [apply Z.eqb_eq in E; contradiction|].
  reflexivity.
Qed.

(** From March to January. *)
Lemma year_day_early (yoe doy : Z) :
  0 <= doy < 337 ->
  valid_date (civil_of_year_day yoe doy) = true
  /\ civil_of_year_day yoe (doy + 1) = next_day (civil_of_year_day yoe doy).
Proof.
  intros H.
  pose proof (all_from_spec _ _ _ year_days_checked doy ltac:(lia)) as Hok.
  unfold year_day_ok in Hok. cbv zeta in Hok.
  apply andb_prop in Hok. destruct Hok as [Hok Hnext].
  apply andb_prop in Hok. destruct Hok as [Hfeb Hvalid].
  apply date_eqb_eq in Hnext.
  rewrite (civil_of_year_day_shift yoe doy),
    (civil_of_year_day_shift yoe (doy + 1)), Hnext.
  destruct (civil_of_year_day 0 doy) as [[y m] d]. cbn [fst snd] in Hfeb.
  assert (Hm : m <> 2).
  { intros ->. discriminate. }
  split.
  - now rewrite valid_date_shift_year.
  - now rewrite next_day_shift_year.
Qed.

(** February. *)
Lemma year_day_february (yoe doy : Z) :
  337 <= doy <= 365 ->
  civil_of_year_day yoe doy = (yoe + 1, 2, doy - 336).
Proof.
  intros H. unfold civil_of_year_day. cbv zeta.
  assert (Hmp : (5 * doy + 2) / 153 = 11)
    by (Z.div_mod_to_equations; lia).
  rewrite Hmp. cbn. f_equal. lia.
Qed.

Lemma year_day_valid (yoe doy : Z) :
  0 <= doy < year_length yoe ->
  valid_date (civil_of_year_day yoe doy) = true.
Proof.
  intros H. destruct (Z.lt_ge_cases doy 337) as [Hlt|Hge].
  - apply year_day_early. lia.
  - unfold year_length in H.
    rewrite year_day_february by (destruct (is_leap (yoe + 1)); lia).
    unfold valid_date, days_in_month. cbn.
    destruct (is_leap (yoe + 1)); apply andb_true_iff; split;
      try (apply Z.leb_le; lia).
Qed.

Lemma year_day_succ (yoe doy : Z) :
  0 <= doy -> doy + 1 < year_length yoe ->
  civil_of_year_day yoe (doy + 1) = next_day (civil_of_year_day yoe doy).
Proof.
  intros H0 H. destruct (Z.lt_ge_cases doy 337) as [Hlt|Hge].
  - apply year_day_early. lia.
  - unfold year_length in H.
    rewrite !year_day_february by (destruct (is_leap (yoe + 1)); lia).
    unfold next_day.
    change (days_in_month (yoe + 1) 2)
      with (if is_leap (yoe + 1) then 29 else 28).
    replace (doy - 336 <? (if is_leap (yoe + 1) then 29 else 28)) with true
      by (symmetry; apply Z.ltb_lt; destruct (is_leap (yoe + 1)); lia).
    f_equal. lia.
Qed.

(** The last day of February is followed by the first of March. *)
Lemma year_end_succ (yoe : Z) :
  civil_of_year_day (yoe + 1) 0
  = next_day (civil_of_year_day yoe (year_length yoe - 1)).
Proof.
  unfold year_length.
  rewrite (year_day_february yoe)
    by (destruct (is_leap (yoe + 1)); lia).
  unfold next_day.
  change (days_in_month (yoe + 1) 2)
    with (if is_leap (yoe + 1) then 29 else 28).
  replace ((if is_leap (yoe + 1) then 366 else 365) - 1 - 336
           <? (if is_leap (yoe + 1) then 29 else 28)) with false
    by (symmetry; apply Z.ltb_ge; destruct (is_leap (yoe + 1)); lia).
  reflexivity.
Qed.

Lemma year_of_era_spec (doe : Z) :
  0 <= doe <= 146096 ->
  0 <= year_of_era doe <= 399
  /\ year_start (year_of_era doe) <= doe
  /\ (doe < 146096 -> doe < year_start (year_of_era doe + 1)).
Proof.
  intros H. unfold year_start, year_of_era. Z.div_mod_to_equations. lia.
Qed.

Lemma year_of_era_step (doe : Z) :
  0 <= doe < 146096 ->
  year_of_era (doe + 1) = year_of_era doe
  \/ (year_of_era (doe + 1) = year_of_era doe + 1
      /\ doe + 1 = year_start (year_of_era doe + 1)).
Proof.
  intros H. unfold year_start, year_of_era. Z.div_mod_to_equations. lia.
Qed.

(** The years of the era but the last: a year ends where the next begins. *)
Lemma year_start_succ (yoe : Z) :
  0 <= yoe < 399 -> year_start (yoe + 1) = year_start yoe + year_length yoe.
Proof.
  intros H. unfold year_start, year_length, is_leap.
  destruct ((yoe + 1) mod 4 =? 0) eqn:E4;
    destruct ((yoe + 1) mod 100 =? 0) eqn:E100;
    destruct ((yoe + 1) mod 400 =? 0) eqn:E400; cbn [andb orb negb];
    rewrite ?Z.eqb_eq, ?Z.eqb_neq in *;
    Z.div_mod_to_equations; lia.
Qed.

Lemma era_day (doe : Z) :
  0 <= doe < 146096 ->
  valid_date (civil_in_era doe) = true
  /\ civil_in_era (doe + 1) = next_day (civil_in_era doe).
Proof.
  intros H. unfold civil_in_era.
  destruct (year_of_era_spec doe ltac:(lia)) as (Hy & Hlo & Hhi).
  specialize (Hhi ltac:(lia)).
  destruct (year_of_era_spec (doe + 1) ltac:(lia)) as (Hy' & _ & Hhi').
  pose proof (year_of_era_step doe H) as Hstep.
  assert (Hlate : doe = 146095 -> year_of_era doe = 399)
    by (intros ->; reflexivity).
  remember (year_of_era doe) as y eqn:Ey.
  assert (Hlen : doe - year_start y < year_length y).
  { destruct (Z.eq_dec y 399) as [Hlast|Hne].
    - rewrite Hlast in *. change (year_start 399) with 145731 in *.
      change (year_length 399) with 366. lia.
    - rewrite year_start_succ in Hhi by lia. lia. }
  split; [apply year_day_valid; lia|].
  destruct Hstep as [Hsame|[Hnext Hstart]].
  - rewrite Hsame in *.
    replace (doe + 1 - year_start y) with (doe - year_start y + 1) by lia.
    apply year_day_succ; [lia|].
    destruct (Z.eq_dec y 399) as [Hlast|Hne].
    + rewrite Hlast in *. change (year_start 399) with 145731 in *.
      change (year_length 399) with 366. lia.
    + assert (Hnend : doe + 1 < 146096) by lia.
      specialize (Hhi' Hnend).
      rewrite year_start_succ in Hhi' by lia. lia.
  - rewrite Hnext, Hstart.
    replace (year_start (y + 1) - year_start (y + 1)) with 0 by lia.
    assert (Hne : y <> 399).
    { intros Hlast. rewrite Hnext in Hy'. lia. }
    replace (doe - year_start y) with (year_length y - 1)
      by (rewrite year_start_succ in Hstart by lia; lia).
    apply year_end_succ.
Qed.

Lemma era_position (z : Z) :
  0 <= z + 719468 - (z + 719468) / 146097 * 146097 <= 146096.
Proof. Z.div_mod_to_equations. lia. Qed.

Lemma era_step (z : Z) :
  let e := (z + 719468) / 146097 in
  let e' := (z + 1 + 719468) / 146097 in
  let doe := z + 719468 - e * 146097 in
  let doe' := z + 1 + 719468 - e' * 146097 in
  (e' = e /\ doe' = doe + 1 /\ doe < 146096)
  \/ (e' = e + 1 /\ doe = 146096 /\ doe' = 0).
Proof. cbv zeta. Z.div_mod_to_equations. lia. Qed.

Lemma civil_from_days_era (z : Z) :
  let era := (z + 719468) / 146097 in
  let doe := z + 719468 - era * 146097 in
  Calendar.civil_from_days z
  = (fst (fst (civil_in_era doe)) + era * 400,
     snd (fst (civil_in_era doe)), snd (civil_in_era doe)).
Proof.
  cbv zeta.
  unfold Calendar.civil_from_days, civil_in_era, civil_of_year_day,
    year_of_era, year_start.
  cbv zeta. cbn [fst snd].
  repeat match goal with
         | |- context [if ?b then _ else _] => destruct b
         end;
    f_equal; f_equal; lia.
Qed.

Lemma is_leap_era (y e : Z) : is_leap (y + e * 400) = is_leap y.
Proof.
  unfold is_leap.
  replace ((y + e * 400) mod 4) with (y mod 4)
    by (Z.div_mod_to_equations; lia).
  replace ((y + e * 400) mod 100) with (y mod 100)
    by (Z.div_mod_to_equations; lia).
  replace ((y + e * 400) mod 400) with (y mod 400)
    by (Z.div_mod_to_equations; lia).
  reflexivity.
Qed.

Lemma days_in_month_era (y e m : Z) :
  days_in_month (y + e * 400) m = days_in_month y m.
Proof. unfold days_in_month. now rewrite is_leap_era. Qed.

Lemma next_day_era (y m d e : Z) :
  next_day (y + e * 400, m, d)
  = (fst (fst (next_day (y, m, d))) + e * 400,
     snd (fst (next_day (y, m, d))), snd (next_day (y, m, d))).
Proof.
  unfold next_day. rewrite days_in_month_era.
  destruct (d <? days_in_month y m); [reflexivity|].
  destruct (m <? 12); cbn [fst snd]; f_equal; f_equal; lia.
Qed.

(** The date of the next day count is the next date of the calendar. *)
Lemma civil_from_days_succ (z : Z) :
  Calendar.civil_from_days (z + 1) = next_day (Calendar.civil_from_days z).
Proof.
  rewrite (civil_from_days_era (z + 1)), (civil_from_days_era z). cbv zeta.
  pose proof (era_position z) as Hpos.
  pose proof (era_step z) as Hstep. cbv zeta in Hstep.
  set (e := (z + 719468) / 146097) in *.
  set (e' := (z + 1 + 719468) / 146097) in *.
  set (doe := z + 719468 - e * 146097) in *.
  set (doe' := z + 1 + 719468 - e' * 146097) in *.
  destruct Hstep as [(He & Hd & Hlt)|(He & Hd & Hd')].
  - rewrite He, Hd.
    destruct (era_day doe ltac:(lia)) as [_ Hnext]. rewrite Hnext.
    destruct (civil_in_era doe) as [[y m] d]. cbn [fst snd].
    now rewrite next_day_era.
  - rewrite He, Hd, Hd'.
    change (civil_in_era 0) with (0, 3, 1).
    change (civil_in_era 146096) with (400, 2, 29).
    cbn [fst snd]. rewrite next_day_era.
    change (next_day (400, 2, 29)) with (400, 3, 1). cbn [fst snd].
    f_equal. f_equal. lia.
Qed.

Lemma valid_date_era (y m d e : Z) :
  valid_date (y + e * 400, m, d) = valid_date (y, m, d).
Proof. unfold valid_date. now rewrite days_in_month_era. Qed.

Lemma civil_from_days_valid (z : Z) :
  valid_date (Calendar.civil_from_days z) = true.
Proof.
  rewrite civil_from_days_era. cbv zeta.
  pose proof (era_position z) as Hpos.
  set (era := (z + 719468) / 146097) in *.
  set (doe := z + 719468 - era * 146097) in *.
  assert (Hv : valid_date (civil_in_era doe) = true).
  { destruct (Z.eq_dec doe 146096) as [->|Hne]; [reflexivity|].
    apply era_day. lia. }
  destruct (civil_in_era doe) as [[y m] d]. cbn [fst snd].
  now rewrite valid_date_era.
Qed.

Lemma next_day_later (t : Z * Z * Z) : date_lt t (next_day t).
Proof.
  destruct t as [[y m] d]. unfold next_day, date_lt.
  destruct (d <? days_in_month y m); [lia|].
  destruct (m <? 12) eqn:Hm; [|lia]. apply Z.ltb_lt in Hm. lia.
Qed.

Lemma date_lt_trans (a b c : Z * Z * Z) :
  date_lt a b -> date_lt b c -> date_lt a c.
Proof.
  destruct a as [[y1 m1] d1], b as [[y2 m2] d2], c as [[y3 m3] d3].
  unfold date_lt. lia.
Qed.

(** Day counts and dates are in the same order. *)
Lemma civil_from_days_increasing (z1 z2 : Z) :
  z1 < z2 ->
  date_lt (Calendar.civil_from_days z1) (Calendar.civil_from_days z2).
Proof.
  intros H. replace z2 with (z1 + 1 + Z.of_nat (Z.to_nat (z2 - z1 - 1)))
    by lia.
  induction (Z.to_nat (z2 - z1 - 1)) as [|n IH].
  - rewrite Z.add_0_r, civil_from_days_succ. apply next_day_later.
  - eapply date_lt_trans; [exact IH|].
    replace (z1 + 1 + Z.of_nat (S n)) with (z1 + 1 + Z.of_nat n + 1) by lia.
    rewrite civil_from_days_succ. apply next_day_later.
Qed.

Lemma supported_year (z : Z) :
  first_day <= z <= last_day -> 1000 <= Calendar.year z <= 9999.
Proof.
  intros [Hlo Hhi]. unfold Calendar.year.
  assert (Hfirst : Calendar.civil_from_days first_day = (1000, 1, 1))
    by reflexivity.
  assert (Hlast : Calendar.civil_from_days last_day = (9999, 12, 31))
    by reflexivity.
  split.
  - destruct (Z.eq_dec first_day z) as [<-|Hne];
      [rewrite Hfirst; cbn; lia|].
    pose proof (civil_from_days_increasing first_day z ltac:(lia)) as Hlt.
    rewrite Hfirst in Hlt.
    destruct (Calendar.civil_from_days z) as [[y m] d].
    cbn in *. lia.
  - destruct (Z.eq_dec z last_day) as [->|Hne];
      [rewrite Hlast; cbn; lia|].
    pose proof (civil_from_days_increasing z last_day ltac:(lia)) as Hlt.
    rewrite Hlast in Hlt.
    destruct (Calendar.civil_from_days z) as [[y m] d].
    cbn in *. lia.
Qed.

Lemma days_after_run (n : nat) (a : Z) :
  map Calendar.civil_from_days
      (map (fun i => a + 1 + Z.of_nat i) (seq 0 n))
  = days_after (Calendar.civil_from_days a) n.
Proof.
  revert a. induction n as [|n IH]; intros a; [reflexivity|].
  cbn [seq map days_after]. rewrite Z.add_0_r, civil_from_days_succ.
  f_equal. rewrite <- civil_from_days_succ, <- IH, <- seq_shift, !map_map.
  apply map_ext. intros i. f_equal. lia.
Qed.

(** ** The text of a date *)

Lemma digit_mod (n : Z) : Calendar.digit n = Calendar.digit (n mod 10).
Proof. unfold Calendar.digit. now rewrite Z.mod_mod. Qed.

Lemma digit_enum (n : Z) :
  0 <= n <= 9 -> In n [0; 1; 2; 3; 4; 5; 6; 7; 8; 9].
Proof. cbn [In]. lia. Qed.

Ltac each_digit H :=
  cbn [In] in H;
  repeat (destruct H as [<-|H]); [..|contradiction].

Lemma digit_value_digit (n : Z) :
  0 <= n <= 9 -> digit_value (Calendar.digit n) = Some n.
Proof.
  intros H. apply digit_enum in H. each_digit H; reflexivity.
Qed.

Lemma digit_compare (a b : Z) :
  0 <= a <= 9 -> 0 <= b <= 9 ->
  Ascii.compare (Calendar.digit a) (Calendar.digit b) = (a ?= b).
Proof.
  intros Ha Hb. apply digit_enum in Ha. apply digit_enum in Hb.
  each_digit Ha; each_digit Hb; reflexivity.
Qed.

(** The decimal digits of a number of at most four digits. *)
Lemma four_digits (n : Z) :
  0 <= n <= 9999 ->
  let a := (n / 1000) mod 10 in
  let b := (n / 100) mod 10 in
  let c := (n / 10) mod 10 in
  let d := n mod 10 in
  n = 1000 * a + 100 * b + 10 * c + d
  /\ 0 <= a <= 9 /\ 0 <= b <= 9 /\ 0 <= c <= 9 /\ 0 <= d <= 9.
Proof. intros H. cbv zeta. Z.div_mod_to_equations. lia. Qed.

Lemma two_digits (n : Z) :
  0 <= n <= 99 ->
  let c := (n / 10) mod 10 in
  let d := n mod 10 in
  n = 10 * c + d /\ 0 <= c <= 9 /\ 0 <= d <= 9.
Proof. intros H. cbv zeta. Z.div_mod_to_equations. lia. Qed.

(** The ten characters of [strftime]. *)
Lemma strftime_characters (z : Z) :
  let y := Calendar.year z in
  let m := Calendar.month z in
  let d := Calendar.day z in
  list_ascii_of_string (Calendar.strftime z)
  = [ Calendar.digit ((y / 1000) mod 10); Calendar.digit ((y / 100) mod 10);
      Calendar.digit ((y / 10) mod 10); Calendar.digit (y mod 10);
      "-"%char;
      Calendar.digit ((m / 10) mod 10); Calendar.digit (m mod 10);
      "-"%char;
      Calendar.digit ((d / 10) mod 10); Calendar.digit (d mod 10) ].
Proof.
  cbv zeta. unfold Calendar.strftime, Calendar.pad4, Calendar.pad2.
  cbn [append list_ascii_of_string].
  now rewrite <- !digit_mod.
Qed.

Lemma civil_fields (z : Z) :
  Calendar.civil_from_days z
  = (Calendar.year z, Calendar.month z, Calendar.day z).
Proof.
  unfold Calendar.year, Calendar.month, Calendar.day.
  now destruct (Calendar.civil_from_days z) as [[y m] d].
Qed.

Lemma valid_date_ranges (y m d : Z) :
  valid_date (y, m, d) = true -> 1 <= m <= 12 /\ 1 <= d <= 31.
Proof.
  unfold valid_date, days_in_month.
  rewrite !andb_true_iff, !Z.leb_le. intros [[[Hm1 Hm2] Hd1] Hd2].
  destruct (m =? 2); [destruct (is_leap y)|];
    try destruct (_ || _); lia.
Qed.

(** Reading the text of a date gives the date back. *)
Lemma strptime_strftime (z : Z) :
  0 <= Calendar.year z <= 9999 ->
  strptime (Calendar.strftime z) = Some (Calendar.civil_from_days z).
Proof.
  intros Hy. unfold strptime. rewrite strftime_characters. cbv zeta.
  pose proof (civil_from_days_valid z) as Hvalid.
  rewrite (civil_fields z) in *.
  destruct (valid_date_ranges _ _ _ Hvalid) as [Hm Hd].
  destruct (four_digits _ Hy) as (Ey & Hy3 & Hy2 & Hy1 & Hy0).
  destruct (two_digits (Calendar.month z) ltac:(lia)) as (Em & Hm1 & Hm0).
  destruct (two_digits (Calendar.day z) ltac:(lia)) as (Ed & Hd1 & Hd0).
  cbv zeta in Ey, Em, Ed. cbn [Ascii.eqb Bool.eqb andb number].
  rewrite !digit_value_digit by assumption.
  replace (10 * (10 * (10 * (10 * 0 + (Calendar.year z / 1000) mod 10)
                       + (Calendar.year z / 100) mod 10)
                 + (Calendar.year z / 10) mod 10)
           + Calendar.year z mod 10) with (Calendar.year z) by lia.
  replace (10 * (10 * 0 + (Calendar.month z / 10) mod 10)
           + Calendar.month z mod 10) with (Calendar.month z) by lia.
  replace (10 * (10 * 0 + (Calendar.day z / 10) mod 10)
           + Calendar.day z mod 10) with (Calendar.day z) by lia.
  now rewrite Hvalid.
Qed.

Lemma compare_digits (a b : Z) (s1 s2 : string) :
  0 <= a <= 9 -> 0 <= b <= 9 ->
  String.compare (String (Calendar.digit a) s1) (String (Calendar.digit b) s2)
  = match a ?= b with
    | Eq => String.compare s1 s2
    | Lt => Lt
    | Gt => Gt
    end.
Proof.
  intros Ha Hb. cbn [String.compare]. rewrite digit_compare by assumption.
  now destruct (a ?= b).
Qed.

Lemma compare_dash (s1 s2 : string) :
  String.compare (String "-" s1) (String "-" s2) = String.compare s1 s2.
Proof. reflexivity. Qed.

(** The texts of two dates are in the order of the dates. *)
Lemma strftime_increasing (z1 z2 : Z) :
  0 <= Calendar.year z1 <= 9999 ->
  0 <= Calendar.year z2 <= 9999 ->
  z1 < z2 ->
  string_lt (Calendar.strftime z1) (Calendar.strftime z2).
Proof.
  intros Hy1 Hy2 Hlt. unfold string_lt.
  pose proof (civil_from_days_increasing z1 z2 Hlt) as Hdate.
  pose proof (civil_from_days_valid z1) as Hv1.
  pose proof (civil_from_days_valid z2) as Hv2.
  rewrite (civil_fields z1) in Hdate, Hv1.
  rewrite (civil_fields z2) in Hdate, Hv2.
  unfold date_lt in Hdate.
  destruct (valid_date_ranges _ _ _ Hv1) as [Hm1 Hd1].
  destruct (valid_date_ranges _ _ _ Hv2) as [Hm2 Hd2].
  rewrite <- (string_of_list_ascii_of_string (Calendar.strftime z1)),
    <- (string_of_list_ascii_of_string (Calendar.strftime z2)),
    !strftime_characters.
  cbv zeta. cbn [string_of_list_ascii].
  destruct (four_digits _ Hy1) as (Ey1 & ? & ? & ? & ?).
  destruct (four_digits _ Hy2) as (Ey2 & ? & ? & ? & ?).
  destruct (two_digits (Calendar.month z1) ltac:(lia)) as (Em1 & ? & ?).
  destruct (two_digits (Calendar.month z2) ltac:(lia)) as (Em2 & ? & ?).
  destruct (two_digits (Calendar.day z1) ltac:(lia)) as (Ed1 & ? & ?).
  destruct (two_digits (Calendar.day z2) ltac:(lia)) as (Ed2 & ? & ?).
  cbv zeta in *.
  rewrite !compare_digits, !compare_dash, !compare_digits by assumption.
  rewrite !compare_dash, !compare_digits by assumption.
  repeat match goal with
         | |- context [?a ?= ?b] => destruct (Z.compare_spec a b)
         end;
    try reflexivity; exfalso; lia.
Qed.

Lemma StronglySorted_map_in {A B} (R : A -> A -> Prop) (R' : B -> B -> Prop)
    (f : A -> B) (l : list A) :
  (forall x y, In x l -> In y l -> R x y -> R' (f x) (f y)) ->
  StronglySorted R l -> StronglySorted R' (map f l).
Proof.
  intros Hf Hs. induction Hs as [|a l Hs IH Hall]; [constructor|].
  cbn [map]. constructor.
  - apply IH. intros x y Hx Hy. apply Hf; now right.
  - rewrite Forall_forall in *. intros b Hb. apply in_map_iff in Hb.
    destruct Hb as [x [<- Hx]]. apply Hf; [now left | now right | auto].
Qed.

(** The texts of a run of days inside the years 1000 to 9999: they read
    back as the days that follow the day before the run, one after the
    other in the calendar, and they are in the order of strings. *)
Lemma strftime_run (a : Z) (zs : list Z) (n : nat) :
  zs = map (fun i => a + 1 + Z.of_nat i) (seq 0 n) ->
  first_day <= a + 1 -> a + Z.of_nat n <= last_day ->
  map strptime (map Calendar.strftime zs)
  = map Some (days_after (Calendar.civil_from_days a) n)
  /\ StronglySorted string_lt (map Calendar.strftime zs).
Proof.
  intros Hzs Hlo Hhi.
  assert (Hrange : forall z, In z zs -> 0 <= Calendar.year z <= 9999).
  { intros z Hz. rewrite Hzs in Hz. apply in_map_iff in Hz.
    destruct Hz as [i [<- Hi]]. apply in_seq in Hi.
    pose proof (supported_year (a + 1 + Z.of_nat i) ltac:(lia)). lia. }
  split.
  - rewrite <- days_after_run, <- Hzs, !map_map.
    apply map_ext_in. intros z Hz. now apply strptime_strftime, Hrange.
  - apply (StronglySorted_map_in Z.lt).
    + intros x y Hx Hy. apply strftime_increasing; now apply Hrange.
    + rewrite Hzs. clear. generalize 0%nat as k.
      induction n as [|n IH]; intros k; cbn [seq map]; constructor;
        [apply IH|].
      apply Forall_forall. intros z Hz. apply in_map_iff in Hz.
      destruct Hz as [i [<- Hi]]. apply in_seq in Hi. lia.
Qed.

(** ** Where a row of the feature table comes from *)

Lemma increasing_nth_error (l : list Z) (a b : nat) (x y : Z) :
  StronglySorted Z.lt l -> (a < b)%nat ->
  nth_error l a = Some x -> nth_error l b = Some y -> x < y.
Proof.
  intros Hs. revert a b. induction Hs as [|h l Hs IH Hall]; intros a b Hlt.
  - now destruct a.
  - destruct b as [|b]; [lia|]. destruct a as [|a]; simpl.
    + intros Hx Hy. inversion Hx; subst.
      rewrite Forall_forall in Hall. eapply Hall, nth_error_In, Hy.
    + apply IH. lia.
Qed.

Lemma group_labels_increasing (csv : list Observation) (k : Z) :
  labels_increasing (select_product sku k (load csv)).
Proof. apply select_product_labels_increasing, load_labels_increasing. Qed.

Lemma group_position_order (csv : list Observation) (k : Z) (a b : nat)
    (x y : Z) (r1 r2 : DfRow) :
  nth_error (select_product sku k (load csv)) a = Some (x, r1) ->
  nth_error (select_product sku k (load csv)) b = Some (y, r2) ->
  x < y -> (a < b)%nat.
Proof.
  intros Ha Hb Hxy.
  destruct (nth_error_frame _ _ _ _ Ha) as [Hia _].
  destruct (nth_error_frame _ _ _ _ Hb) as [Hib _].
  pose proof (group_labels_increasing csv k) as Hinc.
  destruct (Nat.lt_trichotomy a b) as [Hlt|[Heq|Hgt]]; [exact Hlt| |].
  - subst b. rewrite Hia in Hib. inversion Hib. lia.
  - pose proof (increasing_nth_error _ _ _ _ _ Hinc Hgt Hib Hia). lia.
Qed.

(** The row at position [i] of [df_features] is a row of the features of
    its own product, built from the row of [df] labelled [i]. *)
Lemma feature_row_at (csv : list Observation) (F : Frame FeatureRow)
    (i : nat) (fr : FeatureRow) :
  feature_engineering csv = Ok F ->
  nth_error (values F) i = Some fr ->
  exists j,
    nth_error (select_product sku (sku_of fr) (load csv)) j
    = Some (Z.of_nat i, row fr)
    /\ nth_error (prod_features (select_product sku (sku_of fr) (load csv))) j
       = Some (Z.of_nat i, fr).
Proof.
  intros HF Hi.
  destruct (feature_engineering_inv _ _ HF) as (Hv & _ & _).
  rewrite Hv in Hi. unfold values in Hi. rewrite nth_error_map in Hi.
  destruct (nth_error (concat (fst (feature_loop (load csv)))) i)
    as [[a fr']|] eqn:Hc; [|discriminate].
  simpl in Hi. inversion Hi; subst fr'. clear Hi.
  assert (Ha : a = Z.of_nat i).
  { destruct (nth_error_frame _ _ _ _ Hc) as [Hix _].
    destruct (concat_frames csv) as [Hrange _].
    rewrite Hrange in Hix.
    assert (Hlt : (i < length csv)%nat).
    { rewrite <- (range_index_length (length csv)).
      apply nth_error_Some. congruence. }
    rewrite range_index_nth in Hix by exact Hlt. now inversion Hix. }
  subst a.
  apply nth_error_In, in_concat in Hc. destruct Hc as [fr0 [Hfr0 Hin]].
  rewrite feature_loop_frames in Hfr0. apply in_map_iff in Hfr0.
  destruct Hfr0 as [k [<- _]].
  apply In_nth_error in Hin. destruct Hin as [j Hj].
  pose proof Hj as Hj'. rewrite prod_features_nth in Hj'.
  destruct (nth_error (select_product sku k (load csv)) j)
    as [[a r]|] eqn:Hg; [|discriminate].
  simpl in Hj'. inversion Hj'; subst. simpl in *.
  assert (Hk : sku r = k).
  { apply nth_error_In, filter_In in Hg. destruct Hg as [_ Hg].
    now apply Z.eqb_eq in Hg. }
  unfold sku_of. simpl. rewrite Hk.
  exists j. split; [exact Hg | exact Hj].
Qed.

Lemma load_label_position (csv : list Observation) (l : Z) (r : DfRow) :
  In (l, r) (load csv) ->
  exists p, l = Z.of_nat p /\ nth_error (load csv) p = Some (l, r).
Proof.
  intros Hin. apply In_nth_error in Hin. destruct Hin as [p Hp].
  destruct (load_nth _ _ _ Hp) as (o & _ & Heq).
  inversion Heq; subst. now exists p.
Qed.

Lemma feature_row_of_load (csv : list Observation) (F : Frame FeatureRow)
    (p : nat) (l : Z) (r : DfRow) :
  feature_engineering csv = Ok F ->
  nth_error (load csv) p = Some (l, r) ->
  exists fr, nth_error (values F) p = Some fr /\ row fr = r.
Proof.
  intros HF Hp.
  destruct (feature_engineering_inv _ _ HF) as (_ & _ & Hrows).
  rewrite <- values_load in Hrows.
  apply (f_equal (fun x => nth_error x p)) in Hrows.
  destruct (nth_error_frame _ _ _ _ Hp) as [_ Hv].
  rewrite nth_error_map, Hv in Hrows.
  destruct (nth_error (values F) p) as [fr|]; [|discriminate].
  simpl in Hrows. inversion Hrows. now exists fr.
Qed.

(** ** The history of a product in two inputs *)

Lemma values_labelled {A} (a : Z) (l : list A) : values (labelled a l) = l.
Proof.
  revert a. induction l as [|x l IH]; intros a; [reflexivity|].
  cbn. f_equal. apply IH.
Qed.

Lemma length_labelled {A} (a : Z) (l : list A) :
  length (labelled a l) = length l.
Proof. now rewrite <- (values_labelled a l) at 2; unfold values;
  rewrite length_map. Qed.

Lemma labelled_app {A} (a : Z) (x y : list A) :
  labelled a (x ++ y)
  = labelled a x ++ labelled (a + Z.of_nat (length x)) y.
Proof.
  revert a. induction x as [|h x IH]; intros a.
  - cbn. now rewrite Z.add_0_r.
  - cbn [app labelled length]. f_equal. rewrite IH. do 2 f_equal. lia.
Qed.

Lemma labelled_map {A B} (f : A -> B) (a : Z) (l : list A) :
  map (fun ir => (fst ir, f (snd ir))) (labelled a l) = labelled a (map f l).
Proof.
  revert a. induction l as [|x l IH]; intros a; [reflexivity|].
  cbn. f_equal. apply IH.
Qed.

Lemma combine_labelled {A} (k : nat) (l : list A) :
  combine (map Z.of_nat (seq k (length l))) l = labelled (Z.of_nat k) l.
Proof.
  revert k. induction l as [|x l IH]; intros k; [reflexivity|].
  cbn [length seq map combine labelled]. f_equal.
  rewrite IH. f_equal. lia.
Qed.

Lemma load_labelled (csv : list Observation) :
  load csv = labelled 0 (map add_calendar (sort_values csv)).
Proof.
  unfold load, reset_index, range_index.
  now rewrite (combine_labelled 0), labelled_map.
Qed.

Lemma nth_error_labelled {A} (a : Z) (l : list A) (j : nat) :
  nth_error (labelled a l) j
  = option_map (fun x => (a + Z.of_nat j, x)) (nth_error l j).
Proof.
  revert a j. induction l as [|x l IH]; intros a [|j]; try reflexivity.
  - cbn. now rewrite Z.add_0_r.
  - cbn [labelled nth_error]. rewrite IH.
    destruct (nth_error l j); cbn; [|reflexivity]. do 2 f_equal. lia.
Qed.

Lemma labelled_from {A} (a x : Z) (l : list A) :
  In x (index (labelled a l)) -> a <= x.
Proof.
  revert a. induction l as [|h l IH]; intros a; [contradiction|].
  cbn. intros [<-|Hin]; [lia|]. apply IH in Hin. lia.
Qed.

Lemma labelled_increasing {A} (a : Z) (l : list A) :
  labels_increasing (labelled a l).
Proof.
  unfold labels_increasing. revert a.
  induction l as [|h l IH]; intros a; cbn; constructor; [apply IH|].
  apply Forall_forall. intros x Hx. apply labelled_from in Hx. lia.
Qed.

Lemma filter_labelled_all {A} (p : A -> bool) (a : Z) (l : list A) :
  (forall x, In x l -> p x = true) ->
  filter (fun ir => p (snd ir)) (labelled a l) = labelled a l.
Proof.
  intros H. apply filter_all. intros [i x] Hin. cbn.
  apply H. rewrite <- (values_labelled a l). unfold values.
  now apply (in_map snd) in Hin.
Qed.

Lemma filter_labelled_none {A} (p : A -> bool) (a : Z) (l : list A) :
  (forall x, In x l -> p x = false) ->
  filter (fun ir => p (snd ir)) (labelled a l) = [].
Proof.
  intros H. apply filter_none. intros [i x] Hin. cbn.
  apply H. rewrite <- (values_labelled a l). unfold values.
  now apply (in_map snd) in Hin.
Qed.

(** The frame of a product begins with its series up to a date, labelled
    from the number of rows of the products before it; what comes after is
    later. *)
Lemma group_prefix (csv : list Observation) (s d : Z) :
  exists rest,
    select_product sku s (load csv)
    = labelled (Z.of_nat (rows_before s csv))
               (map add_calendar (series_upto s d csv)) ++ rest
    /\ forall x, In x rest -> upto_date s d (obs (snd x)) = false.
Proof.
  rewrite load_labelled.
  rewrite (sorted_three_parts s d (sort_values csv))
    by apply sort_values_sorted.
  rewrite !filter_sort_values.
  fold (series_upto s d csv).
  set (A := sort_values (filter (before_product s) csv)).
  set (R := sort_values
              (filter (fun o => negb (before_product s o || upto_date s d o))
                      csv)).
  assert (HA : length A = rows_before s csv)
    by apply sort_values_length.
  rewrite !map_app, !labelled_app, !length_map, HA.
  unfold select_product. rewrite !filter_app.
  rewrite (filter_labelled_none (fun r => sku r =? s)).
  2:{ intros r Hr. apply in_map_iff in Hr. destruct Hr as [o [<- Ho]].
      unfold A in Ho.
      apply (Permutation_in _ (Permutation_sym (sort_values_perm _))) in Ho.
      apply filter_In in Ho. destruct Ho as [_ Ho].
      unfold before_product in Ho. apply Z.ltb_lt in Ho.
      apply Z.eqb_neq. unfold sku. cbn. lia. }
  rewrite (filter_labelled_all (fun r => sku r =? s)).
  2:{ intros r Hr. apply in_map_iff in Hr. destruct Hr as [o [<- Ho]].
      unfold series_upto in Ho.
      apply (Permutation_in _ (Permutation_sym (sort_values_perm _))) in Ho.
      apply filter_In in Ho. destruct Ho as [_ Ho].
      unfold upto_date in Ho. apply andb_prop in Ho. destruct Ho as [Ho _].
      exact Ho. }
  cbn [app]. eexists. split; [reflexivity|].
  intros [i r] Hin. apply filter_In in Hin. destruct Hin as [Hin _].
  apply (in_map snd) in Hin. fold (values (labelled
    (0 + Z.of_nat (rows_before s csv)
     + Z.of_nat (length (series_upto s d csv))) (map add_calendar R))) in Hin.
  rewrite values_labelled in Hin. cbn [snd] in *.
  apply in_map_iff in Hin. destruct Hin as [o [<- Ho]]. cbn [add_calendar obs].
  unfold R in Ho.
  apply (Permutation_in _ (Permutation_sym (sort_values_perm _))) in Ho.
  apply filter_In in Ho. destruct Ho as [_ Ho].
  apply negb_true_iff, orb_false_iff in Ho. tauto.
Qed.

(** After a restock the scan only takes differences of labels. *)
Lemma restock_scan_shift (c x a : Z) (l : list DfRow) :
  restock_scan (Some (x + c)) (labelled (a + c) l)
  = restock_scan (Some x) (labelled a l).
Proof.
  revert x a. induction l as [|r l IH]; intros x a; [reflexivity|].
  cbn [labelled restock_scan]. cbv zeta.
  replace (a + c + 1) with (a + 1 + c) by lia.
  destruct (95 <=? stock r).
  - f_equal; [lia|]. apply IH.
  - f_equal; [lia|]. apply IH.
Qed.

(** Before the first restock the scan gives the label itself. *)
Lemma restock_scan_relabel (a1 a2 : Z) (l : list DfRow) (j : nat) :
  (j < length l)%nat ->
  let seen := existsb (fun r => 95 <=? stock r) (firstn (S j) l) in
  nth j (restock_scan None (labelled a2 l)) 0
  = nth j (restock_scan None (labelled a1 l)) 0
    + (if seen then 0 else a2 - a1)
  /\ (seen = false ->
      nth j (restock_scan None (labelled a1 l)) 0 = a1 + Z.of_nat j).
Proof.
  cbv zeta. revert a1 a2 j.
  induction l as [|r l IH]; intros a1 a2 j Hj; [cbn in Hj; lia|].
  cbn [labelled restock_scan firstn existsb]. cbv zeta.
  destruct (95 <=? stock r) eqn:Hr; cbn [orb].
  - split; [|discriminate]. destruct j as [|j]; cbn [nth]; [lia|].
    rewrite <- (restock_scan_shift (a2 - a1) a1 (a1 + 1) l).
    replace (a1 + (a2 - a1)) with a2 by lia.
    replace (a1 + 1 + (a2 - a1)) with (a2 + 1) by lia. lia.
  - destruct j as [|j]; cbn [nth].
    + cbn. split; [lia|]. intros _. lia.
    + cbn [length] in Hj.
      destruct (IH (a1 + 1) (a2 + 1) j ltac:(lia)) as [Hshift Hlabel].
      split.
      * rewrite Hshift.
        replace (a2 + 1 - (a1 + 1)) with (a2 - a1) by lia. reflexivity.
      * intros Hseen. rewrite (Hlabel Hseen). lia.
Qed.

Lemma with_own_restock_distance (r : FeatureRow) :
  with_restock_distance (DAYS_SINCE_RESTOCK r) r = r.
Proof. now destruct r. Qed.

(** The features of a series whose labels begin at [a2] in place of [a1]:
    only the restock distance can move, and only before the first
    restock. *)
Lemma prod_features_relabel (a1 a2 : Z) (l : list DfRow) (j : nat)
    (x : Z) (r : FeatureRow) :
  nth_error (prod_features (labelled a1 l)) j = Some (x, r) ->
  let seen := existsb (fun r => 95 <=? stock r) (firstn (S j) l) in
  x = a1 + Z.of_nat j
  /\ nth_error (prod_features (labelled a2 l)) j
     = Some (a2 + Z.of_nat j,
             with_restock_distance
               (DAYS_SINCE_RESTOCK r + (if seen then 0 else a2 - a1)) r)
  /\ (seen = false -> DAYS_SINCE_RESTOCK r = a1 + Z.of_nat j).
Proof.
  intros Hj. cbv zeta.
  assert (Hlt : (j < length l)%nat).
  { rewrite <- (length_labelled a1 l), <- prod_features_length.
    apply nth_error_Some. congruence. }
  destruct (restock_scan_relabel a1 a2 l j Hlt) as [Hshift Hlabel].
  cbv zeta in Hshift, Hlabel.
  rewrite prod_features_nth, nth_error_labelled in Hj.
  rewrite prod_features_nth, nth_error_labelled.
  destruct (nth_error l j) as [dr|]; [|discriminate].
  cbn [option_map fst snd] in *.
  rewrite !days_since_restock_forward_scan in * by apply labelled_increasing.
  repeat progress unfold col_PREV_DAY_SALES, col_PREVIOUS_PRICE,
    col_PRICE_VARIATION, col_MA_3D, col_MA_7D, col_TREND_3D, col_LOW_STOCK,
    col_NEEDS_REPLENISH, col_stock, col_price in *.
  rewrite !values_labelled in *.
  inversion Hj as [[Hx Hr]]. clear Hj.
  unfold with_restock_distance.
  cbn [row PREV_DAY_SALES PREVIOUS_PRICE PRICE_VARIATION MA_3D MA_7D
       TREND_3D LOW_STOCK NEEDS_REPLENISH DAYS_SINCE_RESTOCK].
  split; [reflexivity|]. split.
  - rewrite Hshift. reflexivity.
  - exact Hlabel.
Qed.

(** A row of the features of a product is the row of [df_features] at the
    position that its label gives. *)
Lemma feature_row_of_group (csv : list Observation) (F : Frame FeatureRow)
    (k : Z) (j : nat) (l : Z) (fr : FeatureRow) :
  feature_engineering csv = Ok F ->
  nth_error (prod_features (select_product sku k (load csv))) j
  = Some (l, fr) ->
  exists p, l = Z.of_nat p /\ nth_error (values F) p = Some fr.
Proof.
  intros HF Hj. pose proof Hj as Hg. rewrite prod_features_nth in Hg.
  destruct (nth_error (select_product sku k (load csv)) j)
    as [[l' dr]|] eqn:Hgj; [|discriminate].
  cbn [option_map fst snd] in Hg. inversion Hg as [[Hl Hfr]]. subst l'.
  assert (Hrow : row fr = dr) by (rewrite <- Hfr; reflexivity).
  assert (Hk : sku dr = k).
  { apply nth_error_In, filter_In in Hgj. destruct Hgj as [_ Hk].
    now apply Z.eqb_eq in Hk. }
  assert (Hin : In (l, dr) (load csv)).
  { apply nth_error_In, filter_In in Hgj. tauto. }
  destruct (load_label_position _ _ _ Hin) as (p & Hp & Hload).
  destruct (feature_row_of_load _ _ _ _ _ HF Hload) as (fr' & HF' & Hrow').
  exists p. split; [exact Hp|].
  destruct (feature_row_at _ _ _ _ HF HF') as (j' & Hg' & Hp').
  assert (Hsku : sku_of fr' = k) by (unfold sku_of; now rewrite Hrow').
  rewrite Hsku in Hg', Hp'.
  assert (Hjj : j' = j).
  { destruct (Nat.lt_trichotomy j' j) as [Hlt|[Heq|Hgt]]; [|exact Heq|].
    - pose proof (group_labels_increasing csv k) as Hinc.
      destruct (nth_error_frame _ _ _ _ Hg') as [Hi' _].
      destruct (nth_error_frame _ _ _ _ Hgj) as [Hi _].
      pose proof (increasing_nth_error _ _ _ _ _ Hinc Hlt Hi' Hi). lia.
    - pose proof (group_labels_increasing csv k) as Hinc.
      destruct (nth_error_frame _ _ _ _ Hg') as [Hi' _].
      destruct (nth_error_frame _ _ _ _ Hgj) as [Hi _].
      pose proof (increasing_nth_error _ _ _ _ _ Hinc Hgt Hi Hi'). lia. }
  subst j'. rewrite Hj in Hp'. congruence.
Qed.

Lemma firstn_exact_app {A} (a b : list A) : firstn (length a) (a ++ b) = a.
Proof. induction a as [|x a IH]; [reflexivity|]. cbn. now rewrite IH. Qed.

Lemma nth_error_firstn_lt {A} (l : list A) (n j : nat) :
  (j < n)%nat -> nth_error (firstn n l) j = nth_error l j.
Proof.
  revert l j. induction n as [|n IH]; intros l j Hj; [lia|].
  destruct l as [|x l]; [now destruct j|].
  destruct j as [|j]; [reflexivity|]. cbn. apply IH. lia.
Qed.

Lemma existsb_map {A B} (f : B -> bool) (g : A -> B) (l : list A) :
  existsb f (map g l) = existsb (fun x => f (g x)) l.
Proof. induction l as [|x l IH]; [reflexivity|]. cbn. now rewrite IH. Qed.

(** The features of the first rows of the frame of a product are those of
    these rows alone. *)
Lemma group_prefix_features (csv : list Observation) (s d : Z) (j : nat) :
  (j < length (series_upto s d csv))%nat ->
  nth_error (prod_features (select_product sku s (load csv))) j
  = nth_error (prod_features
                 (labelled (Z.of_nat (rows_before s csv))
                           (map add_calendar (series_upto s d csv)))) j.
Proof.
  intros Hj. destruct (group_prefix csv s d) as (rest & HG & _).
  set (P := labelled (Z.of_nat (rows_before s csv))
                     (map add_calendar (series_upto s d csv))) in *.
  assert (Hlen : length P = length (series_upto s d csv))
    by (unfold P; now rewrite length_labelled, length_map).
  rewrite <- (firstn_exact_app P rest), <- HG, Hlen.
  rewrite prod_features_firstn by apply group_labels_increasing.
  now rewrite nth_error_firstn_lt.
Qed.

(** * The claims *)

(** C1, on the code.  For every product the loop of lines 93-98 computes
    the forward scan of the specification over the index labels that
    [prod_df] keeps from the whole sorted table, not over the positions in
    the product's own series.  On a table of two products with the stock
    levels [50, 45, 96, 90] each, the rows of product 1000 carry the labels
    0..3 and get [0, 1, 0, 1]; the rows of product 1001 carry the labels
    4..7, and before its first restock the no-restock branch stores the label
    itself, so the product gets [4, 5, 0, 1]. *)
Theorem C1_restock_distance_second_product :
  (forall csv product_id,
      col_DAYS_SINCE_RESTOCK (select_product sku product_id (load csv))
      = restock_scan None (select_product sku product_id (load csv)))
  /\ exists F,
      feature_engineering two_skus = Ok F
      /\ map (fun r => (sku_of r, stock (row r), DAYS_SINCE_RESTOCK r))
             (values F)
         = [ (1000, 50, 0); (1000, 45, 1); (1000, 96, 0); (1000, 90, 1);
             (1001, 50, 4); (1001, 45, 5); (1001, 96, 0); (1001, 90, 1) ].
Proof.
  split.
  - intros csv k. apply days_since_restock_forward_scan.
    apply select_product_labels_increasing, load_labels_increasing.
  - eexists. split; vm_compute; reflexivity.
Qed.

(** The example of the specification, for a table that holds this single
    product: its labels are its positions. *)
Example restock_distance_single_product :
  exists F,
    feature_engineering one_sku = Ok F
    /\ map DAYS_SINCE_RESTOCK (values F) = [0; 1; 0; 1].
Proof.
  eexists. split; vm_compute; reflexivity.
Qed.

(** C2 (as the code has it).  The Forest model is retained, with its
    metrics, exactly when its holdout R2 is strictly higher than the Boosted
    model's; in every other case, a tie included, the Boosted model and its
    metrics are retained.  The outcome is a function of the two R2 values. *)
Theorem C2_selection_rule
    (fit_rf fit_gb : list FV.t -> list Z -> Model) (np_sqrt : Q -> Q)
    (csv : list Observation) (g : Globals) (r_rf r_gb : Q) :
  script fit_rf fit_gb np_sqrt csv = Ok g ->
  R2 (metrics_rf g) = Some r_rf ->
  R2 (metrics_gb g) = Some r_gb ->
  ((r_gb < r_rf)%Q ->
     best_model g = rf_model g
     /\ model_name g = "Random Forest"%string
     /\ best_metrics g = metrics_rf g)
  /\ ((r_rf <= r_gb)%Q ->
        best_model g = gb_model g
        /\ model_name g = "Gradient Boosting"%string
        /\ best_metrics g = metrics_gb g).
Proof.
  intros Hrun Hrf Hgb.
  destruct (script_inv _ _ _ _ _ Hrun)
    as (_ & _ & _ & _ & _ & _ & _ & _ & _ & Hsel).
  split; intros Hcmp.
  - rewrite select_best_then in Hsel.
    + inversion Hsel. auto.
    + apply float_gt_true. exists r_rf, r_gb. auto.
  - rewrite select_best_else in Hsel.
    + inversion Hsel. auto.
    + destruct (float_gt _ _) eqn:Hgt; [|reflexivity].
      apply float_gt_true in Hgt. destruct Hgt as (x & y & Hx & Hy & Hlt).
      rewrite Hrf in Hx. rewrite Hgb in Hy. inversion Hx; inversion Hy; subst.
      exfalso. eapply Qlt_not_le; eauto.
Qed.

Lemma C2_selection_rule_witness :
  exists g r,
    script (fit_const 95) (fit_const 91) sqrt_sample two_skus = Ok g
    /\ R2 (metrics_rf g) = Some r
    /\ R2 (metrics_gb g) = Some r
    /\ ((r < r)%Q ->
          best_model g = rf_model g
          /\ model_name g = "Random Forest"%string
          /\ best_metrics g = metrics_rf g)
    /\ ((r <= r)%Q ->
          best_model g = gb_model g
          /\ model_name g = "Gradient Boosting"%string
          /\ best_metrics g = metrics_gb g).
Proof.
  eexists. eexists.
  split; [vm_compute; reflexivity|].
  split; [vm_compute; reflexivity|].
  split; [vm_compute; reflexivity|].
  apply (C2_selection_rule (fit_const 95) (fit_const 91) sqrt_sample two_skus);
    vm_compute; reflexivity.
Defined.

(** C2, the tie as the claim words it, refuted: the holdout levels are
    [96, 90]; the Forest answers 95 and the Boosted 91, so both have the same
    squared error and the same R2, and the script retains the Boosted model,
    the second one evaluated. *)
Lemma C2_tie_counterexample :
  exists g,
    script (fit_const 95) (fit_const 91) sqrt_sample two_skus = Ok g
    /\ y_test g = [96; 90]
    /\ R2 (metrics_rf g) = R2 (metrics_gb g)
    /\ R2 (metrics_rf g) <> None
    /\ model_name g = "Gradient Boosting"%string
    /\ model_name g <> "Random Forest"%string
    /\ best_model g = gb_model g
    /\ (forall x, best_model g x <> rf_model g x).
Proof.
  eexists. split; [vm_compute; reflexivity|].
  repeat split; vm_compute; congruence.
Qed.

(** With fewer than two holdout rows [r2_score] is undefined for both
    models, the comparison of line 202 is false, and the Boosted model is
    retained. *)
Lemma selection_undefined_r2
    (fit_rf fit_gb : list FV.t -> list Z -> Model) (np_sqrt : Q -> Q)
    (csv : list Observation) (g : Globals) :
  script fit_rf fit_gb np_sqrt csv = Ok g ->
  R2 (metrics_rf g) = None \/ R2 (metrics_gb g) = None ->
  best_model g = gb_model g
  /\ model_name g = "Gradient Boosting"%string
  /\ best_metrics g = metrics_gb g.
Proof.
  intros Hrun Hnan.
  destruct (script_inv _ _ _ _ _ Hrun)
    as (_ & _ & _ & _ & _ & _ & _ & _ & _ & Hsel).
  rewrite select_best_else in Hsel by now apply float_gt_nan.
  inversion Hsel. auto.
Qed.

(** C3 (as the code has it).  For every future step [d = 1..N] the
    synthetic feature vector holds [PREV_DAY_SALES], [MA_3D], [MA_7D] and
    [TREND_3D] at the values of those fields in the product's last row, sets
    [PREVIOUS_PRICE] to the last observed price [PRECO] of that row, sets
    [FLAG_PROMOCAO] and [PRICE_VARIATION] to 0, and sets
    [DAYS_SINCE_RESTOCK] to the last row's value plus [d]. *)
Theorem C3_frozen_features
    (g : Globals) (p days : Z) (last_row : FeatureRow) (steps : list Step) :
  iloc_last (select_product sku_of p (df_features g)) = Ok last_row ->
  forecast_steps g p days = Ok steps ->
  Forall2
    (fun d s =>
       1 <= d <= days
       /\ FV.PREV_DAY_SALES (x_future s) = PREV_DAY_SALES last_row
       /\ FV.PREVIOUS_PRICE (x_future s) = PRECO (obs (row last_row))
       /\ FV.MA_3D (x_future s) = MA_3D last_row
       /\ FV.MA_7D (x_future s) = MA_7D last_row
       /\ FV.TREND_3D (x_future s) = TREND_3D last_row
       /\ FV.FLAG_PROMOCAO (x_future s) = 0
       /\ FV.PRICE_VARIATION (x_future s) = 0%Q
       /\ FV.DAYS_SINCE_RESTOCK (x_future s) = DAYS_SINCE_RESTOCK last_row + d)
    (py_range 1 (days + 1)) steps.
Proof.
  intros Hlast Hsteps.
  destruct (forecast_steps_range _ _ _ _ Hsteps) as (last_row' & Hl & Hall).
  rewrite Hlast in Hl. inversion Hl; subst last_row'.
  eapply Forall2_impl; [|exact Hall].
  simpl. intros d s [Hd Hs]. split; [exact Hd|].
  destruct (forecast_step_inv _ _ _ _ Hs) as (pid & _ & _ & Hx & _).
  rewrite Hx. simpl. repeat split; reflexivity.
Qed.

Lemma C3_frozen_features_witness :
  exists g last_row steps,
    script (fit_const 50) (fit_const 50) sqrt_sample two_skus = Ok g
    /\ iloc_last (select_product sku_of 1000 (df_features g)) = Ok last_row
    /\ forecast_steps g 1000 7 = Ok steps
    /\ Forall2
         (fun d s =>
            1 <= d <= 7
            /\ FV.PREV_DAY_SALES (x_future s) = PREV_DAY_SALES last_row
            /\ FV.PREVIOUS_PRICE (x_future s) = PRECO (obs (row last_row))
            /\ FV.MA_3D (x_future s) = MA_3D last_row
            /\ FV.MA_7D (x_future s) = MA_7D last_row
            /\ FV.TREND_3D (x_future s) = TREND_3D last_row
            /\ FV.FLAG_PROMOCAO (x_future s) = 0
            /\ FV.PRICE_VARIATION (x_future s) = 0%Q
            /\ FV.DAYS_SINCE_RESTOCK (x_future s)
               = DAYS_SINCE_RESTOCK last_row + d)
         (py_range 1 (7 + 1)) steps.
Proof.
  eexists. eexists. eexists.
  split; [vm_compute; reflexivity|].
  match goal with
  | |- _ /\ forecast_steps ?G _ _ = _ /\ _ => pose (g0 := G)
  end.
  split; [vm_compute; reflexivity|].
  split; [vm_compute; reflexivity|].
  apply (C3_frozen_features g0 1000 7); vm_compute; reflexivity.
Defined.

(** C3, the previous price as the claim words it, refuted: the last two
    prices of product 1000 are 10 and 12, so its last row has
    [PREVIOUS_PRICE = 10], and every synthetic vector has
    [PREVIOUS_PRICE = 12], the last price. *)
Lemma C3_previous_price_counterexample :
  exists g last_row steps,
    script (fit_const 50) (fit_const 50) sqrt_sample two_skus = Ok g
    /\ iloc_last (select_product sku_of 1000 (df_features g)) = Ok last_row
    /\ forecast_steps g 1000 7 = Ok steps
    /\ length steps = 7%nat
    /\ (PREVIOUS_PRICE last_row == 10)%Q
    /\ Forall (fun s => (FV.PREVIOUS_PRICE (x_future s) == 12)%Q
                        /\ ~ (FV.PREVIOUS_PRICE (x_future s)
                              == PREVIOUS_PRICE last_row)%Q) steps.
Proof.
  eexists. eexists. eexists.
  split; [vm_compute; reflexivity|].
  split; [vm_compute; reflexivity|].
  split; [vm_compute; reflexivity|].
  split; [reflexivity|].
  split; [vm_compute; reflexivity|].
  repeat constructor; vm_compute; congruence.
Qed.



(** C5.  What a feature row reads.  Take the feature row [r] at position
    [i] of [df_features] and a second input that holds the same series of
    the product of [r] up to the date of [r]; everything else is free:
    later observations of the product, the observations of the other
    products and their number.  The second table has that row too, at the
    position that the rows of the products before it leave, with every
    field of [r] but [DAYS_SINCE_RESTOCK].  That field is the same once the
    series has had a restock; before the first restock it is the position
    of the row in the whole table, so it moves with the number of rows of
    the products that come before. *)
Theorem C5_no_lookahead_but_restock_distance
    (csv1 csv2 : list Observation) (F1 F2 : Frame FeatureRow)
    (i : nat) (r : FeatureRow) :
  feature_engineering csv1 = Ok F1 ->
  feature_engineering csv2 = Ok F2 ->
  nth_error (values F1) i = Some r ->
  series_upto (sku_of r) (date_of r) csv1
  = series_upto (sku_of r) (date_of r) csv2 ->
  let n1 := rows_before (sku_of r) csv1 in
  let n2 := rows_before (sku_of r) csv2 in
  let seen :=
    restocked (firstn (S (i - n1))
                      (series_upto (sku_of r) (date_of r) csv1)) in
  (n1 <= i)%nat
  /\ nth_error (values F2) (n2 + (i - n1))
     = Some (with_restock_distance
               (DAYS_SINCE_RESTOCK r
                + (if seen then 0 else Z.of_nat n2 - Z.of_nat n1)) r)
  /\ (seen = false -> DAYS_SINCE_RESTOCK r = Z.of_nat i)
  /\ (seen = true \/ n1 = n2 ->
      nth_error (values F2) (n2 + (i - n1)) = Some r).
Proof.
  intros HF1 HF2 Hr Hseries. cbv zeta.
  set (s := sku_of r) in *. set (d := date_of r) in *.
  set (n1 := rows_before s csv1). set (n2 := rows_before s csv2).
  destruct (feature_row_at _ _ _ _ HF1 Hr) as (j & Hg & Hp). fold s in Hg, Hp.
  destruct (group_prefix csv1 s d) as (rest1 & HG1 & Hrest1). fold n1 in HG1.
  assert (Hjm : (j < length (series_upto s d csv1))%nat).
  { destruct (Nat.lt_ge_cases j (length (series_upto s d csv1)))
      as [Hlt|Hge]; [exact Hlt|]. exfalso.
    rewrite HG1, nth_error_app2 in Hg
      by (rewrite length_labelled, length_map; exact Hge).
    apply nth_error_In, Hrest1 in Hg. cbn [snd] in Hg.
    unfold upto_date, s, d, sku_of, sku, date_of in Hg.
    now rewrite Z.eqb_refl, Z.leb_refl in Hg. }
  assert (Hi : i = (n1 + j)%nat).
  { rewrite HG1, nth_error_app1 in Hg
      by (rewrite length_labelled, length_map; exact Hjm).
    rewrite nth_error_labelled in Hg.
    destruct (nth_error (map add_calendar (series_upto s d csv1)) j);
      [|discriminate].
    cbn in Hg. inversion Hg. lia. }
  replace (i - n1)%nat with j by lia.
  rewrite (group_prefix_features csv1 s d j Hjm) in Hp. fold n1 in Hp.
  destruct (prod_features_relabel (Z.of_nat n1) (Z.of_nat n2) _ _ _ _ Hp)
    as (_ & H2 & Hlabel).
  cbv zeta in H2, Hlabel.
  rewrite firstn_map, existsb_map in H2, Hlabel.
  change (existsb (fun x => 95 <=? stock (add_calendar x))
                  (firstn (S j) (series_upto s d csv1)))
    with (restocked (firstn (S j) (series_upto s d csv1))) in H2, Hlabel.
  set (seen := restocked (firstn (S j) (series_upto s d csv1))) in *.
  pose proof (group_prefix_features csv2 s d j) as Hpre2.
  rewrite <- Hseries in Hpre2. fold n2 in Hpre2.
  rewrite <- (Hpre2 Hjm) in H2.
  destruct (feature_row_of_group _ _ _ _ _ _ HF2 H2) as (p & Hp2 & HF2p).
  replace (n2 + j)%nat with p by lia.
  split; [lia|]. split; [exact HF2p|]. split.
  - intros Hseen. rewrite (Hlabel Hseen). lia.
  - intros Hsame. rewrite HF2p. f_equal.
    transitivity (with_restock_distance (DAYS_SINCE_RESTOCK r) r);
      [|apply with_own_restock_distance].
    f_equal.
    clearbody seen. destruct seen; [lia|].
    destruct Hsame as [Hseen | Hn]; [discriminate | lia].
Qed.

Lemma C5_no_lookahead_but_restock_distance_witness :
  exists F1 F2 r,
    feature_engineering two_skus = Ok F1
    /\ feature_engineering two_skus_relabelled = Ok F2
    /\ nth_error (values F1) 4 = Some r
    /\ series_upto (sku_of r) (date_of r) two_skus
       = series_upto (sku_of r) (date_of r) two_skus_relabelled
    /\ sku_of r = 1001
    /\ DAYS_SINCE_RESTOCK r = 4
    /\ nth_error (values F2) 3 = Some (with_restock_distance 3 r).
Proof.
  eexists. eexists. eexists.
  split; [vm_compute; reflexivity|].
  split; [vm_compute; reflexivity|].
  split; [vm_compute; reflexivity|].
  split; [vm_compute; reflexivity|].
  split; [vm_compute; reflexivity|].
  split; [vm_compute; reflexivity|].
  match goal with
  | |- nth_error (values ?G2) _ = Some (with_restock_distance _ ?R) =>
      pose (F20 := G2); pose (r0 := R)
  end.
  pose proof (C5_no_lookahead_but_restock_distance
                two_skus two_skus_relabelled _ F20 4 r0
                ltac:(vm_compute; reflexivity) ltac:(vm_compute; reflexivity)
                ltac:(vm_compute; reflexivity) ltac:(vm_compute; reflexivity))
    as H.
  cbv zeta in H. exact (proj1 (proj2 H)).
Defined.

(** The claim at a concrete input.  The two inputs hold the same four
    observations of product 1001 and differ in one line of another product,
    yet the restock distances of product 1001 are not the same. *)
Lemma C5_other_product_counterexample :
  exists F1 F2,
    feature_engineering two_skus = Ok F1
    /\ feature_engineering two_skus_relabelled = Ok F2
    /\ filter (fun o => ID_PRODUTO o =? 1001) two_skus
       = filter (fun o => ID_PRODUTO o =? 1001) two_skus_relabelled
    /\ Forall2 (fun o1 o2 => o1 = o2
                             \/ (ID_PRODUTO o1 <> 1001
                                 /\ ID_PRODUTO o2 <> 1001))
               two_skus two_skus_relabelled
    /\ map (fun r => obs (row r)) (values (select_product sku_of 1001 F1))
       = map (fun r => obs (row r)) (values (select_product sku_of 1001 F2))
    /\ map DAYS_SINCE_RESTOCK (values (select_product sku_of 1001 F1))
       = [4; 5; 0; 1]
    /\ map DAYS_SINCE_RESTOCK (values (select_product sku_of 1001 F2))
       = [3; 4; 0; 1].
Proof.
  eexists. eexists.
  split; [vm_compute; reflexivity|].
  split; [vm_compute; reflexivity|].
  split; [vm_compute; reflexivity|].
  split.
  { unfold two_skus, two_skus_relabelled.
    repeat (apply Forall2_cons;
            [first [left; reflexivity | right; split; discriminate]|]).
    apply Forall2_nil. }
  split; [vm_compute; reflexivity|].
  split; vm_compute; reflexivity.
Qed.

(** C6 (as the code has it).  A forecast requested for a product that has
    no row in [df_features] fails with the [IndexError] of the positional
    lookup [iloc[-1]] on the empty selection. *)
Theorem C6_absent_product_index_error (g : Globals) (p days : Z) :
  (forall r, In r (values (df_features g)) -> sku_of r <> p) ->
  forecast_next_days g p days = Raise "IndexError".
Proof.
  intros Habs. unfold forecast_next_days, forecast_steps.
  rewrite iloc_last_absent; [reflexivity|].
  apply map_eq_nil with (f := snd).
  change (values (select_product sku_of p (df_features g)) = []).
  rewrite values_select_product. apply filter_none.
  intros r Hr. apply Z.eqb_neq. now apply Habs.
Qed.

Lemma C6_absent_product_index_error_witness :
  exists g,
    script (fit_const 50) (fit_const 50) sqrt_sample two_skus = Ok g
    /\ (forall r, In r (values (df_features g)) -> sku_of r <> 9999)
    /\ forecast_next_days g 9999 7 = Raise "IndexError".
Proof.
  eexists. split; [vm_compute; reflexivity|].
  match goal with |- ?H /\ _ => assert (Habs : H) end.
  { intros r Hr. vm_compute in Hr.
    repeat (destruct Hr as [<-|Hr]; [vm_compute; discriminate|]).
    contradiction. }
  split; [exact Habs|].
  exact (C6_absent_product_index_error _ 9999 7 Habs).
Defined.

(** C6, the error as the claim names it, refuted: the product 9999 is not
    in the table and the failure is an [IndexError]. *)
Lemma C6_not_found_counterexample :
  exists g,
    script (fit_const 50) (fit_const 50) sqrt_sample two_skus = Ok g
    /\ forecast_next_days g 9999 7 = Raise "IndexError"
    /\ forecast_next_days g 9999 7 <> Raise "NotFoundError".
Proof.
  eexists. split; [vm_compute; reflexivity|].
  split; vm_compute; congruence.
Qed.

(** C7.  Every prediction of the two regressors on the holdout rows, and
    the prediction of every step of a forecast (as computed, and as rounded
    into the returned point), lies between 0 and 100. *)
Theorem C7_predictions_in_range
    (fit_rf fit_gb : list FV.t -> list Z -> Model) (np_sqrt : Q -> Q)
    (csv : list Observation) (g : Globals) :
  script fit_rf fit_gb np_sqrt csv = Ok g ->
  Forall in_range (y_pred_rf g)
  /\ Forall in_range (y_pred_gb g)
  /\ forall p days steps,
      forecast_steps g p days = Ok steps ->
      Forall (fun s => in_range (pred_stock s)
                       /\ in_range (Predicted_Stock (point s))) steps.
Proof.
  intros Hrun.
  destruct (script_inv _ _ _ _ _ Hrun)
    as (_ & _ & _ & _ & _ & Hrf & Hgb & _).
  rewrite Hrf, Hgb. repeat split.
  - apply Forall_map, Forall_forall. intros; apply np_clip_in_range.
  - apply Forall_map, Forall_forall. intros; apply np_clip_in_range.
  - intros p days steps Hsteps.
    destruct (forecast_steps_inv _ _ _ _ Hsteps) as (last_row & _ & Hall).
    clear Hsteps. induction Hall as [|d s ds ss Hstep _ IH]; constructor; auto.
    destruct (forecast_step_inv _ _ _ _ Hstep)
      as (pid & _ & _ & _ & Hpred & _ & Hpt).
    rewrite Hpt, Hpred. split.
    + apply np_clip_in_range.
    + apply round1_in_range, np_clip_in_range.
Qed.

Lemma C7_predictions_in_range_witness :
  exists g,
    script (fit_const 120) (fit_const (-3)) sqrt_sample two_skus = Ok g
    /\ Forall in_range (y_pred_rf g)
    /\ Forall in_range (y_pred_gb g)
    /\ exists steps,
        forecast_steps g 1000 7 = Ok steps
        /\ Forall (fun s => in_range (pred_stock s)
                            /\ in_range (Predicted_Stock (point s))) steps.
Proof.
  eexists. split; [vm_compute; reflexivity|].
  destruct (C7_predictions_in_range
              (fit_const 120) (fit_const (-3)) sqrt_sample two_skus _
              ltac:(vm_compute; reflexivity)) as (Hrf & Hgb & Hfc).
  split; [exact Hrf|]. split; [exact Hgb|].
  eexists. split; [vm_compute; reflexivity|].
  apply (Hfc 1000 7). vm_compute; reflexivity.
Defined.



Example forecast_dates_sample :
  exists g points,
    script (fit_const 50) (fit_const 50) sqrt_sample two_skus = Ok g
    /\ forecast_df g = Ok points
    /\ map Date points
       = [ "2024-03-02"; "2024-03-03"; "2024-03-04"; "2024-03-05";
           "2024-03-06"; "2024-03-07"; "2024-03-08" ]%string
    /\ map strptime (map Date points)
       = map Some [ (2024, 3, 2); (2024, 3, 3); (2024, 3, 4); (2024, 3, 5);
                    (2024, 3, 6); (2024, 3, 7); (2024, 3, 8) ].
Proof.
  eexists. eexists.
  split; [vm_compute; reflexivity|].
  split; [vm_compute; reflexivity|].
  split; vm_compute; reflexivity.
Qed.

(** The calendar around the end of a February and of a year, and the two
    ends of the years that [strftime] prints with four digits. *)
Example calendar_samples :
  days_after (2024, 2, 27) 4 = [(2024, 2, 28); (2024, 2, 29); (2024, 3, 1);
                                (2024, 3, 2)]
  /\ days_after (2023, 2, 27) 2 = [(2023, 2, 28); (2023, 3, 1)]
  /\ days_after (1900, 2, 28) 1 = [(1900, 3, 1)]
  /\ days_after (2023, 12, 30) 2 = [(2023, 12, 31); (2024, 1, 1)]
  /\ Calendar.civil_from_days first_day = (1000, 1, 1)
  /\ Calendar.civil_from_days last_day = (9999, 12, 31)
  /\ Calendar.civil_from_days 0 = (1970, 1, 1)
  /\ strptime "2024-02-30" = None
  /\ strptime "2024-2-03" = None.
Proof. repeat split; vm_compute; reflexivity. Qed.

(** C9.  For each of the two models the holdout MAPE is
    [mean(|actual - predicted| / (actual + 1)) * 100] over the holdout rows:
    with non-negative actual stock levels the divisor is never zero, so the
    value is finite even where an actual is 0.  For [actual = [0, 10]] and
    [predicted = [5, 8]] it is [mean(5, 2/11) * 100], about 259.1. *)
Theorem C9_holdout_mape :
  (forall fit_rf fit_gb np_sqrt csv g,
      script fit_rf fit_gb np_sqrt csv = Ok g ->
      Forall (fun a => 0 <= a) (y_test g) ->
      (exists v, MAPE (metrics_rf g) = Some v
                 /\ (v == mape_spec (y_test g) (y_pred_rf g))%Q)
      /\ (exists v, MAPE (metrics_gb g) = Some v
                    /\ (v == mape_spec (y_test g) (y_pred_gb g))%Q))
  /\ (exists v, mape [0; 10] [5%Q; 8%Q] = Some v
                /\ (v == (5 + 2 / 11) / 2 * 100)%Q
                /\ (259.05 <= v)%Q /\ (v <= 259.15)%Q).
Proof.
  split.
  - intros fit_rf fit_gb np_sqrt csv g Hrun Hpos.
    destruct (holdout_shape _ _ _ _ _ Hrun) as (Hne & Hrf & Hgb).
    destruct (script_inv _ _ _ _ _ Hrun)
      as (_ & _ & _ & _ & _ & _ & _ & Hmrf & Hmgb & _).
    rewrite Hmrf, Hmgb. simpl.
    split; apply mape_formula; auto.
  - eexists. split; [reflexivity|].
    repeat split; vm_compute; congruence.
Qed.

Lemma C9_holdout_mape_witness :
  exists g,
    script (fit_const 120) (fit_const 50) sqrt_sample two_skus = Ok g
    /\ Forall (fun a => 0 <= a) (y_test g)
    /\ (exists v, MAPE (metrics_rf g) = Some v
                  /\ (v == mape_spec (y_test g) (y_pred_rf g))%Q)
    /\ (exists v, MAPE (metrics_gb g) = Some v
                  /\ (v == mape_spec (y_test g) (y_pred_gb g))%Q).
Proof.
  eexists. split; [vm_compute; reflexivity|].
  split; [repeat constructor; discriminate|].
  apply (proj1 C9_holdout_mape (fit_const 120) (fit_const 50) sqrt_sample two_skus).
  - vm_compute; reflexivity.
  - repeat constructor; discriminate.
Defined.

(** C10.  The table that is split is the input sorted by product then
    date, and the split keeps that order: the training partition is the
    first [floor(0.8 n)] rows, the holdout partition the [ceil(0.2 n)] rows
    that follow, with no row shuffled, dropped or repeated. *)
Theorem C10_ordered_split
    (fit_rf fit_gb : list FV.t -> list Z -> Model) (np_sqrt : Q -> Q)
    (csv : list Observation) (g : Globals) :
  script fit_rf fit_gb np_sqrt csv = Ok g ->
  let table := values (dropna (df_features g)) in
  let n := length table in
  let k := (4 * n / 5)%nat in
  map (fun r => obs (row r)) table = sort_values csv
  /\ StronglySorted key_le (map (fun r => obs (row r)) table)
  /\ Permutation csv (map (fun r => obs (row r)) table)
  /\ X_train g = map feature_vector (firstn k table)
  /\ y_train g = map target (firstn k table)
  /\ X_test g = map feature_vector (skipn k table)
  /\ y_test g = map target (skipn k table)
  /\ length (X_test g) = ((n + 4) / 5)%nat
  /\ (0 < k < n)%nat.
Proof.
  intros Hrun. cbv zeta.
  destruct (script_inv _ _ _ _ _ Hrun) as (Hfe & _ & Hsplit & _).
  cbv zeta in Hsplit.
  set (table := values (dropna (df_features g))) in *.
  assert (Hobs : map (fun r => obs (row r)) table = sort_values csv).
  { apply feature_engineering_inv in Hfe. destruct Hfe as (_ & _ & Hrows).
    unfold table, dropna. rewrite <- (map_map row obs), Hrows, map_map.
    apply map_id. }
  apply train_test_split_inv in Hsplit.
  rewrite length_map in Hsplit. cbv zeta in Hsplit.
  set (n := length table) in *.
  assert (Hk : Z.to_nat (Z.of_nat n - (Z.of_nat n + 4) / 5) = (4 * n / 5)%nat).
  { apply Nat2Z.inj. rewrite Nat2Z.inj_div, Nat2Z.inj_mul.
    pose proof (Z.div_mod (Z.of_nat n + 4) 5 ltac:(lia)).
    pose proof (Z.mod_pos_bound (Z.of_nat n + 4) 5 ltac:(lia)).
    pose proof (Z.div_mod (4 * Z.of_nat n) 5 ltac:(lia)).
    pose proof (Z.mod_pos_bound (4 * Z.of_nat n) 5 ltac:(lia)).
    simpl Z.of_nat. lia. }
  rewrite Hk in Hsplit.
  set (k := (4 * n / 5)%nat) in *.
  destruct Hsplit as (Hk0 & Hkn & Hxtr & Hxte & Hytr & Hyte).
  assert (Hyte' : y_test g = map target (skipn k table)).
  { rewrite Hyte, <- skipn_map. apply firstn_all2.
    rewrite length_skipn, length_map. fold n. lia. }
  split; [exact Hobs|].
  split; [rewrite Hobs; apply sort_values_sorted|].
  split; [rewrite Hobs; apply sort_values_perm|].
  split; [now rewrite Hxtr, firstn_map|].
  split; [now rewrite Hytr, firstn_map|].
  split; [now rewrite Hxte, skipn_map|].
  split; [exact Hyte'|].
  split; [|lia].
  rewrite Hxte, length_skipn, length_map. fold n.
  apply Nat2Z.inj. rewrite Nat2Z.inj_sub by lia.
  unfold k. rewrite !Nat2Z.inj_div, Nat2Z.inj_mul, Nat2Z.inj_add.
  pose proof (Z.div_mod (Z.of_nat n + 4) 5 ltac:(lia)).
  pose proof (Z.mod_pos_bound (Z.of_nat n + 4) 5 ltac:(lia)).
  pose proof (Z.div_mod (4 * Z.of_nat n) 5 ltac:(lia)).
  pose proof (Z.mod_pos_bound (4 * Z.of_nat n) 5 ltac:(lia)).
  simpl Z.of_nat. lia.
Qed.

Lemma C10_ordered_split_witness :
  exists g,
    script (fit_const 50) (fit_const 50) sqrt_sample two_skus = Ok g
    /\ map (fun r => obs (row r)) (values (df_features g)) = sort_values two_skus
    /\ X_train g = map feature_vector (firstn 6 (values (df_features g)))
    /\ X_test g = map feature_vector (skipn 6 (values (df_features g)))
    /\ y_train g = [50; 45; 96; 90; 50; 45]
    /\ y_test g = [96; 90].
Proof.
  eexists. split; [vm_compute; reflexivity|].
  destruct (C10_ordered_split
              (fit_const 50) (fit_const 50) sqrt_sample two_skus _
              ltac:(vm_compute; reflexivity))
    as (Hobs & _ & _ & Hxtr & _ & Hxte & _).
  split; [exact Hobs|].
  split; [exact Hxtr|].
  split; [exact Hxte|].
  split; vm_compute; reflexivity.
Defined.

(** * Further properties of the script *)

(** ** When the script runs *)

Lemma unique_nil_inv (l : list Z) : unique l = [] -> l = [].
Proof. destruct l; [reflexivity | discriminate]. Qed.

Lemma loop_frames_nonempty (csv : list Observation) :
  csv <> [] -> fst (feature_loop (load csv)) <> [].
Proof.
  intros Hne Hnil. rewrite feature_loop_frames in Hnil.
  apply map_eq_nil, unique_nil_inv in Hnil.
  rewrite sku_column_load in Hnil. apply map_eq_nil in Hnil.
  apply Hne, length_zero_iff_nil.
  now rewrite <- sort_values_length, Hnil.
Qed.

Lemma feature_engineering_ok (csv : list Observation) :
  csv <> [] -> exists F, feature_engineering csv = Ok F.
Proof.
  intros Hne. unfold feature_engineering, pd_concat.
  pose proof (loop_frames_nonempty csv Hne) as Hf.
  destruct (fst (feature_loop (load csv))); [contradiction|].
  eexists. reflexivity.
Qed.

Lemma feature_engineering_length (csv : list Observation) (F : Frame FeatureRow) :
  feature_engineering csv = Ok F -> length (values F) = length csv.
Proof.
  intros H. apply feature_engineering_inv in H. destruct H as (_ & _ & Hrows).
  rewrite <- (length_map row), Hrows, length_map. apply sort_values_length.
Qed.

(** X1.  Feature engineering fails, with the [ValueError] of [pd.concat]
    on an empty list, exactly when the input has no row.  Otherwise
    [df_features] has one row per observation, labelled 0, 1, 2, ..., and
    its raw columns are the input sorted by product then date. *)
Theorem X1_feature_table_shape (csv : list Observation) :
  match feature_engineering csv with
  | Raise e => csv = [] /\ e = "ValueError"%string
  | Ok F =>
      csv <> []
      /\ index F = range_index (length csv)
      /\ map (fun r => obs (row r)) (values F) = sort_values csv
      /\ Permutation csv (map (fun r => obs (row r)) (values F))
      /\ StronglySorted key_le (map (fun r => obs (row r)) (values F))
      /\ Forall (fun r => row r = add_calendar (obs (row r))) (values F)
  end.
Proof.
  destruct csv as [|o csv].
  - vm_compute. auto.
  - destruct (feature_engineering_ok (o :: csv)) as [F HF]; [discriminate|].
    rewrite HF.
    destruct (feature_engineering_inv _ _ HF) as (_ & Hix & Hrows).
    assert (Hobs : map (fun r => obs (row r)) (values F)
                   = sort_values (o :: csv)).
    { rewrite <- (map_map row obs), Hrows, map_map. apply map_id. }
    split; [discriminate|]. split; [exact Hix|]. split; [exact Hobs|].
    split; [rewrite Hobs; apply sort_values_perm|].
    split; [rewrite Hobs; apply sort_values_sorted|].
    apply Forall_forall. intros r Hr.
    apply (in_map row) in Hr. rewrite Hrows in Hr.
    apply in_map_iff in Hr. destruct Hr as [o' [Ho' _]].
    now rewrite <- Ho'.
Qed.

(** X2.  The script reaches the end of model selection exactly when the
    input has at least two rows.  With no row [pd.concat] raises, and with a
    single row [train_test_split] is left with an empty training partition:
    both are a [ValueError]. *)
Theorem X2_script_needs_two_rows
    (fit_rf fit_gb : list FV.t -> list Z -> Model) (np_sqrt : Q -> Q)
    (csv : list Observation) :
  if (length csv <? 2)%nat
  then script fit_rf fit_gb np_sqrt csv = Raise "ValueError"
  else exists g, script fit_rf fit_gb np_sqrt csv = Ok g.
Proof.
  destruct csv as [|o csv]; [reflexivity|].
  destruct (feature_engineering_ok (o :: csv)) as [F HF]; [discriminate|].
  pose proof (feature_engineering_length _ _ HF) as Hlen.
  unfold script. cbv zeta.
  change (pd_concat (fst (feature_loop (load (o :: csv)))))
    with (feature_engineering (o :: csv)).
  rewrite HF. cbn [bind]. unfold dropna, train_test_split.
  rewrite ceil_fifth, length_map, Hlen. cbv zeta.
  set (n := Z.of_nat (length (o :: csv))).
  pose proof (Z.div_mod (n + 4) 5 ltac:(lia)) as Hd.
  pose proof (Z.mod_pos_bound (n + 4) 5 ltac:(lia)) as Hm.
  destruct (length (o :: csv) <? 2)%nat eqn:Hsmall.
  - apply Nat.ltb_lt in Hsmall.
    replace (n - (n + 4) / 5 =? 0) with true
      by (symmetry; apply Z.eqb_eq; lia).
    reflexivity.
  - apply Nat.ltb_ge in Hsmall.
    replace (n - (n + 4) / 5 =? 0) with false
      by (symmetry; apply Z.eqb_neq; lia).
    cbn [bind]. destruct (select_best _ _ _ _) as [[bm nm] bmet].
    eexists. reflexivity.
Qed.

Lemma holdout_length
    (fit_rf fit_gb : list FV.t -> list Z -> Model) (np_sqrt : Q -> Q)
    (csv : list Observation) (g : Globals) :
  script fit_rf fit_gb np_sqrt csv = Ok g ->
  length (y_test g) = ((length csv + 4) / 5)%nat
  /\ length (values (df_features g)) = length csv.
Proof.
  intros Hrun.
  destruct (script_inv _ _ _ _ _ Hrun) as (Hfe & _ & Hsplit & _).
  pose proof (feature_engineering_length _ _ Hfe) as Hlen.
  split; [|exact Hlen].
  apply train_test_split_inv in Hsplit.
  rewrite length_map in Hsplit. cbv zeta in Hsplit. unfold dropna in Hsplit.
  rewrite Hlen in Hsplit.
  set (n := length csv) in *.
  destruct Hsplit as (Hk0 & Hkn & _ & _ & _ & Hyte).
  rewrite Hyte, length_firstn, length_skipn, length_map, Hlen. fold n.
  apply Nat2Z.inj. rewrite Nat2Z.inj_div, Nat2Z.inj_add.
  pose proof (Z.div_mod (Z.of_nat n + 4) 5 ltac:(lia)).
  pose proof (Z.mod_pos_bound (Z.of_nat n + 4) 5 ltac:(lia)).
  simpl Z.of_nat. lia.
Qed.

Lemma r2_score_defined (y_true : list Z) (y_pred : list Q) :
  r2_score y_true y_pred = None <-> (length y_true < 2)%nat.
Proof.
  unfold r2_score.
  destruct (length y_true <? 2)%nat eqn:Hlen.
  - apply Nat.ltb_lt in Hlen. tauto.
  - apply Nat.ltb_ge in Hlen.
    split; [|lia].
    destruct (negb (Qeq_bool _ 0)); [discriminate|].
    destruct (negb (Qeq_bool _ 0)); discriminate.
Qed.

(** X3.  The holdout of a table of fewer than six rows is a single row, on
    which R2 is undefined for both models: the comparison of line 202 is then
    false and the script retains Gradient Boosting whatever the two models
    predict.  From six rows on both R2 values are defined. *)
Theorem X3_small_tables_select_boosting
    (fit_rf fit_gb : list FV.t -> list Z -> Model) (np_sqrt : Q -> Q)
    (csv : list Observation) (g : Globals) :
  script fit_rf fit_gb np_sqrt csv = Ok g ->
  if (length csv <? 6)%nat
  then length (y_test g) = 1%nat
       /\ R2 (metrics_rf g) = None /\ R2 (metrics_gb g) = None
       /\ model_name g = "Gradient Boosting"%string
       /\ best_model g = gb_model g
       /\ best_metrics g = metrics_gb g
  else R2 (metrics_rf g) <> None /\ R2 (metrics_gb g) <> None.
Proof.
  intros Hrun.
  destruct (holdout_length _ _ _ _ _ Hrun) as [Hlen _].
  destruct (holdout_shape _ _ _ _ _ Hrun) as (Hne & _).
  destruct (script_inv _ _ _ _ _ Hrun)
    as (_ & _ & _ & _ & _ & _ & _ & Hmrf & Hmgb & Hsel).
  assert (Hr2 : R2 (metrics_rf g) = r2_score (y_test g) (y_pred_rf g)
                /\ R2 (metrics_gb g) = r2_score (y_test g) (y_pred_gb g)).
  { rewrite Hmrf, Hmgb. split; reflexivity. }
  destruct Hr2 as [Hrf Hgb].
  destruct (length csv <? 6)%nat eqn:Hsmall.
  - apply Nat.ltb_lt in Hsmall.
    assert (Hone : length (y_test g) = 1%nat).
    { assert (Hpos : (0 < length (y_test g))%nat)
        by (destruct (y_test g); [contradiction | simpl; lia]).
      rewrite Hlen in Hpos |- *.
      assert (((length csv + 4) / 5 < 2)%nat)
        by (apply Nat.Div0.div_lt_upper_bound; lia).
      lia. }
    assert (Hnone_rf : R2 (metrics_rf g) = None)
      by (rewrite Hrf; apply r2_score_defined; lia).
    assert (Hnone_gb : R2 (metrics_gb g) = None)
      by (rewrite Hgb; apply r2_score_defined; lia).
    rewrite select_best_else in Hsel
      by (apply float_gt_nan; now left).
    inversion Hsel. repeat split; congruence.
  - apply Nat.ltb_ge in Hsmall.
    assert (Htwo : (2 <= length (y_test g))%nat).
    { rewrite Hlen. apply Nat.div_le_lower_bound; lia. }
    rewrite Hrf, Hgb, !r2_score_defined. lia.
Qed.

Lemma X3_small_tables_select_boosting_witness :
  exists g,
    script (fit_const 90) (fit_const 0) sqrt_sample one_sku = Ok g
    /\ y_test g = [90]
    /\ y_pred_rf g = [90%Q]
    /\ length (y_test g) = 1%nat
    /\ R2 (metrics_rf g) = None /\ R2 (metrics_gb g) = None
    /\ model_name g = "Gradient Boosting"%string
    /\ best_model g = gb_model g
    /\ best_metrics g = metrics_gb g.
Proof.
  eexists. split; [vm_compute; reflexivity|].
  split; [vm_compute; reflexivity|].
  split; [vm_compute; reflexivity|].
  exact (X3_small_tables_select_boosting
           (fit_const 90) (fit_const 0) sqrt_sample one_sku _
           ltac:(vm_compute; reflexivity)).
Defined.

(** ** The products the loop iterates over *)

Lemma unique_sorted (l : list Z) :
  StronglySorted Z.le l -> StronglySorted Z.lt (unique l).
Proof.
  induction 1 as [|a l Hs IH Hall]; simpl; constructor.
  - now apply StronglySorted_filter.
  - rewrite Forall_forall in *. intros x Hx.
    apply filter_In in Hx. destruct Hx as [Hx Hne].
    apply negb_true_iff, Z.eqb_neq in Hne.
    apply unique_In in Hx. specialize (Hall x Hx). lia.
Qed.

Lemma last_of_increasing (l : list Z) (m : Z) :
  StronglySorted Z.lt l ->
  last (map Some l) None = Some m ->
  In m l /\ forall x, In x l -> x <= m.
Proof.
  intros Hs Hlast.
  destruct l as [|a l]; [discriminate|].
  destruct (@exists_last _ (a :: l)) as [l' [x Hl]]; [discriminate|].
  rewrite Hl in *. rewrite map_app in Hlast. simpl in Hlast.
  rewrite last_last in Hlast. inversion Hlast; subst x.
  split; [apply in_or_app; right; now left|].
  intros x Hx. apply in_app_or in Hx. destruct Hx as [Hx|[<-|[]]]; [|lia].
  assert (x < m); [|lia].
  apply (StronglySorted_app_lt _ _ Hs); [exact Hx | now left].
Qed.

(** X4.  When the feature loop ends, the module-level [product_id] is the
    largest product identifier of the input, so every later forecast,
    whichever product it is requested for, feeds the model that identifier as
    its product feature. *)
Theorem X4_loop_variable_is_largest_product
    (fit_rf fit_gb : list FV.t -> list Z -> Model) (np_sqrt : Q -> Q)
    (csv : list Observation) (g : Globals) :
  script fit_rf fit_gb np_sqrt csv = Ok g ->
  exists m,
    product_id g = Some m
    /\ (exists o, In o csv /\ ID_PRODUTO o = m)
    /\ (forall o, In o csv -> ID_PRODUTO o <= m)
    /\ forall p days steps,
        forecast_steps g p days = Ok steps ->
        Forall (fun s => FV.ID_PRODUTO (x_future s) = m) steps.
Proof.
  intros Hrun.
  assert (Hne : csv <> []).
  { intros ->. discriminate Hrun. }
  destruct csv as [|o0 csv0] eqn:Hcsv; [contradiction|]. rewrite <- Hcsv in *.
  assert (Ho0 : In o0 csv) by (rewrite Hcsv; now left).
  destruct (script_product_id _ _ _ _ _ Hrun o0 Ho0) as [m Hm].
  destruct (script_inv _ _ _ _ _ Hrun) as (_ & Hpid & _).
  rewrite feature_loop_product_id, sku_column_load, Hm in Hpid.
  symmetry in Hpid.
  apply last_of_increasing in Hpid;
    [|apply unique_sorted, sort_values_ids_sorted].
  destruct Hpid as [Hin Hmax].
  exists m. split; [exact Hm|]. split; [|split].
  - apply unique_In, in_map_iff in Hin. destruct Hin as [o [Ho Hino]].
    exists o. split; [|exact Ho].
    apply (Permutation_in _ (Permutation_sym (sort_values_perm csv))), Hino.
  - intros o Ho. apply Hmax, In_unique, in_map.
    apply (Permutation_in _ (sort_values_perm csv)), Ho.
  - intros p days steps Hsteps.
    destruct (forecast_steps_inv _ _ _ _ Hsteps) as (last_row & _ & Hall).
    clear Hsteps. induction Hall as [|d s ds ss Hs _ IH]; constructor; auto.
    destruct (forecast_step_inv _ _ _ _ Hs) as (pid & Hg & _ & Hx & _).
    rewrite Hx. simpl. congruence.
Qed.

Lemma X4_loop_variable_is_largest_product_witness :
  exists g,
    script (fit_const 50) (fit_const 50) sqrt_sample two_skus = Ok g
    /\ exists m,
        product_id g = Some m
        /\ (exists o, In o two_skus /\ ID_PRODUTO o = m)
        /\ (forall o, In o two_skus -> ID_PRODUTO o <= m)
        /\ forall p days steps,
            forecast_steps g p days = Ok steps ->
            Forall (fun s => FV.ID_PRODUTO (x_future s) = m) steps.
Proof.
  eexists. split; [vm_compute; reflexivity|].
  exact (X4_loop_variable_is_largest_product
           (fit_const 50) (fit_const 50) sqrt_sample two_skus _
           ltac:(vm_compute; reflexivity)).
Defined.

(** ** The forecast that the script requests *)

Lemma forecast_steps_absent (g : Globals) (p days : Z) :
  (forall r, In r (values (df_features g)) -> sku_of r <> p) ->
  forecast_steps g p days = Raise "IndexError".
Proof.
  intros Habs. unfold forecast_steps.
  rewrite iloc_last_absent; [reflexivity|].
  apply map_eq_nil with (f := snd).
  change (values (select_product sku_of p (df_features g)) = []).
  rewrite values_select_product. apply filter_none.
  intros r Hr. apply Z.eqb_neq. now apply Habs.
Qed.

Lemma forecast_steps_present
    (fit_rf fit_gb : list FV.t -> list Z -> Model) (np_sqrt : Q -> Q)
    (csv : list Observation) (g : Globals) (p days : Z) (o : Observation) :
  script fit_rf fit_gb np_sqrt csv = Ok g ->
  In o csv -> ID_PRODUTO o = p ->
  exists last_row steps,
    iloc_last (select_product sku_of p (df_features g)) = Ok last_row
    /\ forecast_steps g p days = Ok steps
    /\ Forall2 (fun d s => forecast_step g last_row d = Ok s)
               (py_range 1 (days + 1)) steps.
Proof.
  intros Hrun Ho Hop.
  destruct (script_product_present _ _ _ _ _ Hrun p o Ho Hop)
    as [last_row Hlast].
  destruct (script_product_id _ _ _ _ _ Hrun o Ho) as [pid Hpid].
  destruct (for_each_total (forecast_step g last_row) (py_range 1 (days + 1)))
    as [steps Hsteps].
  { intros d _. unfold forecast_step. rewrite Hpid. eexists. reflexivity. }
  exists last_row, steps. split; [exact Hlast|]. split.
  - unfold forecast_steps. now rewrite Hlast.
  - now apply for_each_inv.
Qed.



(** ** The forecast band and the horizon *)

Lemma rint_near_floor (x : Q) : Qfloor x <= rint x <= Qfloor x + 1.
Proof.
  unfold rint.
  destruct (x - inject_Z (Qfloor x) ?= 1 # 2)%Q; [|lia|lia].
  destruct (Z.even (Qfloor x)); lia.
Qed.

Lemma rint_le (x y : Q) : (x <= y)%Q -> rint x <= rint y.
Proof.
  intros Hxy.
  pose proof (Qfloor_resp_le _ _ Hxy) as Hfl.
  pose proof (rint_near_floor x) as Hx.
  pose proof (rint_near_floor y) as Hy.
  destruct (Z.eq_dec (Qfloor x) (Qfloor y)) as [Heq|Hne]; [|lia].
  clear Hx Hy. unfold rint. rewrite <- Heq.
  destruct (x - inject_Z (Qfloor x) ?= 1 # 2)%Q eqn:Hcx;
    destruct (y - inject_Z (Qfloor x) ?= 1 # 2)%Q eqn:Hcy;
    try (destruct (Z.even (Qfloor x)); lia); try lia; exfalso.
  - apply Qeq_alt in Hcx. apply Qlt_alt in Hcy. lra.
  - apply Qgt_alt in Hcx. apply Qeq_alt in Hcy. lra.
  - apply Qgt_alt in Hcx. apply Qlt_alt in Hcy. lra.
Qed.

Lemma round1_le (x y : Q) : (x <= y)%Q -> (round1 x <= round1 y)%Q.
Proof.
  intros Hxy. unfold round1, Qdiv. change (/ 10)%Q with (1 # 10)%Q.
  assert (H : (inject_Z (rint (x * 10)) <= inject_Z (rint (y * 10)))%Q).
  { rewrite <- Zle_Qle. apply rint_le. lra. }
  lra.
Qed.

Lemma Qsum_nonneg (l : list Q) :
  Forall (fun x => (0 <= x)%Q) l -> (0 <= Qsum l)%Q.
Proof.
  induction 1 as [|x l Hx _ IH]; simpl; [apply Qle_refl|].
  lra.
Qed.

Lemma length_pos_Q {A} (l : list A) :
  l <> [] -> (0 < inject_Z (Z.of_nat (length l)))%Q.
Proof.
  intros Hne. change 0%Q with (inject_Z 0). rewrite <- Zlt_Qlt.
  destruct l; [contradiction | simpl; lia].
Qed.

Lemma Qmean_bounds (lo hi : Q) (l : list Q) :
  l <> [] ->
  Forall (fun x => (lo <= x /\ x <= hi)%Q) l ->
  (lo <= Qmean l /\ Qmean l <= hi)%Q.
Proof.
  intros Hne Hall. unfold Qmean.
  pose proof (length_pos_Q l Hne) as Hn.
  assert (Hsum : (lo * inject_Z (Z.of_nat (length l)) <= Qsum l
                  /\ Qsum l <= hi * inject_Z (Z.of_nat (length l)))%Q).
  { clear Hne Hn. induction Hall as [|x l [Hlo Hhi] _ IH].
    - cbn [Qsum fold_right length].
      change (inject_Z (Z.of_nat 0)) with 0%Q. split; lra.
    - cbn [Qsum fold_right length]. rewrite Nat2Z.inj_succ.
      unfold Z.succ. rewrite inject_Z_plus.
      fold (Qsum l). change (inject_Z 1) with 1%Q. destruct IH. split; lra. }
  destruct Hsum as [Hlo Hhi]. split.
  - apply Qle_shift_div_l; assumption.
  - apply Qle_shift_div_r; assumption.
Qed.

Lemma Qmean_nonneg (l : list Q) :
  Forall (fun x => (0 <= x)%Q) l -> (0 <= Qmean l)%Q.
Proof.
  intros H. destruct l as [|x l]; [discriminate|].
  unfold Qmean. apply Qle_shift_div_l.
  - apply length_pos_Q. discriminate.
  - rewrite Qmult_0_l. now apply Qsum_nonneg.
Qed.

Lemma sq_nonneg (x : Q) : (0 <= sq x)%Q.
Proof.
  unfold sq. destruct (Qlt_le_dec x 0) as [Hneg|Hpos].
  - setoid_replace (x * x)%Q with ((- x) * (- x))%Q by ring.
    apply Qmult_le_0_compat; lra.
  - now apply Qmult_le_0_compat.
Qed.

Lemma mean_squared_error_nonneg (y_true : list Z) (y_pred : list Q) :
  (0 <= mean_squared_error y_true y_pred)%Q.
Proof.
  unfold mean_squared_error. apply Qmean_nonneg, Forall_forall.
  intros x Hx. unfold zip_with in Hx. apply in_map_iff in Hx.
  destruct Hx as [[a b] [<- _]]. apply sq_nonneg.
Qed.

Lemma forecast_step_point (g : Globals) (last_row : FeatureRow) (d : Z)
    (s : Step) :
  forecast_step g last_row d = Ok s ->
  let margin := (RMSE (best_metrics g) * (15 # 10))%Q in
  in_range (pred_stock s)
  /\ Predicted_Stock (point s) = round1 (pred_stock s)
  /\ Lower_Limit (point s) = round1 (Qmax 0 (pred_stock s - margin))
  /\ Upper_Limit (point s) = round1 (Qmin 100 (pred_stock s + margin))
  /\ Confidence (point s) = "85%"%string.
Proof.
  unfold forecast_step. destruct (product_id g) as [pid|]; [|discriminate].
  intros H. inversion H; subst; clear H. simpl.
  repeat split; try reflexivity; apply np_clip_in_range.
Qed.

(** X6.  With a square root that is non-negative on non-negative numbers,
    every forecast point is an ordered band inside the stock range:
    [0 <= Lower_Limit <= Predicted_Stock <= Upper_Limit <= 100], and its
    confidence label is the constant "85%". *)
Theorem X6_forecast_band
    (fit_rf fit_gb : list FV.t -> list Z -> Model) (np_sqrt : Q -> Q)
    (csv : list Observation) (g : Globals) (p days : Z)
    (points : list ForecastPoint) :
  (forall x, (0 <= x)%Q -> (0 <= np_sqrt x)%Q) ->
  script fit_rf fit_gb np_sqrt csv = Ok g ->
  forecast_next_days g p days = Ok points ->
  Forall (fun pt =>
            (0 <= Lower_Limit pt)%Q
            /\ (Lower_Limit pt <= Predicted_Stock pt)%Q
            /\ (Predicted_Stock pt <= Upper_Limit pt)%Q
            /\ (Upper_Limit pt <= 100)%Q
            /\ Confidence pt = "85%"%string) points.
Proof.
  intros Hsqrt Hrun Hfc.
  assert (Hrmse : (0 <= RMSE (best_metrics g))%Q).
  { destruct (script_inv _ _ _ _ _ Hrun)
      as (_ & _ & _ & _ & _ & _ & _ & Hmrf & Hmgb & Hsel).
    unfold select_best in Hsel.
    destruct (float_gt _ _); apply (f_equal snd) in Hsel; simpl in Hsel;
      rewrite Hsel; [rewrite Hmrf | rewrite Hmgb]; simpl;
      apply Hsqrt, mean_squared_error_nonneg. }
  unfold forecast_next_days in Hfc.
  destruct (forecast_steps g p days) as [steps|] eqn:Hsteps;
    [|discriminate].
  simpl in Hfc. inversion Hfc; subst points; clear Hfc.
  destruct (forecast_steps_inv _ _ _ _ Hsteps) as (last_row & _ & Hall).
  apply Forall_map.
  clear Hsteps. induction Hall as [|d s ds ss Hs _ IH]; constructor; auto.
  destruct (forecast_step_point _ _ _ _ Hs)
    as ([Hp0 Hp100] & Hpred & Hlow & Hup & Hconf).
  set (margin := (RMSE (best_metrics g) * (15 # 10))%Q) in *.
  assert (Hmargin : (0 <= margin)%Q) by (unfold margin; lra).
  rewrite Hpred, Hlow, Hup.
  assert (Hlo_in : in_range (Qmax 0 (pred_stock s - margin))).
  { split; [apply Q.le_max_l|]. apply Q.max_lub; lra. }
  assert (Hup_in : in_range (Qmin 100 (pred_stock s + margin))).
  { split; [apply Q.min_glb; lra | apply Q.le_min_l]. }
  split; [apply (round1_in_range _ Hlo_in)|].
  split; [apply round1_le, Q.max_lub; lra|].
  split; [apply round1_le, Q.min_glb; lra|].
  split; [apply (round1_in_range _ Hup_in) | exact Hconf].
Qed.

Lemma X6_forecast_band_witness :
  exists g points,
    (forall x, (0 <= x)%Q -> (0 <= sqrt_sample x)%Q)
    /\ script (fit_const 120) (fit_const 97) sqrt_sample two_skus = Ok g
    /\ forecast_next_days g 1000 7 = Ok points
    /\ Forall (fun pt =>
                 (0 <= Lower_Limit pt)%Q
                 /\ (Lower_Limit pt <= Predicted_Stock pt)%Q
                 /\ (Predicted_Stock pt <= Upper_Limit pt)%Q
                 /\ (Upper_Limit pt <= 100)%Q
                 /\ Confidence pt = "85%"%string) points.
Proof.
  eexists. eexists.
  split; [intros x Hx; exact Hx|].
  split; [vm_compute; reflexivity|].
  match goal with
  | |- forecast_next_days ?G _ _ = _ /\ _ => pose (g0 := G)
  end.
  split; [vm_compute; reflexivity|].
  apply (X6_forecast_band (fit_const 120) (fit_const 97) sqrt_sample
           two_skus g0 1000 7);
    [intros x Hx; exact Hx | vm_compute; reflexivity | vm_compute; reflexivity].
Defined.

Lemma for_each_firstn {A B} (body : A -> result B) (l : list A) (bs : list B)
    (k : nat) :
  for_each body l = Ok bs ->
  for_each body (firstn k l) = Ok (firstn k bs).
Proof.
  revert l bs. induction k as [|k IH]; intros l bs H; [reflexivity|].
  destruct l as [|a l]; simpl in H.
  - inversion H. reflexivity.
  - destruct (body a) as [b|] eqn:Hb; simpl in H; [|discriminate].
    destruct (for_each body l) as [bs'|] eqn:Hbs; simpl in H; [|discriminate].
    inversion H; subst. simpl. rewrite Hb. simpl.
    now rewrite (IH l bs' Hbs).
Qed.

Lemma py_range_prefix (a n1 n2 : Z) :
  n1 <= n2 ->
  py_range a (a + n1) = firstn (Z.to_nat n1) (py_range a (a + n2)).
Proof.
  intros Hle. unfold py_range.
  rewrite firstn_map, firstn_seq_min. do 2 f_equal. lia.
Qed.



(** ** Rows that follow each other *)

(** Two rows that follow each other in [df_features] and belong to one
    product follow each other in the frame of that product. *)
Lemma feature_rows_adjacent (csv : list Observation) (F : Frame FeatureRow)
    (i : nat) (fr1 fr2 : FeatureRow) :
  feature_engineering csv = Ok F ->
  nth_error (values F) i = Some fr1 ->
  nth_error (values F) (S i) = Some fr2 ->
  sku_of fr1 = sku_of fr2 ->
  let g := select_product sku (sku_of fr2) (load csv) in
  exists j,
    nth_error g j = Some (Z.of_nat i, row fr1)
    /\ nth_error g (S j) = Some (Z.of_nat (S i), row fr2)
    /\ nth_error (prod_features g) j = Some (Z.of_nat i, fr1)
    /\ nth_error (prod_features g) (S j) = Some (Z.of_nat (S i), fr2).
Proof.
  intros HF H1 H2 Hsku. cbv zeta.
  destruct (feature_row_at _ _ _ _ HF H1) as (j1 & Hg1 & Hp1).
  destruct (feature_row_at _ _ _ _ HF H2) as (j2 & Hg2 & Hp2).
  rewrite Hsku in Hg1, Hp1.
  set (g := select_product sku (sku_of fr2) (load csv)) in *.
  assert (Hlt : (j1 < j2)%nat)
    by (apply (group_position_order csv _ _ _ _ _ _ _ Hg1 Hg2); lia).
  assert (Hj2 : j2 = S j1).
  { destruct (Nat.eq_dec j2 (S j1)) as [Heq|Hne]; [exact Heq|]. exfalso.
    assert (Hmid : (S j1 < length g)%nat).
    { assert (j2 < length g)%nat by (apply nth_error_Some; congruence). lia. }
    destruct (nth_error g (S j1)) as [[l r]|] eqn:Hm;
      [|apply nth_error_None in Hm; lia].
    pose proof (group_position_order csv _ j1 (S j1) _ _ _ _ Hg1 Hm) as _.
    destruct (nth_error_frame _ _ _ _ Hg1) as [Hi1 _].
    destruct (nth_error_frame _ _ _ _ Hg2) as [Hi2 _].
    destruct (nth_error_frame _ _ _ _ Hm) as [Him _].
    pose proof (group_labels_increasing csv (sku_of fr2)) as Hinc.
    fold g in Hinc.
    pose proof (increasing_nth_error _ j1 (S j1) _ _ Hinc ltac:(lia) Hi1 Him).
    pose proof (increasing_nth_error _ (S j1) j2 _ _ Hinc ltac:(lia) Him Hi2).
    lia. }
  subst j2. exists j1. auto.
Qed.

(** ** The cells of a feature row *)

Lemma nth_error_shift1 {A} (s : list A) (j : nat) :
  (j < length s)%nat ->
  nth_error (shift1 s) j
  = match j with
    | O => Some None
    | S j' => option_map Some (nth_error s j')
    end.
Proof.
  intros Hj. unfold shift1. rewrite nth_error_firstn.
  replace (j <? length s)%nat with true by (symmetry; now apply Nat.ltb_lt).
  destruct j as [|j']; [reflexivity|].
  simpl. apply nth_error_map.
Qed.

Lemma nth_error_rolling_mean (w : nat) (s : list Q) (j : nat) :
  (j < length s)%nat ->
  nth_error (rolling_mean w s) j = Some (Qmean (window w s j)).
Proof.
  intros Hj. unfold rolling_mean.
  rewrite nth_error_map, (nth_error_nth' _ 0%nat) by now rewrite length_seq.
  now rewrite seq_nth.
Qed.

Lemma feature_cells (g : Frame DfRow) (j : nat) (i : Z) (fr : FeatureRow) :
  nth_error (prod_features g) j = Some (i, fr) ->
  nth_error g j = Some (i, row fr)
  /\ PREV_DAY_SALES fr
     = match j with
       | O => 0%Q
       | S j' => (nth j' (col_stock g) 0 - inject_Z (stock (row fr)))%Q
       end
  /\ PREVIOUS_PRICE fr
     = match j with
       | O => price (row fr)
       | S j' => nth j' (col_price g) 0%Q
       end
  /\ PRICE_VARIATION fr = (price (row fr) - PREVIOUS_PRICE fr)%Q
  /\ MA_3D fr = Qmean (window 3 (col_stock g) j)
  /\ MA_7D fr = Qmean (window 7 (col_stock g) j)
  /\ TREND_3D fr = (inject_Z (stock (row fr)) - MA_3D fr)%Q
  /\ LOW_STOCK fr = astype_int (stock (row fr) <? 20)
  /\ NEEDS_REPLENISH fr = astype_int (stock (row fr) <? 30)
  /\ DAYS_SINCE_RESTOCK fr = days_since_restock g i.
Proof.
  intros H. rewrite prod_features_nth in H.
  destruct (nth_error g j) as [[i' r]|] eqn:Hg; [|discriminate].
  simpl in H. inversion H; subst i' fr; clear H. cbn [row
    PREV_DAY_SALES PREVIOUS_PRICE PRICE_VARIATION MA_3D MA_7D TREND_3D
    LOW_STOCK NEEDS_REPLENISH DAYS_SINCE_RESTOCK].
  assert (Hj : (j < length g)%nat) by (apply nth_error_Some; congruence).
  assert (Hstock : nth_error (col_stock g) j = Some (inject_Z (stock r))).
  { unfold col_stock, values. now rewrite !nth_error_map, Hg. }
  assert (Hprice : nth_error (col_price g) j = Some (price r)).
  { unfold col_price, values. now rewrite !nth_error_map, Hg. }
  assert (Hprev : forall (s : list Q) j', j = S j' ->
            length s = length g -> nth_error s j' = Some (nth j' s 0%Q)).
  { intros s j' -> Hlen. apply nth_error_nth'. lia. }
  assert (Hpp : nth_error (col_PREVIOUS_PRICE g) j
                = Some match j with
                       | O => price r
                       | S j' => nth j' (col_price g) 0%Q
                       end).
  { unfold col_PREVIOUS_PRICE, fillna_with.
    rewrite nth_error_zip_with, nth_error_shift1, Hprice
      by now rewrite col_price_length.
    destruct j as [|j']; [reflexivity|].
    now rewrite (Hprev _ j' eq_refl (col_price_length g)). }
  assert (Hma3 : nth_error (col_MA_3D g) j
                 = Some (Qmean (window 3 (col_stock g) j))).
  { apply nth_error_rolling_mean. now rewrite col_stock_length. }
  split; [reflexivity|]. split; [|split; [|split; [|split; [|split;
    [|split; [|split; [|split]]]]]]].
  - apply nth_error_nth. unfold col_PREV_DAY_SALES, fillna.
    rewrite nth_error_map, nth_error_zip_with, nth_error_shift1, Hstock
      by now rewrite col_stock_length.
    destruct j as [|j']; [reflexivity|].
    now rewrite (Hprev _ j' eq_refl (col_stock_length g)).
  - now apply nth_error_nth.
  - rewrite (nth_error_nth _ _ _ Hpp).
    apply nth_error_nth. unfold col_PRICE_VARIATION.
    now rewrite nth_error_zip_with, Hprice, Hpp.
  - now apply nth_error_nth.
  - apply nth_error_nth, nth_error_rolling_mean. now rewrite col_stock_length.
  - rewrite (nth_error_nth _ _ _ Hma3).
    apply nth_error_nth. unfold col_TREND_3D.
    now rewrite nth_error_zip_with, Hstock, Hma3.
  - apply nth_error_nth. unfold col_LOW_STOCK, values.
    now rewrite !nth_error_map, Hg.
  - apply nth_error_nth. unfold col_NEEDS_REPLENISH, values.
    now rewrite !nth_error_map, Hg.
  - apply nth_error_nth. unfold col_DAYS_SINCE_RESTOCK, index.
    now rewrite !nth_error_map, Hg.
Qed.

(** ** Rows of the feature table *)

(** X8.  In every row of [df_features] the derived columns agree with the
    raw columns of that same row: [TREND_3D] is the stock minus [MA_3D],
    [PRICE_VARIATION] is the price minus [PREVIOUS_PRICE], [LOW_STOCK] and
    [NEEDS_REPLENISH] are 1 exactly below 20 and below 30, so that every
    low-stock day is also a needs-replenish day. *)
Theorem X8_row_consistency
    (csv : list Observation) (F : Frame FeatureRow) (r : FeatureRow) :
  feature_engineering csv = Ok F ->
  In r (values F) ->
  TREND_3D r = (inject_Z (stock (row r)) - MA_3D r)%Q
  /\ PRICE_VARIATION r = (price (row r) - PREVIOUS_PRICE r)%Q
  /\ (LOW_STOCK r = 1 <-> stock (row r) < 20)
  /\ (LOW_STOCK r = 0 <-> 20 <= stock (row r))
  /\ (NEEDS_REPLENISH r = 1 <-> stock (row r) < 30)
  /\ (NEEDS_REPLENISH r = 0 <-> 30 <= stock (row r))
  /\ (LOW_STOCK r = 1 -> NEEDS_REPLENISH r = 1).
Proof.
  intros HF Hr. apply In_nth_error in Hr. destruct Hr as [i Hi].
  destruct (feature_row_at _ _ _ _ HF Hi) as (j & _ & Hp).
  destruct (feature_cells _ _ _ _ Hp)
    as (_ & _ & _ & Hpv & _ & _ & Htrend & Hlow & Hneed & _).
  rewrite Hlow, Hneed. unfold astype_int.
  split; [exact Htrend|]. split; [exact Hpv|].
  destruct (stock (row r) <? 20) eqn:H20;
    destruct (stock (row r) <? 30) eqn:H30;
    rewrite ?Z.ltb_lt, ?Z.ltb_ge in H20, H30;
    repeat split; intros; try lia; try discriminate.
Qed.

Lemma X8_row_consistency_witness :
  exists F r,
    feature_engineering two_skus = Ok F
    /\ nth_error (values F) 1 = Some r
    /\ In r (values F)
    /\ TREND_3D r = (inject_Z (stock (row r)) - MA_3D r)%Q
    /\ PRICE_VARIATION r = (price (row r) - PREVIOUS_PRICE r)%Q
    /\ (LOW_STOCK r = 1 <-> stock (row r) < 20)
    /\ (LOW_STOCK r = 0 <-> 20 <= stock (row r))
    /\ (NEEDS_REPLENISH r = 1 <-> stock (row r) < 30)
    /\ (NEEDS_REPLENISH r = 0 <-> 30 <= stock (row r))
    /\ (LOW_STOCK r = 1 -> NEEDS_REPLENISH r = 1).
Proof.
  eexists. eexists.
  split; [vm_compute; reflexivity|].
  split; [vm_compute; reflexivity|].
  match goal with |- In ?R (values ?FF) /\ _ =>
    pose (F0 := FF); pose (r0 := R);
    assert (Hin : In r0 (values F0)) by (vm_compute; tauto)
  end.
  split; [exact Hin|].
  exact (X8_row_consistency two_skus F0 r0
           ltac:(vm_compute; reflexivity) Hin).
Defined.

(** X9.  From one row of [df_features] to the next one of the same
    product, [PREV_DAY_SALES] is the previous stock minus the current stock
    (negative after a restock), [PREVIOUS_PRICE] is the previous price and
    [PRICE_VARIATION] the change of price. *)
Theorem X9_day_to_day_deltas
    (csv : list Observation) (F : Frame FeatureRow) (i : nat)
    (prev cur : FeatureRow) :
  feature_engineering csv = Ok F ->
  nth_error (values F) i = Some prev ->
  nth_error (values F) (S i) = Some cur ->
  sku_of prev = sku_of cur ->
  PREV_DAY_SALES cur
  = (inject_Z (stock (row prev)) - inject_Z (stock (row cur)))%Q
  /\ PREVIOUS_PRICE cur = price (row prev)
  /\ PRICE_VARIATION cur = (price (row cur) - price (row prev))%Q.
Proof.
  intros HF H1 H2 Hsku.
  destruct (feature_rows_adjacent _ _ _ _ _ HF H1 H2 Hsku)
    as (j & Hg1 & _ & _ & Hp2).
  set (g := select_product sku (sku_of cur) (load csv)) in *.
  destruct (feature_cells _ _ _ _ Hp2) as (_ & Hpds & Hpp & Hpv & _).
  assert (Hs : nth j (col_stock g) 0%Q = inject_Z (stock (row prev))).
  { apply nth_error_nth. unfold col_stock, values.
    now rewrite !nth_error_map, Hg1. }
  assert (Hpr : nth j (col_price g) 0%Q = price (row prev)).
  { apply nth_error_nth. unfold col_price, values.
    now rewrite !nth_error_map, Hg1. }
  rewrite Hs in Hpds. rewrite Hpr in Hpp. rewrite Hpp in Hpv. auto.
Qed.

Lemma X9_day_to_day_deltas_witness :
  exists F prev cur,
    feature_engineering two_skus = Ok F
    /\ nth_error (values F) 1 = Some prev
    /\ nth_error (values F) 2 = Some cur
    /\ sku_of prev = sku_of cur
    /\ PREV_DAY_SALES cur
       = (inject_Z (stock (row prev)) - inject_Z (stock (row cur)))%Q
    /\ PREVIOUS_PRICE cur = price (row prev)
    /\ PRICE_VARIATION cur = (price (row cur) - price (row prev))%Q.
Proof.
  eexists. eexists. eexists.
  split; [vm_compute; reflexivity|].
  split; [vm_compute; reflexivity|].
  split; [vm_compute; reflexivity|].
  split; [vm_compute; reflexivity|].
  match goal with
  | |- PREV_DAY_SALES ?C = (inject_Z (stock (row ?P)) - _)%Q /\ _ =>
      pose (prev0 := P); pose (cur0 := C)
  end.
  eapply (X9_day_to_day_deltas two_skus _ 1 prev0 cur0);
    vm_compute; reflexivity.
Defined.

Lemma Qmean_single (x : Q) : (Qmean [x] == x)%Q.
Proof. unfold Qmean. simpl. field. Qed.

Lemma window_first (w : nat) (s : list Q) (x : Q) :
  (0 < w)%nat -> nth_error s 0 = Some x -> window w s 0 = [x].
Proof.
  intros Hw Hx. unfold window.
  replace (1 - w)%nat with 0%nat by lia.
  destruct s as [|y s]; [discriminate|].
  simpl in Hx. inversion Hx. reflexivity.
Qed.

(** X10.  On the first row of a product in [df_features] every derived
    column takes its fallback: no previous-day sales, the previous price is
    the price itself, no price variation, both moving averages are the stock
    level and the trend is 0.  The restock distance is 0 on a restock row
    and otherwise the position of the row in the whole table. *)
Theorem X10_first_row_of_a_product
    (csv : list Observation) (F : Frame FeatureRow) (i : nat)
    (r : FeatureRow) :
  feature_engineering csv = Ok F ->
  nth_error (values F) i = Some r ->
  (forall i' r', (i' < i)%nat -> nth_error (values F) i' = Some r' ->
                 sku_of r' <> sku_of r) ->
  PREV_DAY_SALES r = 0%Q
  /\ PREVIOUS_PRICE r = price (row r)
  /\ (PRICE_VARIATION r == 0)%Q
  /\ (MA_3D r == inject_Z (stock (row r)))%Q
  /\ (MA_7D r == inject_Z (stock (row r)))%Q
  /\ (TREND_3D r == 0)%Q
  /\ DAYS_SINCE_RESTOCK r
     = if 95 <=? stock (row r) then 0 else Z.of_nat i.
Proof.
  intros HF Hi Hfirst.
  destruct (feature_row_at _ _ _ _ HF Hi) as (j & Hg & Hp).
  set (g := select_product sku (sku_of r) (load csv)) in *.
  assert (Hj : j = 0%nat).
  { destruct j as [|j']; [reflexivity|]. exfalso.
    assert (Hlen : (j' < length g)%nat).
    { assert (S j' < length g)%nat by (apply nth_error_Some; congruence).
      lia. }
    destruct (nth_error g j') as [[l r']|] eqn:Hprev;
      [|apply nth_error_None in Hprev; lia].
    destruct (nth_error_frame _ _ _ _ Hprev) as [Hil _].
    destruct (nth_error_frame _ _ _ _ Hg) as [Hii _].
    pose proof (increasing_nth_error _ j' (S j') _ _
                  (group_labels_increasing csv (sku_of r))
                  ltac:(lia) Hil Hii) as Hlt.
    apply nth_error_In, filter_In in Hprev. destruct Hprev as [Hin Hk].
    apply Z.eqb_eq in Hk. simpl in Hk.
    destruct (load_label_position _ _ _ Hin) as (p & -> & Hp').
    destruct (feature_row_of_load _ _ _ _ _ HF Hp') as (fr' & Hfr' & Hrow).
    apply (Hfirst p fr'); [lia | exact Hfr' |].
    unfold sku_of at 1. now rewrite Hrow. }
  subst j.
  destruct (feature_cells _ _ _ _ Hp)
    as (_ & Hpds & Hpp & Hpv & Hma3 & Hma7 & Htrend & _ & _ & Hdsr).
  assert (Hs : nth_error (col_stock g) 0 = Some (inject_Z (stock (row r)))).
  { unfold col_stock, values. now rewrite !nth_error_map, Hg. }
  rewrite (window_first 3 _ _ ltac:(lia) Hs) in Hma3.
  rewrite (window_first 7 _ _ ltac:(lia) Hs) in Hma7.
  split; [exact Hpds|]. split; [exact Hpp|].
  split; [rewrite Hpv, Hpp; ring|].
  split; [rewrite Hma3; apply Qmean_single|].
  split; [rewrite Hma7; apply Qmean_single|].
  split; [rewrite Htrend, Hma3, Qmean_single; ring|].
  rewrite Hdsr.
  pose proof (days_since_restock_forward_scan g
                (group_labels_increasing csv (sku_of r))) as Hscan.
  unfold col_DAYS_SINCE_RESTOCK in Hscan.
  destruct g as [|[l0 r0] rest]; [discriminate|].
  simpl in Hg. inversion Hg; subst l0 r0.
  cbn [index map fst restock_scan] in Hscan.
  apply (f_equal (hd 0)) in Hscan. cbn [hd] in Hscan. rewrite Hscan.
  destruct (95 <=? stock (row r)); [lia | reflexivity].
Qed.

Lemma X10_first_row_of_a_product_witness :
  exists F r,
    feature_engineering two_skus = Ok F
    /\ nth_error (values F) 4 = Some r
    /\ (forall i' r', (i' < 4)%nat -> nth_error (values F) i' = Some r' ->
                      sku_of r' <> sku_of r)
    /\ PREV_DAY_SALES r = 0%Q
    /\ PREVIOUS_PRICE r = price (row r)
    /\ (PRICE_VARIATION r == 0)%Q
    /\ (MA_3D r == inject_Z (stock (row r)))%Q
    /\ (MA_7D r == inject_Z (stock (row r)))%Q
    /\ (TREND_3D r == 0)%Q
    /\ DAYS_SINCE_RESTOCK r
       = if 95 <=? stock (row r) then 0 else Z.of_nat 4.
Proof.
  eexists. eexists.
  split; [vm_compute; reflexivity|].
  split; [vm_compute; reflexivity|].
  match goal with |- ?H /\ _ => assert (Hfirst : H) end.
  { intros i' r' Hlt Hnth.
    do 4 (destruct i' as [|i'];
          [vm_compute in Hnth; inversion Hnth; vm_compute; discriminate|]).
    lia. }
  split; [exact Hfirst|].
  eapply (X10_first_row_of_a_product two_skus _ 4);
    [vm_compute; reflexivity | vm_compute; reflexivity | exact Hfirst].
Defined.

(** ** The restock distance from row to row *)

Lemma fold_max_In (d : Z) (l : list Z) : In (fold_right Z.max d l) (d :: l).
Proof.
  induction l as [|x l IH]; simpl; [now left|].
  destruct (Z.max_spec x (fold_right Z.max d l)) as [[_ ->]|[_ ->]].
  - destruct IH as [<-|IH]; [now left | right; now right].
  - right. now left.
Qed.

Lemma index_max_In (l : list Z) : l <> [] -> In (index_max l) l.
Proof.
  intros Hne. unfold index_max.
  destruct (fold_max_In (hd 0 l) l) as [<-|H]; [|exact H].
  destruct l; [contradiction | now left].
Qed.

Lemma days_since_restock_nonneg (g : Frame DfRow) (idx : Z) :
  0 <= idx -> 0 <= days_since_restock g idx.
Proof.
  intros Hidx. unfold days_since_restock.
  set (upto := filter (fun r => r <=? idx) (restocks g)).
  destruct (0 <? length upto)%nat eqn:Hlen; [|exact Hidx].
  assert (Hne : upto <> []).
  { intros Hnil. rewrite Hnil in Hlen. discriminate. }
  pose proof (index_max_In upto Hne) as Hin.
  apply filter_In in Hin. destruct Hin as [_ Hle].
  apply Z.leb_le in Hle. lia.
Qed.

Lemma restock_scan_step (st : option Z) (g : Frame DfRow) (j : nat)
    (i1 i2 : Z) (r1 r2 : DfRow) :
  nth_error g j = Some (i1, r1) ->
  nth_error g (S j) = Some (i2, r2) ->
  nth (S j) (restock_scan st g) 0
  = if 95 <=? stock r2 then 0
    else nth j (restock_scan st g) 0 + (i2 - i1).
Proof.
  revert st g. induction j as [|j IH]; intros st g H1 H2.
  - destruct g as [|[a ra] [|[b rb] rest]]; try discriminate.
    simpl in H1, H2. inversion H1; inversion H2; subst.
    cbn [restock_scan nth].
    destruct (95 <=? stock r2); [lia|].
    destruct (95 <=? stock r1); [lia|].
    destruct st; lia.
  - destruct g as [|[a ra] g']; [discriminate|].
    cbn [restock_scan]. cbn [nth_error] in H1, H2.
    change (nth (S (S j)) (?x :: ?l) 0) with (nth (S j) l 0).
    change (nth (S j) (?x :: ?l) 0) with (nth j l 0).
    now apply IH.
Qed.

Lemma restock_scan_restock (st : option Z) (g : Frame DfRow) (j : nat)
    (i : Z) (r : DfRow) :
  nth_error g j = Some (i, r) -> 95 <= stock r ->
  nth j (restock_scan st g) 0 = 0.
Proof.
  revert st g. induction j as [|j IH]; intros st g Hj Hr.
  - destruct g as [|[a ra] rest]; [discriminate|].
    simpl in Hj. inversion Hj; subst. cbn [restock_scan nth].
    replace (95 <=? stock r) with true by (symmetry; now apply Z.leb_le).
    lia.
  - destruct g as [|[a ra] g']; [discriminate|].
    cbn [restock_scan]. cbn [nth_error] in Hj.
    change (nth (S j) (?x :: ?l) 0) with (nth j l 0).
    now apply IH.
Qed.

Lemma restock_distance_cell (csv : list Observation) (k : Z) (j : nat)
    (i : Z) (fr : FeatureRow) :
  nth_error (prod_features (select_product sku k (load csv))) j = Some (i, fr) ->
  DAYS_SINCE_RESTOCK fr
  = nth j (restock_scan None (select_product sku k (load csv))) 0.
Proof.
  intros Hp. set (g := select_product sku k (load csv)) in *.
  destruct (feature_cells _ _ _ _ Hp) as (Hg & _ & _ & _ & _ & _ & _ & _ & _ & Hd).
  rewrite Hd, <- (days_since_restock_forward_scan g
                    (group_labels_increasing csv k)).
  symmetry. apply nth_error_nth. unfold col_DAYS_SINCE_RESTOCK, index.
  now rewrite !nth_error_map, Hg.
Qed.

(** X11.  [DAYS_SINCE_RESTOCK] is never negative and is 0 on every row
    whose stock is at least 95.  From one row of [df_features] to the next
    one of the same product it goes back to 0 on a restock and otherwise
    grows by exactly 1. *)
Theorem X11_restock_distance_steps
    (csv : list Observation) (F : Frame FeatureRow) :
  feature_engineering csv = Ok F ->
  (forall r, In r (values F) ->
             0 <= DAYS_SINCE_RESTOCK r
             /\ (95 <= stock (row r) -> DAYS_SINCE_RESTOCK r = 0))
  /\ forall i prev cur,
      nth_error (values F) i = Some prev ->
      nth_error (values F) (S i) = Some cur ->
      sku_of prev = sku_of cur ->
      DAYS_SINCE_RESTOCK cur
      = if 95 <=? stock (row cur) then 0 else DAYS_SINCE_RESTOCK prev + 1.
Proof.
  intros HF. split.
  - intros r Hr. apply In_nth_error in Hr. destruct Hr as [i Hi].
    destruct (feature_row_at _ _ _ _ HF Hi) as (j & Hg & Hp).
    split.
    + destruct (feature_cells _ _ _ _ Hp)
        as (_ & _ & _ & _ & _ & _ & _ & _ & _ & Hd).
      rewrite Hd. apply days_since_restock_nonneg. lia.
    + intros Hrestock. rewrite (restock_distance_cell _ _ _ _ _ Hp).
      now apply (restock_scan_restock _ _ _ _ _ Hg).
  - intros i prev cur H1 H2 Hsku.
    destruct (feature_rows_adjacent _ _ _ _ _ HF H1 H2 Hsku)
      as (j & Hg1 & Hg2 & Hp1 & Hp2).
    rewrite (restock_distance_cell _ _ _ _ _ Hp1),
            (restock_distance_cell _ _ _ _ _ Hp2).
    rewrite (restock_scan_step _ _ _ _ _ _ _ Hg1 Hg2).
    destruct (95 <=? stock (row cur)); [reflexivity|]. lia.
Qed.

Lemma X11_restock_distance_steps_witness :
  exists F prev cur,
    feature_engineering two_skus = Ok F
    /\ nth_error (values F) 4 = Some prev
    /\ nth_error (values F) 5 = Some cur
    /\ sku_of prev = sku_of cur
    /\ DAYS_SINCE_RESTOCK prev = 4
    /\ DAYS_SINCE_RESTOCK cur
       = if 95 <=? stock (row cur) then 0 else DAYS_SINCE_RESTOCK prev + 1.
Proof.
  eexists. eexists. eexists.
  split; [vm_compute; reflexivity|].
  split; [vm_compute; reflexivity|].
  split; [vm_compute; reflexivity|].
  split; [vm_compute; reflexivity|].
  split; [vm_compute; reflexivity|].
  eapply (proj2 (X11_restock_distance_steps two_skus _
                   ltac:(vm_compute; reflexivity)) 4%nat);
    vm_compute; reflexivity.
Defined.

(** ** Moving averages *)

Lemma In_skipn_list {A} (n : nat) (l : list A) (x : A) :
  In x (skipn n l) -> In x l.
Proof.
  intros H. rewrite <- (firstn_skipn n l). apply in_or_app. now right.
Qed.

Lemma In_firstn_list {A} (n : nat) (l : list A) (x : A) :
  In x (firstn n l) -> In x l.
Proof.
  intros H. rewrite <- (firstn_skipn n l). apply in_or_app. now left.
Qed.

Lemma window_In {A} (w : nat) (s : list A) (j : nat) (x : A) :
  In x (window w s j) -> In x s.
Proof.
  unfold window. intros H. eapply In_firstn_list, In_skipn_list, H.
Qed.

Lemma window_nonempty {A} (w : nat) (s : list A) (j : nat) :
  (0 < w)%nat -> (j < length s)%nat -> window w s j <> [].
Proof.
  intros Hw Hj Hnil. apply (f_equal (@length A)) in Hnil.
  unfold window in Hnil. rewrite length_skipn, length_firstn in Hnil.
  cbn [length] in Hnil. lia.
Qed.

Lemma group_row_origin (csv : list Observation) (k l : Z) (r : DfRow) :
  In (l, r) (select_product sku k (load csv)) ->
  exists o, In o csv /\ ID_PRODUTO o = k /\ r = add_calendar o.
Proof.
  intros Hin. apply filter_In in Hin. destruct Hin as [Hin Hk].
  apply Z.eqb_eq in Hk. simpl in Hk.
  apply In_nth_error in Hin. destruct Hin as [p Hp].
  destruct (load_nth _ _ _ Hp) as (o & Ho & Heq).
  inversion Heq as [[Hl Hr]]. rewrite Hr in Hk.
  exists o. split; [|split; [exact Hk | reflexivity]].
  apply (Permutation_in _ (Permutation_sym (sort_values_perm csv))).
  eapply nth_error_In, Ho.
Qed.

(** X12.  The moving averages of a row stay within the range of the
    stock levels observed for its product, and the trend within the width of
    that range: with stock levels between 0 and 100, [MA_3D] and [MA_7D] are
    between 0 and 100 and [TREND_3D] between -100 and 100. *)
Theorem X12_moving_average_bounds
    (csv : list Observation) (F : Frame FeatureRow) (r : FeatureRow)
    (lo hi : Z) :
  feature_engineering csv = Ok F ->
  In r (values F) ->
  (forall o, In o csv -> ID_PRODUTO o = sku_of r ->
             lo <= QUANTIDADE_ESTOQUE o <= hi) ->
  (inject_Z lo <= MA_3D r /\ MA_3D r <= inject_Z hi)%Q
  /\ (inject_Z lo <= MA_7D r /\ MA_7D r <= inject_Z hi)%Q
  /\ (inject_Z (lo - hi) <= TREND_3D r /\ TREND_3D r <= inject_Z (hi - lo))%Q.
Proof.
  intros HF Hr Hbound. apply In_nth_error in Hr. destruct Hr as [i Hi].
  destruct (feature_row_at _ _ _ _ HF Hi) as (j & Hg & Hp).
  set (g := select_product sku (sku_of r) (load csv)) in *.
  destruct (feature_cells _ _ _ _ Hp)
    as (_ & _ & _ & _ & Hma3 & Hma7 & Htrend & _).
  assert (Hj : (j < length (col_stock g))%nat).
  { rewrite col_stock_length. apply nth_error_Some. congruence. }
  assert (Hcol : Forall (fun x => (inject_Z lo <= x /\ x <= inject_Z hi)%Q)
                        (col_stock g)).
  { apply Forall_forall. intros x Hx. unfold col_stock, values in Hx.
    rewrite map_map in Hx. apply in_map_iff in Hx.
    destruct Hx as [[l r'] [<- Hin]].
    destruct (group_row_origin _ _ _ _ Hin) as (o & Ho & Hk & ->).
    specialize (Hbound o Ho Hk). unfold stock. simpl.
    rewrite <- !Zle_Qle. lia. }
  assert (Hwin : forall w, (0 < w)%nat ->
            (inject_Z lo <= Qmean (window w (col_stock g) j)
             /\ Qmean (window w (col_stock g) j) <= inject_Z hi)%Q).
  { intros w Hw. apply Qmean_bounds; [now apply window_nonempty|].
    rewrite Forall_forall in *. intros x Hx. eapply Hcol, window_In, Hx. }
  assert (Hown : (inject_Z lo <= inject_Z (stock (row r))
                  /\ inject_Z (stock (row r)) <= inject_Z hi)%Q).
  { rewrite Forall_forall in Hcol. apply Hcol.
    unfold col_stock, values. rewrite map_map.
    apply nth_error_In in Hg.
    now apply (in_map (fun x => inject_Z (stock (snd x)))) in Hg. }
  pose proof (Hwin 3%nat ltac:(lia)) as H3.
  pose proof (Hwin 7%nat ltac:(lia)) as H7.
  rewrite <- Hma3 in H3. rewrite <- Hma7 in H7.
  split; [exact H3|]. split; [exact H7|].
  rewrite Htrend. unfold Z.sub. rewrite !inject_Z_plus, !inject_Z_opp.
  destruct H3, Hown. split; lra.
Qed.

Lemma X12_moving_average_bounds_witness :
  exists F r,
    feature_engineering two_skus = Ok F
    /\ nth_error (values F) 3 = Some r
    /\ In r (values F)
    /\ (forall o, In o two_skus -> ID_PRODUTO o = sku_of r ->
                  0 <= QUANTIDADE_ESTOQUE o <= 100)
    /\ (inject_Z 0 <= MA_3D r /\ MA_3D r <= inject_Z 100)%Q
    /\ (inject_Z 0 <= MA_7D r /\ MA_7D r <= inject_Z 100)%Q
    /\ (inject_Z (0 - 100) <= TREND_3D r
        /\ TREND_3D r <= inject_Z (100 - 0))%Q.
Proof.
  eexists. eexists.
  split; [vm_compute; reflexivity|].
  split; [vm_compute; reflexivity|].
  match goal with |- In ?R (values ?FF) /\ _ =>
    pose (F0 := FF); pose (r0 := R);
    assert (Hin : In r0 (values F0)) by (vm_compute; tauto)
  end.
  split; [exact Hin|].
  match goal with |- ?H /\ _ => assert (Hb : H) end.
  { intros o Ho _. simpl in Ho.
    repeat (destruct Ho as [<-|Ho]; [vm_compute; split; discriminate|]).
    contradiction. }
  split; [exact Hb|].
  exact (X12_moving_average_bounds two_skus F0 r0 0 100
           ltac:(vm_compute; reflexivity) Hin Hb).
Defined.

(** ** The rows of one product in the feature table *)

Lemma increasing_NoDup (l : list Z) : StronglySorted Z.lt l -> NoDup l.
Proof.
  induction 1 as [|a l Hs IH Hall]; constructor; [|exact IH].
  intros Hin. rewrite Forall_forall in Hall. specialize (Hall a Hin). lia.
Qed.

Lemma concat_select {B} (X : Z -> list B) (ids : list Z) (k : Z) :
  NoDup ids ->
  concat (map (fun k' => if k' =? k then X k' else []) ids)
  = if existsb (Z.eqb k) ids then X k else [].
Proof.
  induction 1 as [|a ids Hnotin Hnd IH]; [reflexivity|].
  cbn [map concat existsb]. rewrite IH, (Z.eqb_sym k a).
  destruct (a =? k) eqn:Hak.
  - apply Z.eqb_eq in Hak. subst a. cbn [orb].
    replace (existsb (Z.eqb k) ids) with false; [apply app_nil_r|].
    symmetry. apply not_true_is_false. intros Hex.
    apply existsb_exists in Hex. destruct Hex as [x [Hx Hkx]].
    apply Z.eqb_eq in Hkx. subst x. contradiction.
  - reflexivity.
Qed.

Lemma prod_features_sku (g : Frame DfRow) (k : Z) (r : FeatureRow) :
  (forall x, In x g -> sku (snd x) = k) ->
  In r (values (prod_features g)) -> sku_of r = k.
Proof.
  intros Hg Hr. apply (in_map row) in Hr.
  rewrite prod_features_rows in Hr. unfold values in Hr.
  apply in_map_iff in Hr. destruct Hr as [x [Hx Hin]].
  unfold sku_of. rewrite <- Hx. now apply Hg.
Qed.

(** The rows of product [k] in [df_features] are the features computed
    for the frame of product [k], in the same order. *)
Lemma product_rows (csv : list Observation) (F : Frame FeatureRow) (k : Z) :
  feature_engineering csv = Ok F ->
  values (select_product sku_of k F)
  = values (prod_features (select_product sku k (load csv))).
Proof.
  intros HF.
  destruct (feature_engineering_inv _ _ HF) as (Hv & _ & _).
  rewrite values_select_product, Hv, feature_loop_frames.
  unfold values at 1. rewrite concat_map, map_map, <- concat_filter_map,
    map_map.
  set (ids := unique (map sku (values (load csv)))).
  rewrite (map_ext_in _
             (fun k' => if k' =? k
                        then values (prod_features
                                       (select_product sku k' (load csv)))
                        else [])).
  2:{ intros k' _.
      assert (Hall : forall r,
                In r (values (prod_features
                                (select_product sku k' (load csv)))) ->
                sku_of r = k').
      { intros r. apply prod_features_sku. intros x Hx.
        apply filter_In in Hx. now apply Z.eqb_eq. }
      fold (values (prod_features (select_product sku k' (load csv)))).
      destruct (k' =? k) eqn:Hk.
      - apply Z.eqb_eq in Hk. subst k'. apply filter_all.
        intros r Hr. apply Z.eqb_eq. exact (Hall r Hr).
      - apply Z.eqb_neq in Hk. apply filter_none.
        intros r Hr. apply Z.eqb_neq. rewrite (Hall r Hr). exact Hk. }
  rewrite concat_select.
  2:{ apply increasing_NoDup, unique_sorted. unfold ids.
      rewrite sku_column_load. apply sort_values_ids_sorted. }
  destruct (existsb (Z.eqb k) ids) eqn:Hex; [reflexivity|].
  replace (select_product sku k (load csv)) with (@nil (Z * DfRow));
    [reflexivity|].
  symmetry. apply filter_none. intros [l r] Hin. simpl.
  apply Z.eqb_neq. intros Hk.
  assert (Htrue : existsb (Z.eqb k) ids = true).
  { apply existsb_exists. exists k. split; [|apply Z.eqb_refl].
    apply In_unique. unfold values. rewrite map_map.
    rewrite <- Hk. now apply (in_map (fun x => sku (snd x))) in Hin. }
  congruence.
Qed.

(** ** The evaluation metrics *)

Lemma zip_with_Forall {A B C} (f : A -> B -> C) (P : C -> Prop)
    (l : list A) (l' : list B) :
  (forall a b, In a l -> In b l' -> P (f a b)) ->
  Forall P (zip_with f l l').
Proof.
  revert l'. induction l as [|a l IH]; intros [|b l'] H; cbn; constructor.
  - apply H; now left.
  - apply IH. intros a' b' Ha Hb. apply H; now right.
Qed.

Lemma mean_absolute_error_nonneg (y_true : list Z) (y_pred : list Q) :
  (0 <= mean_absolute_error y_true y_pred)%Q.
Proof.
  apply Qmean_nonneg, zip_with_Forall. intros a b _ _. apply Qabs_nonneg.
Qed.

Lemma all_finite_Forall (P : Q -> Prop) (l : list (option Q)) (xs : list Q) :
  all_finite l = Some xs ->
  (forall x, In (Some x) l -> P x) -> Forall P xs.
Proof.
  revert xs. induction l as [|[x|] l IH]; intros xs Hxs HP; cbn in Hxs.
  - inversion Hxs. constructor.
  - destruct (all_finite l) as [ys|]; [|discriminate].
    inversion Hxs. constructor.
    + apply HP. now left.
    + apply IH; [reflexivity|]. intros y Hy. apply HP. now right.
  - discriminate.
Qed.

Lemma zip_with_In {A B C} (f : A -> B -> C) (l : list A) (l' : list B) c :
  In c (zip_with f l l') -> exists a b, In a l /\ In b l' /\ c = f a b.
Proof.
  revert l'. induction l as [|a l IH]; intros [|b l'] H; cbn in H;
    try contradiction.
  destruct H as [H|H].
  - exists a, b. repeat split; [now left| now left| now symmetry].
  - destruct (IH _ H) as (a' & b' & Ha & Hb & Hc).
    exists a', b'. repeat split; [now right| now right| exact Hc].
Qed.

Lemma mape_nonneg (y_test : list Z) (y_pred : list Q) (v : Q) :
  mape y_test y_pred = Some v -> (0 <= v)%Q.
Proof.
  unfold mape, np_mean. intros H.
  destruct (all_finite _) as [[|x xs]|] eqn:Hfin; try discriminate.
  cbn in H. inversion H as [Hv]. clear H Hv.
  assert (Hmean : (0 <= Qmean (x :: xs))%Q).
  { apply Qmean_nonneg.
    apply (all_finite_Forall _ _ _ Hfin). intros c Hc.
    apply zip_with_In in Hc. destruct Hc as (a & b & _ & _ & Hc).
    destruct (np_divide (a - b) (a + 1)) as [q|]; [|discriminate].
    inversion Hc. apply Qabs_nonneg. }
  apply Qmult_le_0_compat; [exact Hmean| discriminate].
Qed.

Lemma r2_score_le_1 (y_true : list Z) (y_pred : list Q) (v : Q) :
  r2_score y_true y_pred = Some v -> (v <= 1)%Q.
Proof.
  unfold r2_score. destruct (length y_true <? 2)%nat; [discriminate|].
  cbv zeta.
  set (num := Qsum (zip_with _ _ _)). set (den := Qsum (map _ _)).
  assert (Hnum : (0 <= num)%Q).
  { apply Qsum_nonneg, zip_with_Forall. intros a b _ _. apply sq_nonneg. }
  assert (Hden : (0 <= den)%Q).
  { apply Qsum_nonneg, Forall_forall. intros x Hx.
    apply in_map_iff in Hx. destruct Hx as [a [Ha _]]. rewrite <- Ha.
    apply sq_nonneg. }
  destruct (Qeq_bool den 0) eqn:Hz; cbn [negb].
  - destruct (Qeq_bool num 0); cbn [negb]; intros H; inversion H; discriminate.
  - intros H. inversion H as [Hv]. clear H Hv.
    apply Qeq_bool_neq in Hz.
    assert (Hpos : (0 < den)%Q).
    { apply Qle_lt_or_eq in Hden. destruct Hden as [Hlt|Heq];
        [exact Hlt| exfalso; apply Hz; now symmetry]. }
    assert (Hq : (0 <= num / den)%Q).
    { apply Qle_shift_div_l; [exact Hpos|]. now rewrite Qmult_0_l. }
    lra.
Qed.

Lemma best_metrics_cases (fit_rf fit_gb : list FV.t -> list Z -> Model)
    (np_sqrt : Q -> Q) (csv : list Observation) (g : Globals) :
  script fit_rf fit_gb np_sqrt csv = Ok g ->
  best_metrics g = metrics_rf g \/ best_metrics g = metrics_gb g.
Proof.
  intros Hg. pose proof (script_inv _ _ _ _ _ Hg) as Hinv. cbv zeta in Hinv.
  destruct Hinv as (_ & _ & _ & _ & _ & _ & _ & _ & _ & Hsel).
  apply (f_equal snd) in Hsel. cbn [snd] in Hsel. unfold select_best in Hsel.
  destruct (float_gt _ _); cbn [snd] in Hsel; auto.
Qed.

(** X13. Whatever the two regressors predict, the metrics that the script
    reports are on the right side of their scales: the mean absolute error
    and the smoothed percentage error (when it is a number) are not
    negative, a coefficient of determination that is a number is at most 1,
    and the root mean squared error is not negative as soon as the square
    root is not.  The retained metrics are those of one of the two models. *)
Theorem X13_metric_ranges
    (fit_rf fit_gb : list FV.t -> list Z -> Model) (np_sqrt : Q -> Q)
    (csv : list Observation) (g : Globals) :
  script fit_rf fit_gb np_sqrt csv = Ok g ->
  (best_metrics g = metrics_rf g \/ best_metrics g = metrics_gb g)
  /\ forall m, In m [metrics_rf g; metrics_gb g; best_metrics g] ->
       (0 <= MAE m)%Q
       /\ (forall v, MAPE m = Some v -> (0 <= v)%Q)
       /\ (forall v, R2 m = Some v -> (v <= 1)%Q)
       /\ ((forall x, (0 <= x)%Q -> (0 <= np_sqrt x)%Q) -> (0 <= RMSE m)%Q).
Proof.
  intros Hg. pose proof (best_metrics_cases _ _ _ _ _ Hg) as Hbest.
  split; [exact Hbest|].
  pose proof (script_inv _ _ _ _ _ Hg) as Hinv. cbv zeta in Hinv.
  destruct Hinv as (_ & _ & _ & _ & _ & _ & _ & Hrf & Hgb & _).
  assert (Heval : forall y p,
            let m := evaluate np_sqrt y p in
            (0 <= MAE m)%Q
            /\ (forall v, MAPE m = Some v -> (0 <= v)%Q)
            /\ (forall v, R2 m = Some v -> (v <= 1)%Q)
            /\ ((forall x, (0 <= x)%Q -> (0 <= np_sqrt x)%Q) ->
                (0 <= RMSE m)%Q)).
  { intros y p. cbn. repeat split.
    - apply mean_absolute_error_nonneg.
    - apply mape_nonneg.
    - apply r2_score_le_1.
    - intros Hsqrt. apply Hsqrt, mean_squared_error_nonneg. }
  intros m Hm.
  assert (Hcases : m = metrics_rf g \/ m = metrics_gb g).
  { cbn in Hm. destruct Hm as [H|[H|[H|[]]]]; subst m; auto. }
  destruct Hcases as [-> | ->]; [rewrite Hrf | rewrite Hgb]; apply Heval.
Qed.

Lemma X13_metric_ranges_witness :
  exists g, script (fit_const 90) (fit_const 0)
                   sqrt_sample two_skus = Ok g
            /\ (0 <= MAE (best_metrics g))%Q.
Proof.
  eexists. split; [vm_compute; reflexivity|].
  match goal with |- (0 <= MAE (best_metrics ?G))%Q => pose (g0 := G) end.
  refine (proj1 (proj2 (X13_metric_ranges (fit_const 90)
                          (fit_const 0) sqrt_sample two_skus g0
                          _) (best_metrics g0) _)).
  - vm_compute. reflexivity.
  - right. right. left. reflexivity.
Defined.

(** ** The target inside the feature vector *)

Lemma nth_error_firstn_Some {A} (l : list A) (k i : nat) (x : A) :
  nth_error (firstn k l) i = Some x -> nth_error l i = Some x.
Proof.
  revert l i. induction k as [|k IH]; intros [|a l] [|i] H; cbn in *;
    try discriminate; auto.
Qed.

Lemma nth_error_skipn_Some {A} (l : list A) (k i : nat) :
  nth_error (skipn k l) i = nth_error l (k + i).
Proof.
  revert l. induction k as [|k IH]; intros [|a l]; cbn; auto.
  now destruct i.
Qed.

(** An example of the split, in either part, is the feature vector and the
    target of one and the same row of [df_features]. *)
Lemma example_origin (fit_rf fit_gb : list FV.t -> list Z -> Model)
    (np_sqrt : Q -> Q) (csv : list Observation) (g : Globals)
    (i : nat) (x : FV.t) (y : Z) :
  script fit_rf fit_gb np_sqrt csv = Ok g ->
  (nth_error (X_train g) i = Some x /\ nth_error (y_train g) i = Some y)
  \/ (nth_error (X_test g) i = Some x /\ nth_error (y_test g) i = Some y) ->
  exists r, In r (values (df_features g))
            /\ x = feature_vector r /\ y = target r.
Proof.
  intros Hg Hex. pose proof (script_inv _ _ _ _ _ Hg) as Hinv.
  cbv zeta in Hinv. destruct Hinv as (_ & _ & Hsplit & _).
  apply train_test_split_inv in Hsplit. cbv zeta in Hsplit.
  destruct Hsplit as (_ & _ & Hxtr & Hxte & Hytr & Hyte).
  unfold dropna in *.
  assert (Hrow : forall j,
            nth_error (map feature_vector (values (df_features g))) j = Some x
            -> nth_error (map target (values (df_features g))) j = Some y
            -> exists r, In r (values (df_features g))
                         /\ x = feature_vector r /\ y = target r).
  { intros j Hx Hy. rewrite nth_error_map in Hx, Hy.
    destruct (nth_error (values (df_features g)) j) as [r|] eqn:Hr;
      [|discriminate].
    cbn in Hx, Hy. exists r. split; [now apply nth_error_In in Hr|].
    split; congruence. }
  destruct Hex as [[Hx Hy]|[Hx Hy]].
  - rewrite Hxtr in Hx. rewrite Hytr in Hy.
    apply nth_error_firstn_Some in Hx. apply nth_error_firstn_Some in Hy.
    now apply (Hrow i).
  - rewrite Hxte in Hx. rewrite Hyte in Hy.
    apply nth_error_firstn_Some in Hy.
    rewrite nth_error_skipn_Some in Hx. rewrite nth_error_skipn_Some in Hy.
    now apply (Hrow _ Hx).
Qed.

(** X14.  The target can be read off the feature vector.  In every example
    of the training part and of the holdout part the stock to predict is
    the sum of the features [MA_3D] and [TREND_3D] of that same example,
    because the three-day mean includes the current day and the trend is
    the current stock minus that mean. *)
Theorem X14_target_is_sum_of_two_features
    (fit_rf fit_gb : list FV.t -> list Z -> Model) (np_sqrt : Q -> Q)
    (csv : list Observation) (g : Globals) (i : nat) (x : FV.t) (y : Z) :
  script fit_rf fit_gb np_sqrt csv = Ok g ->
  (nth_error (X_train g) i = Some x /\ nth_error (y_train g) i = Some y)
  \/ (nth_error (X_test g) i = Some x /\ nth_error (y_test g) i = Some y) ->
  (inject_Z y == FV.MA_3D x + FV.TREND_3D x)%Q.
Proof.
  intros Hg Hex.
  destruct (example_origin _ _ _ _ _ _ _ _ Hg Hex) as (r & Hr & -> & ->).
  pose proof (script_inv _ _ _ _ _ Hg) as Hinv. cbv zeta in Hinv.
  destruct Hinv as (HF & _).
  apply In_nth_error in Hr. destruct Hr as [j Hj].
  destruct (feature_row_at csv _ _ _ HF Hj) as (j' & _ & Hp).
  destruct (feature_cells _ _ _ _ Hp)
    as (_ & _ & _ & _ & _ & _ & Htrend & _).
  cbn [feature_vector FV.MA_3D FV.TREND_3D]. rewrite Htrend.
  unfold target. ring.
Qed.

Lemma X14_target_is_sum_of_two_features_witness :
  exists g x y,
    script (fit_const 90) (fit_const 0) sqrt_sample two_skus = Ok g
    /\ nth_error (X_test g) 1 = Some x /\ nth_error (y_test g) 1 = Some y
    /\ (inject_Z y == FV.MA_3D x + FV.TREND_3D x)%Q.
Proof.
  eexists. eexists. eexists.
  split; [vm_compute; reflexivity|].
  split; [vm_compute; reflexivity|].
  split; [vm_compute; reflexivity|].
  match goal with |- (inject_Z ?Y == FV.MA_3D ?X + _)%Q =>
    pose (x0 := X); pose (y0 := Y) end.
  refine (X14_target_is_sum_of_two_features (fit_const 90) (fit_const 0)
            sqrt_sample two_skus _ 1%nat x0 y0 _ _).
  - vm_compute. reflexivity.
  - right. split; vm_compute; reflexivity.
Defined.

(** ** The calendar columns *)

Lemma dayofweek_range (z : Z) : 0 <= Calendar.dayofweek z <= 6.
Proof. unfold Calendar.dayofweek. Z.div_mod_to_equations. lia. Qed.

Lemma day_of_era_range (z : Z) :
  0 <= z + 719468 - (z + 719468) / 146097 * 146097 <= 146096.
Proof. Z.div_mod_to_equations. lia. Qed.

Lemma day_of_year_range (doe : Z) :
  0 <= doe <= 146096 ->
  let yoe := (doe - doe / 1460 + doe / 36524 - doe / 146096) / 365 in
  0 <= doe - (365 * yoe + yoe / 4 - yoe / 100) <= 365.
Proof. intros H. cbv zeta. Z.div_mod_to_equations. lia. Qed.

Lemma month_day_range (doy : Z) :
  0 <= doy <= 365 ->
  let mp := (5 * doy + 2) / 153 in
  0 <= mp <= 11 /\ 1 <= doy - (153 * mp + 2) / 5 + 1 <= 31.
Proof. intros H. cbv zeta. Z.div_mod_to_equations. lia. Qed.

Lemma civil_ranges (z : Z) :
  1 <= Calendar.month z <= 12 /\ 1 <= Calendar.day z <= 31.
Proof.
  unfold Calendar.month, Calendar.day, Calendar.civil_from_days. cbv zeta.
  cbn [fst snd].
  pose proof (day_of_era_range z) as Hdoe.
  set (doe := z + 719468 - (z + 719468) / 146097 * 146097) in *.
  pose proof (day_of_year_range doe Hdoe) as Hdoy. cbv zeta in Hdoy.
  set (yoe := (doe - doe / 1460 + doe / 36524 - doe / 146096) / 365) in *.
  set (doy := doe - (365 * yoe + yoe / 4 - yoe / 100)) in *.
  pose proof (month_day_range doy Hdoy) as Hmd. cbv zeta in Hmd.
  set (mp := (5 * doy + 2) / 153) in *.
  destruct Hmd as [Hmp Hd]. split; [|exact Hd].
  destruct (mp <? 10) eqn:H10;
    rewrite ?Z.ltb_lt, ?Z.ltb_ge in H10; lia.
Qed.

Lemma weekend_flag (dow : Z) :
  0 <= dow <= 6 ->
  (astype_int (isin dow [5; 6]) = 1 <-> 5 <= dow)
  /\ (astype_int (isin dow [5; 6]) = 0 <-> dow < 5).
Proof.
  intros H. unfold isin, astype_int. cbn [existsb].
  destruct (dow =? 5) eqn:H5; destruct (dow =? 6) eqn:H6; cbn [orb];
    rewrite ?Z.eqb_eq, ?Z.eqb_neq in H5, H6;
    split; split; intros; try lia; try discriminate.
Qed.

(** X15.  The calendar columns of every row of [df_features] are those of
    the row's own date and stay in their ranges: the day of the week from 0
    (Monday) to 6, the day of the month from 1 to 31, the month from 1 to
    12, and [WEEKEND] is 1 on the days of the week 5 and 6 and 0 on the
    others.  Rows whose dates are a whole number of weeks apart share the
    day of the week and the weekend flag. *)
Theorem X15_calendar_columns
    (csv : list Observation) (F : Frame FeatureRow) (r : FeatureRow) :
  feature_engineering csv = Ok F ->
  In r (values F) ->
  0 <= DAY_OF_WEEK (row r) <= 6
  /\ 1 <= DAY (row r) <= 31
  /\ 1 <= MONTH (row r) <= 12
  /\ (WEEKEND (row r) = 1 <-> 5 <= DAY_OF_WEEK (row r))
  /\ (WEEKEND (row r) = 0 <-> DAY_OF_WEEK (row r) < 5)
  /\ forall r' k, In r' (values F) ->
       date_of r' = date_of r + 7 * k ->
       DAY_OF_WEEK (row r') = DAY_OF_WEEK (row r)
       /\ WEEKEND (row r') = WEEKEND (row r).
Proof.
  intros HF Hr.
  destruct (feature_engineering_inv _ _ HF) as (_ & _ & Hrows).
  assert (Hcal : forall x, In x (values F) ->
                   row x = add_calendar (obs (row x))).
  { intros x Hx. apply (in_map row) in Hx. rewrite Hrows in Hx.
    apply in_map_iff in Hx. destruct Hx as [o [Ho _]].
    rewrite <- Ho. reflexivity. }
  rewrite (Hcal r Hr). cbn [add_calendar DAY_OF_WEEK DAY MONTH WEEKEND obs].
  cbv zeta. cbn [DAY_OF_WEEK DAY MONTH WEEKEND obs].
  pose proof (dayofweek_range (DATA_EVENTO (obs (row r)))) as Hdow.
  pose proof (civil_ranges (DATA_EVENTO (obs (row r)))) as [Hm Hd].
  pose proof (weekend_flag _ Hdow) as [Hw1 Hw0].
  repeat (split; [assumption|]).
  intros r' k Hr' Hdate. rewrite (Hcal r' Hr').
  cbn [add_calendar DAY_OF_WEEK WEEKEND]. cbv zeta.
  cbn [DAY_OF_WEEK WEEKEND].
  unfold date_of in Hdate.
  assert (Hsame : Calendar.dayofweek (DATA_EVENTO (obs (row r')))
                  = Calendar.dayofweek (DATA_EVENTO (obs (row r)))).
  { rewrite Hdate. unfold Calendar.dayofweek.
    replace (DATA_EVENTO (obs (row r)) + 7 * k + 3)
      with (DATA_EVENTO (obs (row r)) + 3 + k * 7) by lia.
    apply Z_mod_plus_full. }
  rewrite Hsame. split; reflexivity.
Qed.

Lemma X15_calendar_columns_witness :
  exists F r,
    feature_engineering two_skus = Ok F
    /\ nth_error (values F) 2 = Some r
    /\ 0 <= DAY_OF_WEEK (row r) <= 6
    /\ 1 <= MONTH (row r) <= 12.
Proof.
  eexists. eexists.
  split; [vm_compute; reflexivity|].
  split; [vm_compute; reflexivity|].
  match goal with |- 0 <= DAY_OF_WEEK (row ?R) <= 6 /\ _ =>
    pose (r0 := R) end.
  pose proof (X15_calendar_columns two_skus _ r0
                ltac:(vm_compute; reflexivity)
                ltac:(vm_compute; tauto)) as H.
  split; [exact (proj1 H)| exact (proj1 (proj2 (proj2 H)))].
Defined.

(** X16.  The forecast rows encode their dates as the training rows do.
    In every row that the forecast builds, the day of the week, the day of
    the month, the month and the weekend flag are those that loading
    computes for an observation of the forecast date, in the same ranges. *)
Theorem X16_forecast_calendar
    (g : Globals) (p days : Z) (steps : list Step) (s : Step) :
  forecast_steps g p days = Ok steps ->
  In s steps ->
  let x := x_future s in
  0 <= FV.DAY_OF_WEEK x <= 6
  /\ 1 <= FV.DAY x <= 31
  /\ 1 <= FV.MONTH x <= 12
  /\ (FV.WEEKEND x = 1 <-> 5 <= FV.DAY_OF_WEEK x)
  /\ (FV.WEEKEND x = 0 <-> FV.DAY_OF_WEEK x < 5)
  /\ forall o, DATA_EVENTO o = future_date s ->
       let r := add_calendar o in
       FV.DAY_OF_WEEK x = DAY_OF_WEEK r /\ FV.DAY x = DAY r
       /\ FV.MONTH x = MONTH r /\ FV.WEEKEND x = WEEKEND r.
Proof.
  intros Hsteps Hs. cbv zeta.
  destruct (forecast_steps_inv _ _ _ _ Hsteps) as (last_row & _ & Hall).
  assert (Hstep : exists d, forecast_step g last_row d = Ok s).
  { clear Hsteps. induction Hall as [|d s' ds ss Hd _ IH]; [contradiction|].
    destruct Hs as [<-|Hs]; [now exists d | now apply IH]. }
  destruct Hstep as [d Hd].
  destruct (forecast_step_inv _ _ _ _ Hd) as (pid & _ & _ & Hx & _).
  rewrite Hx.
  cbn [features_future FV.DAY_OF_WEEK FV.DAY FV.MONTH FV.WEEKEND]. cbv zeta.
  cbn [FV.DAY_OF_WEEK FV.DAY FV.MONTH FV.WEEKEND].
  pose proof (dayofweek_range (future_date s)) as Hdow.
  pose proof (civil_ranges (future_date s)) as [Hm Hday].
  pose proof (weekend_flag _ Hdow) as [Hw1 Hw0]. unfold astype_int in *.
  repeat (split; [assumption|]).
  intros o Ho. unfold add_calendar. cbv zeta.
  cbn [DAY_OF_WEEK DAY MONTH WEEKEND]. rewrite Ho. unfold astype_int.
  repeat split; reflexivity.
Qed.

Lemma X16_forecast_calendar_witness :
  exists g steps s,
    script (fit_const 90) (fit_const 0) sqrt_sample two_skus = Ok g
    /\ forecast_steps g 1000 7 = Ok steps
    /\ nth_error steps 3 = Some s
    /\ 0 <= FV.DAY_OF_WEEK (x_future s) <= 6.
Proof.
  eexists. eexists. eexists.
  split; [vm_compute; reflexivity|].
  match goal with |- forecast_steps ?G _ _ = _ /\ _ => pose (g0 := G) end.
  split; [vm_compute; reflexivity|].
  match goal with |- nth_error ?L _ = _ /\ _ => pose (steps0 := L) end.
  split; [vm_compute; reflexivity|].
  match goal with |- 0 <= FV.DAY_OF_WEEK (x_future ?S0) <= 6 =>
    pose (s0 := S0) end.
  refine (proj1 (X16_forecast_calendar g0 1000 7 steps0 s0 _ _)).
  - vm_compute. reflexivity.
  - vm_compute. tauto.
Defined.

(** ** The exploratory table *)

Lemma unique_NoDup (l : list Z) : NoDup (unique l).
Proof.
  induction l as [|a l IH]; cbn; constructor.
  - intros Hin. apply filter_In in Hin. destruct Hin as [_ Hne].
    now rewrite Z.eqb_refl in Hne.
  - now apply NoDup_filter.
Qed.

Lemma insert_key_perm (x : Z) (l : list Z) :
  Permutation (x :: l) (insert_key x l).
Proof.
  induction l as [|y l IH]; cbn; [reflexivity|].
  destruct (x <=? y); [reflexivity|].
  rewrite perm_swap. now constructor.
Qed.

Lemma group_keys_perm (l : list Z) : Permutation (unique l) (group_keys l).
Proof.
  unfold group_keys. induction (unique l) as [|x u IH]; cbn; [reflexivity|].
  rewrite <- insert_key_perm. now constructor.
Qed.

Lemma insert_key_sorted (x : Z) (l : list Z) :
  Sorted Z.le l -> Sorted Z.le (insert_key x l).
Proof.
  induction 1 as [|y l Hs IH Hhd]; cbn.
  - repeat constructor.
  - destruct (x <=? y) eqn:Hxy.
    + apply Z.leb_le in Hxy. repeat constructor; assumption.
    + apply Z.leb_gt in Hxy. constructor; [assumption|].
      destruct l as [|z l]; cbn in *.
      * constructor. lia.
      * destruct (x <=? z); constructor; [lia|now inversion Hhd].
Qed.

Lemma group_keys_sorted (l : list Z) : Sorted Z.le (group_keys l).
Proof.
  unfold group_keys. induction (unique l) as [|x u IH]; cbn;
    [constructor | now apply insert_key_sorted].
Qed.

Lemma insert_by_min_perm (x : Z * CriticalProduct)
    (l : Frame CriticalProduct) :
  Permutation (x :: l) (insert_by_min x l).
Proof.
  induction l as [|y l IH]; cbn; [reflexivity|].
  destruct (Min_Stock (snd x) <=? Min_Stock (snd y)); [reflexivity|].
  rewrite perm_swap. now constructor.
Qed.

Lemma sort_by_min_stock_perm (l : Frame CriticalProduct) :
  Permutation l (sort_by_min_stock l).
Proof.
  induction l as [|x l IH]; cbn; [reflexivity|].
  rewrite <- insert_by_min_perm. now constructor.
Qed.

Lemma insert_by_min_sorted (x : Z * CriticalProduct)
    (l : Frame CriticalProduct) :
  Sorted min_stock_le l -> Sorted min_stock_le (insert_by_min x l).
Proof.
  unfold min_stock_le.
  induction 1 as [|y l Hs IH Hhd]; cbn.
  - repeat constructor.
  - destruct (Min_Stock (snd x) <=? Min_Stock (snd y)) eqn:Hxy.
    + apply Z.leb_le in Hxy. repeat constructor; assumption.
    + apply Z.leb_gt in Hxy. constructor; [assumption|].
      destruct l as [|z l]; cbn in *.
      * constructor. lia.
      * destruct (Min_Stock (snd x) <=? Min_Stock (snd z)); constructor;
          [lia|now inversion Hhd].
Qed.

Lemma sort_by_min_stock_sorted (l : Frame CriticalProduct) :
  StronglySorted min_stock_le (sort_by_min_stock l).
Proof.
  apply Sorted_StronglySorted.
  - intros a b c. unfold min_stock_le. lia.
  - induction l as [|x l IH]; cbn;
      [constructor | now apply insert_by_min_sorted].
Qed.

Lemma fold_min_le (d x : Z) (l : list Z) :
  In x (d :: l) -> fold_right Z.min d l <= x.
Proof.
  induction l as [|y l IH]; cbn; intros H.
  - destruct H as [->|[]]. lia.
  - destruct H as [H|[H|H]].
    + specialize (IH (or_introl H)). lia.
    + subst y. lia.
    + specialize (IH (or_intror H)). lia.
Qed.

Lemma fold_min_In (d : Z) (l : list Z) : In (fold_right Z.min d l) (d :: l).
Proof.
  induction l as [|x l IH]; cbn; [now left|].
  destruct (Z.min_spec x (fold_right Z.min d l)) as [[_ ->]|[_ ->]].
  - right. now left.
  - destruct IH as [<-|IH]; [now left | right; now right].
Qed.

Lemma series_min_le (x : Z) (l : list Z) : In x l -> series_min l <= x.
Proof. intros H. apply fold_min_le. now right. Qed.

Lemma series_min_In (l : list Z) : l <> [] -> In (series_min l) l.
Proof.
  intros Hne. unfold series_min.
  destruct (fold_min_In (hd 0 l) l) as [<-|H]; [|exact H].
  destruct l; [contradiction | now left].
Qed.

Lemma filter_map_comm {A B} (f : A -> B) (p : B -> bool) (l : list A) :
  filter p (map f l) = map f (filter (fun a => p (f a)) l).
Proof.
  induction l as [|a l IH]; cbn; [reflexivity|].
  destruct (p (f a)); cbn; now rewrite IH.
Qed.

Lemma series_sum_flags {A} (flag : A -> Z) (p : A -> bool) (l : list A) :
  (forall a, In a l -> flag a = astype_int (p a)) ->
  series_sum (map flag l) = Z.of_nat (length (filter p l)).
Proof.
  unfold series_sum, astype_int.
  induction l as [|a l IH]; intros H; [reflexivity|].
  cbn [map fold_right filter]. rewrite IH by (intros; apply H; now right).
  rewrite (H a (or_introl eq_refl)).
  destruct (p a); cbn [length]; lia.
Qed.

Lemma feature_observations (csv : list Observation) (F : Frame FeatureRow) :
  feature_engineering csv = Ok F ->
  map (fun r => obs (row r)) (values F) = sort_values csv.
Proof.
  intros HF. destruct (feature_engineering_inv _ _ HF) as (_ & _ & Hrows).
  rewrite <- (map_map row obs), Hrows, map_map. cbn. apply map_id.
Qed.

(** The observations behind the rows of product [k]. *)
Lemma product_observations (csv : list Observation) (F : Frame FeatureRow)
    (k : Z) :
  feature_engineering csv = Ok F ->
  map (fun r => obs (row r)) (values (select_product sku_of k F))
  = sort_values (filter (fun o => ID_PRODUTO o =? k) csv).
Proof.
  intros HF. rewrite values_select_product.
  rewrite <- filter_sort_values, <- (feature_observations _ _ HF).
  now rewrite filter_map_comm.
Qed.

Lemma low_stock_cell (csv : list Observation) (F : Frame FeatureRow)
    (r : FeatureRow) :
  feature_engineering csv = Ok F -> In r (values F) ->
  LOW_STOCK r = astype_int (stock (row r) <? 20).
Proof.
  intros HF Hr. apply In_nth_error in Hr. destruct Hr as [i Hi].
  destruct (feature_row_at _ _ _ _ HF Hi) as (j & _ & Hp).
  now destruct (feature_cells _ _ _ _ Hp)
    as (_ & _ & _ & _ & _ & _ & _ & Hlow & _).
Qed.

Section DiagnosticsFacts.

Variable np_sqrt : Q -> Q.
Variable csv : list Observation.
Variable F : Frame FeatureRow.
Hypothesis HF : feature_engineering csv = Ok F.

Lemma groupby_keys :
  index (groupby_agg np_sqrt F) = group_keys (map sku_of (values F)).
Proof.
  unfold groupby_agg, index. rewrite map_map. cbn. apply map_id.
Qed.

Lemma critical_products_perm :
  Permutation (groupby_agg np_sqrt F) (critical_products np_sqrt F).
Proof. apply sort_by_min_stock_perm. Qed.

Lemma critical_products_keys (k : Z) :
  In k (index (critical_products np_sqrt F))
  <-> exists o, In o csv /\ ID_PRODUTO o = k.
Proof.
  assert (Hperm : Permutation (index (critical_products np_sqrt F))
                    (unique (map sku_of (values F)))).
  { unfold index. rewrite <- critical_products_perm.
    fold (index (groupby_agg np_sqrt F)). rewrite groupby_keys.
    symmetry. apply group_keys_perm. }
  assert (Hids : map sku_of (values F) = map ID_PRODUTO (sort_values csv)).
  { rewrite <- (feature_observations _ _ HF), map_map. reflexivity. }
  split.
  - intros Hk. apply (Permutation_in _ Hperm) in Hk.
    apply unique_In in Hk. rewrite Hids in Hk.
    apply in_map_iff in Hk. destruct Hk as [o [Ho Hin]].
    exists o. split; [|exact Ho].
    apply (Permutation_in _ (Permutation_sym (sort_values_perm csv))), Hin.
  - intros [o [Hin Ho]].
    apply (Permutation_in _ (Permutation_sym Hperm)), In_unique.
    rewrite Hids, <- Ho. apply in_map.
    apply (Permutation_in _ (sort_values_perm csv)), Hin.
Qed.

Lemma critical_products_NoDup : NoDup (index (critical_products np_sqrt F)).
Proof.
  apply (Permutation_NoDup (l := unique (map sku_of (values F))));
    [|apply unique_NoDup].
  unfold index. rewrite <- critical_products_perm.
  fold (index (groupby_agg np_sqrt F)). rewrite groupby_keys.
  apply group_keys_perm.
Qed.

Lemma critical_products_row (k : Z) (c : CriticalProduct) :
  In (k, c) (critical_products np_sqrt F) ->
  (forall o, In o csv -> ID_PRODUTO o = k ->
             Min_Stock c <= QUANTIDADE_ESTOQUE o)
  /\ (exists o, In o csv /\ ID_PRODUTO o = k
                /\ QUANTIDADE_ESTOQUE o = Min_Stock c)
  /\ Critical_Days c
     = Z.of_nat (length (filter (fun o => (QUANTIDADE_ESTOQUE o <? 20)
                                          && (ID_PRODUTO o =? k)) csv)).
Proof.
  intros Hin.
  assert (Hkey : In k (index (critical_products np_sqrt F))).
  { unfold index. now apply (in_map fst) in Hin. }
  apply (Permutation_in _ (Permutation_sym critical_products_perm)) in Hin.
  unfold groupby_agg in Hin. apply in_map_iff in Hin.
  destruct Hin as [k' [Heq _]]. inversion Heq as [[Hk Hc]]. subst k'.
  clear Heq.
  set (rows := values (select_product sku_of k F)) in *.
  pose proof (product_observations csv F k HF) as Hobs. fold rows in Hobs.
  assert (Hlevels : map (fun r => stock (row r)) rows
                    = map QUANTIDADE_ESTOQUE
                        (sort_values
                           (filter (fun o => ID_PRODUTO o =? k) csv))).
  { rewrite <- Hobs, map_map. reflexivity. }
  assert (Hmem : forall o,
            In o (sort_values (filter (fun o => ID_PRODUTO o =? k) csv))
            <-> In o csv /\ ID_PRODUTO o = k).
  { intros o. split; intros H.
    - apply (Permutation_in _ (Permutation_sym (sort_values_perm _))) in H.
      apply filter_In in H. now rewrite Z.eqb_eq in H.
    - apply (Permutation_in _ (sort_values_perm _)), filter_In.
      now rewrite Z.eqb_eq. }
  cbn [aggregate Min_Stock Critical_Days]. rewrite Hlevels.
  split; [|split].
  - intros o Ho Hid. apply series_min_le, in_map, Hmem. now split.
  - apply critical_products_keys in Hkey. destruct Hkey as [o0 [Ho0 Hid0]].
    assert (Hne : map QUANTIDADE_ESTOQUE
                    (sort_values (filter (fun o => ID_PRODUTO o =? k) csv))
                  <> []).
    { intros Hnil. apply map_eq_nil in Hnil.
      assert (Hin0 : In o0 (sort_values
                              (filter (fun o => ID_PRODUTO o =? k) csv)))
        by (apply Hmem; now split).
      rewrite Hnil in Hin0. contradiction. }
    apply series_min_In in Hne. apply in_map_iff in Hne.
    destruct Hne as [o [Hq Ho]]. apply Hmem in Ho. destruct Ho as [Ho Hid].
    exists o. repeat split; assumption.
  - rewrite (series_sum_flags LOW_STOCK (fun r => stock (row r) <? 20)).
    2:{ intros r Hr. apply (low_stock_cell csv F r HF).
        unfold rows in Hr. rewrite values_select_product in Hr.
        now apply filter_In in Hr. }
    f_equal.
    rewrite <- (length_map (fun r => obs (row r))).
    change (fun r => stock (row r) <? 20)
      with (fun r => (fun o => QUANTIDADE_ESTOQUE o <? 20) (obs (row r))).
    rewrite <- (filter_map_comm (fun r => obs (row r))
                  (fun o => QUANTIDADE_ESTOQUE o <? 20)).
    rewrite Hobs, filter_sort_values, sort_values_length, filter_filter.
    reflexivity.
Qed.

End DiagnosticsFacts.

(** X17.  The exploratory table has one row per product of the input, in
    ascending order of [Min_Stock].  In the row of a product, [Min_Stock]
    is the smallest stock among that product's observations and is reached
    by one of them, and [Critical_Days] is the number of its observations
    with a stock below 20. *)
Theorem X17_critical_products_table
    (np_sqrt : Q -> Q) (csv : list Observation) (F : Frame FeatureRow) :
  feature_engineering csv = Ok F ->
  let T := critical_products np_sqrt F in
  NoDup (index T)
  /\ (forall k, In k (index T) <-> exists o, In o csv /\ ID_PRODUTO o = k)
  /\ StronglySorted min_stock_le T
  /\ forall k c, In (k, c) T ->
       (forall o, In o csv -> ID_PRODUTO o = k ->
                  Min_Stock c <= QUANTIDADE_ESTOQUE o)
       /\ (exists o, In o csv /\ ID_PRODUTO o = k
                     /\ QUANTIDADE_ESTOQUE o = Min_Stock c)
       /\ Critical_Days c
          = Z.of_nat (length (filter (fun o => (QUANTIDADE_ESTOQUE o <? 20)
                                               && (ID_PRODUTO o =? k)) csv)).
Proof.
  intros HF. cbv zeta.
  split; [apply critical_products_NoDup|].
  split; [now apply critical_products_keys|].
  split; [apply sort_by_min_stock_sorted|].
  intros k c. now apply critical_products_row.
Qed.

Lemma X17_critical_products_table_witness :
  exists F, feature_engineering two_skus = Ok F
            /\ StronglySorted min_stock_le (critical_products sqrt_sample F).
Proof.
  eexists. split; [vm_compute; reflexivity|].
  match goal with |- StronglySorted _ (critical_products _ ?FF) =>
    pose (F0 := FF) end.
  exact (proj1 (proj2 (proj2
           (X17_critical_products_table sqrt_sample two_skus F0
              ltac:(vm_compute; reflexivity))))).
Defined.

(** X18.  The count of the inventory insight (line 273) is the number of
    distinct products that have at least one observation with a stock below
    10. *)
Theorem X18_critical_count
    (np_sqrt : Q -> Q) (csv : list Observation) (F : Frame FeatureRow) :
  feature_engineering csv = Ok F ->
  exists ks : list Z,
    NoDup ks
    /\ (forall k, In k ks <->
                  exists o, In o csv /\ ID_PRODUTO o = k
                            /\ QUANTIDADE_ESTOQUE o < 10)
    /\ critical_count np_sqrt F = length ks.
Proof.
  intros HF.
  set (T := critical_products np_sqrt F).
  exists (index (filter (fun kc => Min_Stock (snd kc) <? 10) T)).
  split; [|split].
  - pose proof (critical_products_NoDup np_sqrt F) as Hnd.
    fold T in Hnd. clearbody T. unfold index in *.
    induction T as [|[k c] T IH]; cbn; [constructor|].
    inversion Hnd as [|? ? Hnotin Hnd']. subst.
    destruct (Min_Stock c <? 10); cbn; [|now apply IH].
    constructor; [|now apply IH].
    intros Hin. apply Hnotin. apply in_map_iff in Hin.
    destruct Hin as [x [Hx Hin]]. apply filter_In in Hin.
    rewrite <- Hx. apply in_map. tauto.
  - intros k. unfold index. rewrite in_map_iff. split.
    + intros [[k' c] [Hk Hin]]. cbn in Hk. subst k'.
      apply filter_In in Hin. destruct Hin as [Hin Hmin]. cbn in Hmin.
      apply Z.ltb_lt in Hmin.
      destruct (critical_products_row np_sqrt csv F HF k c Hin)
        as (_ & (o & Ho & Hid & Hq) & _).
      exists o. repeat split; [assumption| assumption| lia].
    + intros (o & Ho & Hid & Hq).
      assert (Hkey : In k (index T)).
      { apply (critical_products_keys np_sqrt csv F HF). now exists o. }
      unfold index in Hkey. apply in_map_iff in Hkey.
      destruct Hkey as [[k' c] [Hk Hin]]. cbn in Hk. subst k'.
      exists (k, c). split; [reflexivity|].
      apply filter_In. split; [exact Hin|]. cbn. apply Z.ltb_lt.
      destruct (critical_products_row np_sqrt csv F HF k c Hin)
        as (Hle & _). specialize (Hle o Ho Hid). lia.
  - unfold critical_count, index. fold T. now rewrite length_map.
Qed.

Lemma X18_critical_count_witness :
  exists F ks,
    feature_engineering one_sku = Ok F
    /\ NoDup ks
    /\ (forall k, In k ks <->
                  exists o, In o one_sku /\ ID_PRODUTO o = k
                            /\ QUANTIDADE_ESTOQUE o < 10)
    /\ critical_count sqrt_sample F = length ks.
Proof.
  pose (F0 := ltac:(let v := eval vm_compute in
                              match feature_engineering one_sku with
                              | Ok F => F
                              | Raise _ => []
                              end in exact v)).
  exists F0.
  assert (HF : feature_engineering one_sku = Ok F0)
    by (vm_compute; reflexivity).
  destruct (X18_critical_count sqrt_sample one_sku F0 HF) as (ks & H).
  exists ks. split; [exact HF| exact H].
Defined.

(** ** The total of the daily sales column *)

Lemma col_PREV_DAY_SALES_column (g : Frame DfRow) :
  map PREV_DAY_SALES (values (prod_features g)) = col_PREV_DAY_SALES g.
Proof.
  apply nth_error_ext. intros j. unfold values.
  rewrite !nth_error_map, prod_features_nth.
  destruct (nth_error g j) as [ir|] eqn:Hj; cbn.
  - symmetry. apply nth_error_nth'. rewrite col_PREV_DAY_SALES_length.
    apply nth_error_Some. congruence.
  - symmetry. apply nth_error_None. rewrite col_PREV_DAY_SALES_length.
    now apply nth_error_None.
Qed.

Lemma last_nonempty {A} (t : list A) (y d d' : A) :
  last (y :: t) d = last (y :: t) d'.
Proof.
  revert y. induction t as [|z t IH]; intros y; [reflexivity|].
  exact (IH z).
Qed.

Lemma last_cons {A} (x : A) (t : list A) (a : A) :
  last (x :: t) a = last t x.
Proof.
  destruct t as [|y t]; [reflexivity|]. apply (last_nonempty t y).
Qed.

Lemma differences_telescope (t : list Q) (a : Q) :
  (Qsum (fillna 0
           (zip_with (fun prev cur => option_map (fun p => p - cur) prev)
                     (firstn (length t) (map Some (a :: t))) t))
   == a - last t a)%Q.
Proof.
  set (F := fun (prev : option Q) (cur : Q) =>
              option_map (fun p => (p - cur)%Q) prev).
  revert a. induction t as [|x t IH]; intros a.
  - cbn. ring.
  - change ((a - x)
            + Qsum (fillna 0 (zip_with F (firstn (length t)
                                            (map Some (x :: t))) t))
            == a - last (x :: t) a)%Q.
    rewrite (IH x).
    rewrite (last_cons x t a). ring.
Qed.

Lemma shifted_differences_total (s : list Q) (a : Q) (t : list Q) :
  s = a :: t ->
  (Qsum (fillna 0
           (zip_with (fun prev cur => option_map (fun p => p - cur) prev)
                     (shift1 s) s))
   == a - last t a)%Q.
Proof.
  intros ->. unfold shift1.
  change (0 + Qsum (fillna 0
                      (zip_with
                         (fun (prev : option Q) (cur : Q) =>
                            option_map (fun p => (p - cur)%Q) prev)
                         (firstn (length t) (map Some (a :: t))) t))
          == a - last t a)%Q.
  rewrite differences_telescope. ring.
Qed.

Lemma last_map {A B} (h : A -> B) (t : list A) (d : A) :
  last (map h t) (h d) = h (last t d).
Proof.
  induction t as [|x t IH]; [reflexivity|].
  cbn. destruct t as [|y t]; [reflexivity | exact IH].
Qed.

(** X19.  [PREV_DAY_SALES] is the day-to-day decrease of the stock, so over
    the rows of one product it adds up to the net decrease: the stock of
    the product's first row minus the stock of its last row.  Restocks
    count as negative sales in this total. *)
Theorem X19_sales_total_is_net_decrease
    (csv : list Observation) (F : Frame FeatureRow) (k : Z)
    (first : FeatureRow) (rest : list FeatureRow) :
  feature_engineering csv = Ok F ->
  values (select_product sku_of k F) = first :: rest ->
  (Qsum (map PREV_DAY_SALES (first :: rest))
   == inject_Z (stock (row first))
      - inject_Z (stock (row (last rest first))))%Q.
Proof.
  intros HF Hrows. rewrite <- Hrows, (product_rows _ _ _ HF).
  rewrite col_PREV_DAY_SALES_column.
  set (g := select_product sku k (load csv)).
  assert (Hstock : col_stock g
                   = map (fun r => inject_Z (stock (row r))) (first :: rest)).
  { unfold col_stock. rewrite <- Hrows, (product_rows _ _ _ HF).
    fold g. rewrite <- (prod_features_rows g), map_map. reflexivity. }
  cbn [map] in Hstock. unfold col_PREV_DAY_SALES.
  rewrite (shifted_differences_total _ _ _ Hstock).
  rewrite (last_map (fun r => inject_Z (stock (row r)))). reflexivity.
Qed.

Lemma X19_sales_total_is_net_decrease_witness :
  exists F first rest,
    feature_engineering two_skus = Ok F
    /\ values (select_product sku_of 1001 F) = first :: rest
    /\ (Qsum (map PREV_DAY_SALES (first :: rest))
        == inject_Z (stock (row first))
           - inject_Z (stock (row (last rest first))))%Q.
Proof.
  eexists. eexists. eexists.
  split; [vm_compute; reflexivity|].
  match goal with |- values (select_product _ _ ?FF) = _ /\ _ =>
    pose (F0 := FF) end.
  split; [vm_compute; reflexivity|].
  match goal with |- (Qsum (map _ (?A :: ?R)) == _)%Q =>
    pose (first0 := A); pose (rest0 := R) end.
  exact (X19_sales_total_is_net_decrease two_skus F0 1001 first0 rest0
           ltac:(vm_compute; reflexivity) ltac:(vm_compute; reflexivity)).
Defined.
